(** * READI readability library: statistics compilation and scoring

    A shallow embedding of

    - [src/library/readability/readability.py]: the [Readability] session
      ([__init__], [score], [gfi], [ari], [fre], [fkgl], [smog], [rel],
      [compile]);
    - [src/readability/stats/diversity.py] and
      [src/readability/readability/stats/diversity.py]: the two copies of
      [type_token_ratio] and [noun_token_ratio].

    Python values are an inductive type, exceptions are an error monad,
    attributes that may be missing on an instance are [option] fields, and a
    [print] of a WARNING line is an entry of an output log (DEBUG lines are
    not logged).  A character of a [string] stands for one code point of a
    Python [str]; Python integers are [Z]; Python floats are idealised as
    real numbers. *)

From Stdlib Require Import String Ascii List ZArith Bool Lia Reals Lra.
Import ListNotations.

Local Open Scope string_scope.
Local Open Scope list_scope.
Local Open Scope Z_scope.

(* ================================================================== *)
(** * Python values and exceptions *)
(* ================================================================== *)

Module Py.

(** The Python exceptions the embedded code can raise, and the
    specification's [UndefinedFormula] failure of a score function. *)
Inductive Exn : Type :=
| TypeError
| IndexError
| KeyError
| AttributeError
| UnboundLocalError
| UndefinedFormula.

Inductive Res (A : Type) : Type :=
| Ret (a : A)
| Raise (e : Exn).

Arguments Ret {A} a.
Arguments Raise {A} e.

Definition bind {A B : Type} (m : Res A) (k : A -> Res B) : Res B :=
  match m with
  | Ret a => k a
  | Raise e => Raise e
  end.

Notation "x <- m ;; k" := (bind m (fun x => k))
  (at level 61, m at next level, right associativity).

#[local] Set Warnings "-register-all".

(** The values a caller can hand to the library.  A [PDict] lists its items
    in insertion order; keys are class labels, hence strings. *)
Inductive Val : Type :=
| PNone
| PInt (z : Z)
| PStr (s : string)
| PList (l : list Val)
| PDict (d : list (string * Val)).


Definition isinstance_list (v : Val) : bool :=
  match v with PList _ => true | _ => false end.

Definition type_is_dict (v : Val) : bool :=
  match v with PDict _ => true | _ => false end.

(** The one-character strings of a [str], in order. *)
Fixpoint chars (s : string) : list string :=
  match s with
  | EmptyString => []
  | String c s' => String c EmptyString :: chars s'
  end.

(** [for x in v]: the elements [v] yields. *)
Definition iter (v : Val) : Res (list Val) :=
  match v with
  | PStr s => Ret (map PStr (chars s))
  | PList l => Ret l
  | PDict d => Ret (map (fun kv => PStr (fst kv)) d)
  | PNone | PInt _ => Raise TypeError
  end.

(** [len(v)]. *)
Definition len (v : Val) : Res Z :=
  match v with
  | PStr s => Ret (Z.of_nat (String.length s))
  | PList l => Ret (Z.of_nat (List.length l))
  | PDict d => Ret (Z.of_nat (List.length d))
  | PNone | PInt _ => Raise TypeError
  end.

(** [v[0]] for a list [v]. *)
Definition index0 (v : Val) : Res Val :=
  match v with
  | PList (x :: _) => Ret x
  | PList [] => Raise IndexError
  | PStr (String c _) => Ret (PStr (String c EmptyString))
  | PStr EmptyString => Raise IndexError
  | PDict _ => Raise KeyError
  | PNone | PInt _ => Raise TypeError
  end.

Fixpoint lookup {A : Type} (d : list (string * A)) (k : string) : option A :=
  match d with
  | [] => None
  | (k', v) :: d' => if String.eqb k k' then Some v else lookup d' k
  end.

(** [d[k] = v] on a dict: an existing key keeps its place. *)
Fixpoint dict_set {A : Type} (d : list (string * A)) (k : string) (v : A)
  : list (string * A) :=
  match d with
  | [] => [(k, v)]
  | (k', v') :: d' =>
      if String.eqb k k' then (k', v) :: d' else (k', v') :: dict_set d' k v
  end.

(** [list(v.keys())] for a dict [v]. *)
Definition dict_keys (v : Val) : list string :=
  match v with PDict d => map fst d | _ => [] end.

(** [keys[0]]. *)
Definition first_key (keys : list string) : Res string :=
  match keys with k :: _ => Ret k | [] => Raise IndexError end.

(** [v[k]] for a string key [k]. *)
Definition getitem (v : Val) (k : string) : Res Val :=
  match v with
  | PDict d => match lookup d k with Some x => Ret x | None => Raise KeyError end
  | _ => Raise TypeError
  end.

(** A [for] loop whose body updates an accumulator and may raise. *)
Fixpoint for_each {A S : Type} (body : S -> A -> Res S) (xs : list A) (s : S)
  : Res S :=
  match xs with
  | [] => Ret s
  | x :: xs' => s' <- body s x ;; for_each body xs' s'
  end.

(** A comprehension [[f(x) for x in xs]]. *)
Fixpoint mapM {A B : Type} (f : A -> Res B) (xs : list A) : Res (list B) :=
  match xs with
  | [] => Ret []
  | x :: xs' => y <- f x ;; ys <- mapM f xs' ;; Ret (y :: ys)
  end.

(** [sum(xs)] over integers. *)
Definition sum (xs : list Z) : Z := fold_left Z.add xs 0.

Definition as_str (v : Val) : Res string :=
  match v with PStr s => Ret s | _ => Raise TypeError end.

Fixpoint join_strings (sep : string) (xs : list string) : string :=
  match xs with
  | [] => EmptyString
  | [x] => x
  | x :: xs' => (x ++ sep ++ join_strings sep xs')%string
  end.

(** [sep.join(v)]: every element [v] yields must be a [str]. *)
Definition join (sep : string) (v : Val) : Res string :=
  xs <- iter v ;;
  ss <- mapM as_str xs ;;
  Ret (join_strings sep ss).

(** The ordinal of a character. *)
Definition ord (c : ascii) : nat := nat_of_ascii c.

(** Membership in [string.punctuation]: the ASCII characters 33-47, 58-64,
    91-96 and 123-126. *)
Definition is_punctuation (c : ascii) : bool :=
  let n := ord c in
  ((33 <=? n) && (n <=? 47) || (58 <=? n) && (n <=? 64)
   || (91 <=? n) && (n <=? 96) || (123 <=? n) && (n <=? 126))%nat.

(** [doc.translate(str.maketrans('', '', string.punctuation))]. *)
Fixpoint strip_punctuation (s : string) : string :=
  match s with
  | EmptyString => EmptyString
  | String c s' =>
      if is_punctuation c then strip_punctuation s'
      else String c (strip_punctuation s')
  end.

(** The characters [str.split()] treats as separators (among code points
    below 256). *)
Definition is_space (c : ascii) : bool :=
  let n := ord c in
  ((9 <=? n) && (n <=? 13) || (28 <=? n) && (n <=? 32)
   || (n =? 133) || (n =? 160))%nat.

Fixpoint split_from (s : string) (word : string) : list string :=
  match s with
  | EmptyString =>
      match word with EmptyString => [] | _ => [word] end
  | String c s' =>
      if is_space c then
        match word with
        | EmptyString => split_from s' EmptyString
        | _ => word :: split_from s' EmptyString
        end
      else split_from s' (word ++ String c EmptyString)%string
  end.

(** [doc.split()]. *)
Definition split (s : string) : list string := split_from s EmptyString.

(** [len(Counter(xs))]: the number of distinct elements. *)
Definition count_distinct (xs : list string) : nat :=
  List.length (nodup string_dec xs).

End Py.

Import Py.

(* ================================================================== *)
(** * The Readability session (src/library/readability/readability.py) *)
(* ================================================================== *)

(** What the external NLP engine returns for a token. *)
Record Token : Type := {
  text : string;
  is_punct : bool;
  pos_ : string
}.

(** The external NLP engine, seen through the two views the library uses:
    [nlp(doc).sents] with each token's [.text], and the tagged tokens of
    [nlp(doc)]. *)
Record Nlp : Type := {
  sents : string -> list (list string);
  tokens : string -> list Token
}.

(** [class Statistics: pass], with the six attributes [compile] sets. *)
Record Statistics : Type := {
  totalWords : Z;
  totalLongWords : Z;
  totalSentences : Z;
  totalCharacters : Z;
  totalSyllables : Z;
  nbPolysyllables : Z
}.

(** An instance of [Readability].  [lang], [perplexity_processor] and [nlp]
    are always set by the constructor ([nlp] possibly to Python's [None]);
    the other attributes exist only once assigned: [None] is "no such
    attribute". *)
Record Readability : Type := {
  lang : string;
  perplexity_processor : string;
  nlp : option Nlp;
  content_type : option string;
  content : option Val;
  classes : option (list string);
  statistics : option Statistics;
  corpus_statistics : option (list (string * list Statistics))
}.

Definition set_text (self : Readability) (c : Val) : Readability :=
  {| lang := lang self; perplexity_processor := perplexity_processor self;
     nlp := nlp self; content_type := Some "text"; content := Some c;
     classes := classes self; statistics := statistics self;
     corpus_statistics := corpus_statistics self |}.

Definition set_corpus (self : Readability) (c : Val) (keys : list string)
  : Readability :=
  {| lang := lang self; perplexity_processor := perplexity_processor self;
     nlp := nlp self; content_type := Some "corpus"; content := Some c;
     classes := Some keys; statistics := statistics self;
     corpus_statistics := corpus_statistics self |}.

Definition set_statistics (self : Readability) (st : Statistics)
  : Readability :=
  {| lang := lang self; perplexity_processor := perplexity_processor self;
     nlp := nlp self; content_type := content_type self;
     content := content self; classes := classes self;
     statistics := Some st; corpus_statistics := corpus_statistics self |}.

Definition set_corpus_statistics (self : Readability)
  (stats : list (string * list Statistics)) : Readability :=
  {| lang := lang self; perplexity_processor := perplexity_processor self;
     nlp := nlp self; content_type := content_type self;
     content := content self; classes := classes self;
     statistics := statistics self; corpus_statistics := Some stats |}.

(** Reading an attribute that may be missing. *)
Definition getattr {A : Type} (a : option A) : Res A :=
  match a with Some x => Ret x | None => Raise AttributeError end.

(** A canonical text (sentences of tokens) and a canonical corpus as Python
    values. *)
Definition Text : Type := list (list string).

Definition sentence_val (s : list string) : Val := PList (map PStr s).
Definition text_val (t : Text) : Val := PList (map sentence_val t).
Definition corpus_val (c : list (string * list Text)) : Val :=
  PDict (map (fun kv => (fst kv, PList (map text_val (snd kv)))) c).

Definition warning_string_path : string :=
  "WARNING : Text length is less than 100 words, some scores will be inaccurate.".
Definition warning_token_path : string :=
  "WARNING : Text length is less than 100 words, scores will be inaccurate and meaningless.".

(** [[[token.text for token in sent] for sent in self.nlp(content).sents]]:
    calling [None] raises. *)
Definition nlp_sents (engine : option Nlp) (doc : string) : Res Text :=
  match engine with
  | Some e => Ret (sents e doc)
  | None => Raise TypeError
  end.

Section Constructor.

(** [spacy.load('fr_core_news_sm')], the external engine. *)
Variable fr_core_news_sm : Nlp.

(** [Readability.__init__].  The result pairs the instance with the WARNING
    lines printed. *)
Definition __init__ (content : Val) (lang nlp_name perplexity_processor : string)
  : Res (Readability * list string) :=
  let self :=
    {| lang := lang; perplexity_processor := perplexity_processor;
       nlp := if String.eqb lang "fr" && String.eqb nlp_name "spacy_sm"
              then Some fr_core_news_sm else None;
       content_type := None; content := None; classes := None;
       statistics := None; corpus_statistics := None |} in
  match content with
  | PStr doc =>
      (* isinstance(content, str) *)
      converted <- nlp_sents (nlp self) doc ;;
      let nb_words :=
        fold_left (fun n sentence => n + Z.of_nat (List.length sentence))
                  converted 0 in
      Ret (set_text self (text_val converted),
           if nb_words <? 101 then [warning_string_path] else [])
  | _ =>
      els <- iter content ;;
      if existsb isinstance_list els then
        (* any(isinstance(el, list) for el in content) *)
        Ret (set_text self content, [])
      else if isinstance_list content then
        doc <- join " " content ;;
        converted <- nlp_sents (nlp self) doc ;;
        let nb_words :=
          fold_left
            (fun n sentence =>
               fold_left (fun m _ => m + Z.of_nat (List.length sentence))
                         sentence n)
            converted 0 in
        Ret (set_text self (text_val converted),
             if nb_words <? 101 then [warning_token_path] else [])
      else if type_is_dict content then
        (* content[list(content.keys())[0]], then [0], then [0][0] *)
        key0 <- first_key (dict_keys content) ;;
        first_class <- getitem content key0 ;;
        if isinstance_list first_class then
          first_text <- index0 first_class ;;
          if isinstance_list first_text then
            first_sentence <- index0 first_text ;;
            if isinstance_list first_sentence then
              Ret (set_corpus self content (dict_keys content), [])
            else Ret (self, [])
          else Ret (self, [])
        else Ret (self, [])
      else Ret (self, [])
  end.

End Constructor.

(** What a method hands back besides a score: the instance itself
    ([return self]) or an integer. *)
Inductive Returned : Type :=
| RSelf
| RInt (z : Z).

(** What a scoring method returns: a float, a dict from class to the list of
    its texts' scores, or an integer. *)
Inductive ScoreValue : Type :=
| Scalar (x : R)
| PerClass (scores : list (string * list R))
| IntValue (z : Z).

(** The functions of [common_scores] that [score] dispatches to. *)
Inductive Formula : Type :=
| GFI_score | ARI_score | FRE_score | FKGL_score | SMOG_score | REL_score.

(** [scores[level].append(x)]. *)
Definition dict_append {A : Type} (d : list (string * list A)) (k : string)
  (x : A) : Res (list (string * list A)) :=
  match lookup d k with
  | Some l => Ret (dict_set d k (l ++ [x]))
  | None => Raise KeyError
  end.

Definition lookup_key {A : Type} (d : list (string * A)) (k : string) : Res A :=
  match lookup d k with Some x => Ret x | None => Raise KeyError end.

(** The if/elif cascade that opens [score]: the function bound to [func],
    if any. *)
Definition func_of_name (name : string) : option Formula :=
  if String.eqb name "gfi" then Some GFI_score
  else if String.eqb name "ari" then Some ARI_score
  else if String.eqb name "fre" then Some FRE_score
  else if String.eqb name "fkgl" then Some FKGL_score
  else if String.eqb name "smog" then Some SMOG_score
  else if String.eqb name "rel" then Some REL_score
  else None.

Section Methods.

(** [utils.syllablesplit], the syllable counter of a word. *)
Variable syllablesplit : string -> Z.

(** [common_scores.X_score(text, statistics=None)] for each formula [X]. *)
Variable common_scores : Formula -> Val -> option Statistics -> Res R.

(** [utils.syllablesplit(word)]: the counter is defined on strings. *)
Definition call_syllablesplit (word : Val) : Res Z :=
  s <- as_str word ;; Ret (syllablesplit s).

(** The body of [for sentence in text:] in [compile]. *)
Definition count_sentence (acc : Statistics) (sentence : Val) : Res Statistics :=
  n <- len sentence ;;
  toks <- iter sentence ;;
  (* len([token for token in sentence if len(token)>6]) *)
  lens <- mapM len toks ;;
  let long := Z.of_nat (List.length (filter (fun l => 6 <? l) lens)) in
  (* sum(len(token) for token in sentence) *)
  lens' <- mapM len toks ;;
  let characters := sum lens' in
  (* sum(utils.syllablesplit(word) for word in sentence) *)
  syls <- mapM call_syllablesplit toks ;;
  let syllables := sum syls in
  (* sum(1 for word in sentence if utils.syllablesplit(word)>=3) *)
  syls' <- mapM call_syllablesplit toks ;;
  let poly := sum (map (fun _ => 1) (filter (fun n => 3 <=? n) syls')) in
  Ret {| totalWords := totalWords acc + n;
         totalLongWords := totalLongWords acc + long;
         totalSentences := totalSentences acc;
         totalCharacters := totalCharacters acc + characters;
         totalSyllables := totalSyllables acc + syllables;
         nbPolysyllables := nbPolysyllables acc + poly |}.

(** The counters of one text: the block [compile] has twice, once for
    [self.content] and once for each text of a corpus. *)
Definition text_statistics (text : Val) : Res Statistics :=
  n <- len text ;;
  sentences <- iter text ;;
  for_each count_sentence sentences
    {| totalWords := 0; totalLongWords := 0; totalSentences := n;
       totalCharacters := 0; totalSyllables := 0; nbPolysyllables := 0 |}.

(** The body of [for level in self.classes:] in [compile]. *)
Definition compile_level (self : Readability)
  (stats : list (string * list Statistics)) (level : string)
  : Res (list (string * list Statistics)) :=
  let stats := dict_set stats level [] in
  c <- getattr (content self) ;;
  texts <- getitem c level ;;
  texts <- iter texts ;;
  for_each
    (fun stats text =>
       st <- text_statistics text ;; dict_append stats level st)
    texts stats.

(** [Readability.compile]: the instance after the call, and what the call
    returns. *)
Definition compile (self : Readability) : Res (Readability * Returned) :=
  ct <- getattr (content_type self) ;;
  if String.eqb ct "text" then
    c <- getattr (content self) ;;
    st <- text_statistics c ;;
    Ret (set_statistics self st, RSelf)
  else if String.eqb ct "corpus" then
    levels <- getattr (classes self) ;;
    stats <- for_each (compile_level self) levels [] ;;
    Ret (set_corpus_statistics self stats, RSelf)
  else Ret (self, RInt 0).

(** A name that was never assigned. *)
Definition bound {A : Type} (x : option A) : Res A :=
  match x with Some a => Ret a | None => Raise UnboundLocalError end.

(** The text branch shared by [score] and the dedicated accessors. *)
Definition score_text (self : Readability) (func : option Formula)
  : Res ScoreValue :=
  match statistics self with
  | Some st =>
      (* hasattr(self, "statistics") *)
      f <- bound func ;;
      c <- getattr (content self) ;;
      x <- common_scores f c (Some st) ;;
      Ret (Scalar x)
  | None =>
      f <- bound func ;;
      c <- getattr (content self) ;;
      x <- common_scores f c None ;;
      Ret (Scalar x)
  end.

(** The body of [for level in self.classes:] in [score] and [gfi]. *)
Definition score_level (self : Readability) (func : option Formula)
  (scores : list (string * list R)) (level : string)
  : Res (list (string * list R)) :=
  let scores := dict_set scores level [] in
  match corpus_statistics self with
  | Some corpus_stats =>
      (* hasattr(self, "corpus_statistics") *)
      stats <- lookup_key corpus_stats level ;;
      for_each
        (fun scores st =>
           f <- bound func ;;
           x <- common_scores f PNone (Some st) ;;
           dict_append scores level x)
        stats scores
  | None =>
      c <- getattr (content self) ;;
      texts <- getitem c level ;;
      texts <- iter texts ;;
      for_each
        (fun scores text =>
           f <- bound func ;;
           x <- common_scores f text None ;;
           dict_append scores level x)
        texts scores
  end.

Definition score_corpus (self : Readability) (func : option Formula)
  : Res ScoreValue :=
  levels <- getattr (classes self) ;;
  scores <- for_each (score_level self func) levels [] ;;
  Ret (PerClass scores).

(** [Readability.score]. *)
Definition score (self : Readability) (name : string) : Res ScoreValue :=
  let func := func_of_name name in
  ct <- getattr (content_type self) ;;
  if String.eqb ct "text" then score_text self func
  else if String.eqb ct "corpus" then score_corpus self func
  else Ret (IntValue (-1)).

(** [Readability.gfi]. *)
Definition gfi (self : Readability) : Res ScoreValue :=
  ct <- getattr (content_type self) ;;
  if String.eqb ct "text" then score_text self (Some GFI_score)
  else if String.eqb ct "corpus" then score_corpus self (Some GFI_score)
  else Ret (IntValue (-1)).

(** The shape [ari], [fre], [fkgl], [smog] and [rel] share: the corpus branch
    only prints "just do a loop and return a list of scores" and falls
    through to [return -1]. *)
Definition text_only_accessor (f : Formula) (self : Readability)
  : Res ScoreValue :=
  ct <- getattr (content_type self) ;;
  if String.eqb ct "text" then score_text self (Some f)
  else if String.eqb ct "corpus" then Ret (IntValue (-1))
  else Ret (IntValue (-1)).

Definition ari : Readability -> Res ScoreValue := text_only_accessor ARI_score.
Definition fre : Readability -> Res ScoreValue := text_only_accessor FRE_score.
Definition fkgl : Readability -> Res ScoreValue := text_only_accessor FKGL_score.
Definition smog : Readability -> Res ScoreValue := text_only_accessor SMOG_score.
Definition rel : Readability -> Res ScoreValue := text_only_accessor REL_score.

End Methods.

(* ================================================================== *)
(** * The diversity ratios (the two copies of stats/diversity.py) *)
(* ================================================================== *)

(** The if-cascade on [mode] that ends every ratio function:
    [nb_unique/math.sqrt(2*nb_tokens)] for "corrected",
    [nb_unique/math.sqrt(nb_tokens)] for "root", [nb_unique/nb_tokens]
    otherwise. *)
Definition ratio_for_mode (mode : option string) (nb_unique nb_tokens : Z) : R :=
  match mode with
  | Some m =>
      if String.eqb m "corrected" then
        (IZR nb_unique / sqrt (IZR (2 * nb_tokens)))%R
      else if String.eqb m "root" then
        (IZR nb_unique / sqrt (IZR nb_tokens))%R
      else (IZR nb_unique / IZR nb_tokens)%R
  | None => (IZR nb_unique / IZR nb_tokens)%R
  end.

(** [[token.text for token in nlp(doc)
      if (not token.is_punct and token.pos_ == "NOUN")]]; calling [None]
    raises. *)
Definition nouns_of (nlp : option Nlp) (doc : string) : Res (list string) :=
  match nlp with
  | Some e =>
      Ret (map text
             (filter (fun t => negb (is_punct t) && String.eqb (pos_ t) "NOUN")
                     (tokens e doc)))
  | None => Raise TypeError
  end.

(** The conversion written out in [noun_token_ratio] of
    src/readability/stats/diversity.py: a [str] is kept, a list with a list
    among its elements is flattened sentence by sentence, a flat list is
    joined; anything else leaves [doc] unassigned. *)
Definition inline_convert (text : Val) : Res string :=
  match text with
  | PStr doc => Ret doc
  | _ =>
      els <- iter text ;;
      if existsb isinstance_list els then
        for_each
          (fun doc sentence =>
             joined <- join " " sentence ;;
             Ret (doc ++ " " ++ joined)%string)
          els EmptyString
      else if isinstance_list text then join " " text
      else Raise UnboundLocalError
  end.

(** Modelled from the spec: [utils.convert_text_to_string], whose source is
    not part of the files at hand ("flatten text to a single string";
    "converted to string if it's already a list of tokens").  It follows
    the conversion that [noun_token_ratio] of
    src/readability/stats/diversity.py still writes out. *)
Definition utils_convert_text_to_string (text : Val) : Res string :=
  inline_convert text.

(** src/readability/stats/diversity.py *)
Module StatsDiversity.
Section Diversity.

Variable convert_text_to_string : Val -> Res string.

Definition warning_ttr : string :=
  "WARNING : Current text's content is empty, return value has been set to -1".
Definition warning_ntr : string :=
  "WARNING : Current text's content is empty or no nouns have been recognized, return value has been set to -1".

Definition type_token_ratio (text : Val) (nlp : option Nlp) (mode : option string)
  : Res (R * list string) :=
  doc <- convert_text_to_string text ;;
  let doc := strip_punctuation doc in
  let nb_unique := Z.of_nat (count_distinct (split doc)) in
  let nb_tokens := Z.of_nat (List.length (split doc)) in
  if nb_tokens =? 0 then Ret (IZR (-1), [warning_ttr])
  else Ret (ratio_for_mode mode nb_unique nb_tokens, []).

Definition noun_token_ratio (text : Val) (nlp : option Nlp) (mode : option string)
  : Res (R * list string) :=
  doc <- inline_convert text ;;
  nouns <- nouns_of nlp doc ;;
  let nb_unique := Z.of_nat (count_distinct nouns) in
  let nb_tokens := Z.of_nat (List.length nouns) in
  if nb_tokens =? 0 then Ret (IZR (-1), [warning_ntr])
  else Ret (ratio_for_mode mode nb_unique nb_tokens, []).

End Diversity.
End StatsDiversity.

(** src/readability/readability/stats/diversity.py *)
Module ReadabilityStatsDiversity.
Section Diversity.

Variable convert_text_to_string : Val -> Res string.

Definition warning_ttr : string :=
  "WARNING : Current text's content is empty, returned ratio value has been set to 0".
Definition warning_ntr : string :=
  "WARNING : Current text's content is empty or no nouns have been recognized, returned ratio value has been set to 0".

Definition type_token_ratio (text : Val) (nlp : option Nlp) (mode : option string)
  : Res (R * list string) :=
  doc <- convert_text_to_string text ;;
  let doc := strip_punctuation doc in
  let nb_unique := Z.of_nat (count_distinct (split doc)) in
  let nb_tokens := Z.of_nat (List.length (split doc)) in
  if nb_tokens =? 0 then Ret (IZR 0, [warning_ttr])
  else Ret (ratio_for_mode mode nb_unique nb_tokens, []).

Definition noun_token_ratio (text : Val) (nlp : option Nlp) (mode : option string)
  : Res (R * list string) :=
  doc <- convert_text_to_string text ;;
  nouns <- nouns_of nlp doc ;;
  let nb_unique := Z.of_nat (count_distinct nouns) in
  let nb_tokens := Z.of_nat (List.length nouns) in
  if nb_tokens =? 0 then Ret (IZR 0, [warning_ntr])
  else Ret (ratio_for_mode mode nb_unique nb_tokens, []).

End Diversity.
End ReadabilityStatsDiversity.

(* ================================================================== *)
(** * The statistics aggregator as the specification words it *)
(* ================================================================== *)

Definition zsum (xs : list Z) : Z := fold_right Z.add 0 xs.

Definition char_length (token : string) : Z := Z.of_nat (String.length token).

Section Aggregator.

Variable syllablesplit : string -> Z.

(** Written from the specification (section 4.2), not from the code: total
    words is the sum of per-sentence token counts, long words are the tokens
    of more than 6 characters, and so on over all tokens of the text. *)
Definition aggregate (t : Text) : Statistics :=
  {| totalWords := zsum (map (fun s => Z.of_nat (List.length s)) t);
     totalLongWords :=
       Z.of_nat (List.length (filter (fun w => 6 <? char_length w) (concat t)));
     totalSentences := Z.of_nat (List.length t);
     totalCharacters := zsum (map char_length (concat t));
     totalSyllables := zsum (map syllablesplit (concat t));
     nbPolysyllables :=
       Z.of_nat (List.length (filter (fun w => 3 <=? syllablesplit w) (concat t))) |}.

(** [aggregate_corpus]: the same computation for every text of every
    class, in order. *)
Definition aggregate_corpus (c : list (string * list Text))
  : list (string * list Statistics) :=
  map (fun kv => (fst kv, map aggregate (snd kv))) c.

End Aggregator.


(* ================================================================== *)
(** * The score functions as the specification words them *)
(* ================================================================== *)

(** A canonical text read back from a Python value. *)
Definition as_sentence (v : Val) : Res (list string) :=
  match v with
  | PList l => mapM as_str l
  | _ => Raise TypeError
  end.

Definition as_text (v : Val) : Res Text :=
  match v with
  | PList l => mapM as_sentence l
  | _ => Raise TypeError
  end.

Section SpecScores.

Variable syllablesplit : string -> Z.

(** The language-tuned constants of REL, which the specification leaves
    open. *)
Variables rel_base rel_sentence rel_syllable : R.

Local Open Scope R_scope.

(** Modelled from the spec: the formula table of section 4.3, whose code
    (the module [common_scores]) is not part of the files at hand.  W=words,
    S=sentences, LW=long words, C=characters, SYL=syllables,
    PSYL=polysyllabic words; with S=0 or W=0 the formula is undefined and a
    failure is signalled. *)
Definition formula_value (f : Formula) (st : Statistics) : Res R :=
  let W := IZR (totalWords st) in
  let S := IZR (totalSentences st) in
  let LW := IZR (totalLongWords st) in
  let C := IZR (totalCharacters st) in
  let SYL := IZR (totalSyllables st) in
  let PSYL := IZR (nbPolysyllables st) in
  if ((totalSentences st =? 0) || (totalWords st =? 0))%Z then
    Raise UndefinedFormula
  else
    Ret match f with
        | GFI_score => 0.4 * ((W / S) + 100 * (LW / W))
        | ARI_score => 4.71 * (C / W) + 0.5 * (W / S) - 21.43
        | FRE_score => 206.835 - 1.015 * (W / S) - 84.6 * (SYL / W)
        | FKGL_score => 0.39 * (W / S) + 11.8 * (SYL / W) - 15.59
        | SMOG_score => 3.1291 + 1.0430 * sqrt (30 * (PSYL / S))
        | REL_score => rel_base - rel_sentence * (W / S) - rel_syllable * (SYL / W)
        end.

(** Modelled from the spec: the dual-mode contract of section 4.3 for
    [common_scores.X_score(text, statistics=None)].  A supplied snapshot is
    used directly; without one the Statistics Aggregator is invoked on the
    text. *)
Definition spec_common_scores (f : Formula) (text : Val)
  (statistics : option Statistics) : Res R :=
  match statistics with
  | Some st => formula_value f st
  | None =>
      t <- as_text text ;;
      formula_value f (aggregate syllablesplit t)
  end.

End SpecScores.

(* ================================================================== *)
(** * Predicates and concrete instances used in the statements *)
(* ================================================================== *)




(** The total word count of a canonical text. *)
Definition word_count (t : Text) : Z :=
  zsum (map (fun s => Z.of_nat (List.length s)) t).

(** A stand-in for the external engine in concrete runs: the
    whitespace-separated words of the document form its only sentence, and
    each is tagged as a common noun. *)
Definition whitespace_nlp : Nlp :=
  {| sents := fun doc => match split doc with [] => [] | ws => [ws] end;
     tokens := fun doc =>
       map (fun w => {| text := w; is_punct := false; pos_ := "NOUN" |})
           (split doc) |}.


Definition is_vowel (c : ascii) : bool :=
  existsb (Ascii.eqb c) (list_ascii_of_string "aeiouyAEIOUY").

(** A stand-in for [utils.syllablesplit] in concrete runs: the number of
    vowels of the word. *)
Definition count_vowels (w : string) : Z :=
  Z.of_nat (List.length (filter is_vowel (list_ascii_of_string w))).

(** The text of the specification's worked example. *)
Definition example_text : Text :=
  [["Le"; "chat"; "mange"]; ["Il"; "est"; "content"]].

(** A session as the constructor leaves it for a nested-list input. *)
Definition text_session (engine : option Nlp) (t : Text) : Readability :=
  {| lang := "fr"; perplexity_processor := "gpt2"; nlp := engine;
     content_type := Some "text"; content := Some (text_val t);
     classes := None; statistics := None; corpus_statistics := None |}.

(** A session as the constructor leaves it for a corpus input. *)
Definition corpus_session (engine : option Nlp) (c : list (string * list Text))
  : Readability :=
  {| lang := "fr"; perplexity_processor := "gpt2"; nlp := engine;
     content_type := Some "corpus"; content := Some (corpus_val c);
     classes := Some (map fst c); statistics := None;
     corpus_statistics := None |}.


Definition example_corpus : list (string * list Text) :=
  [("A", [example_text; [["Oui"]]]); ("B", [[["Non"; "merci"]]])].

(** [n] copies of a word, separated by single spaces. *)
Definition repeated_words (w : string) (n : nat) : string :=
  join_strings " " (repeat w n).

(* ================================================================== *)
(** * The diagnostic accessor (Readability.stats) *)
(* ================================================================== *)

(** What [print] writes: a plain message, or the line of one statistic,
    [print(stat, ' = ', value)]. *)
Inductive Printed : Type :=
| Message (s : string)
| StatLine (name : string) (value : Z).

(** [for stat in st.__dict__: print(stat, ' = ', st.__dict__[stat])]: the
    attributes of a snapshot, in the order [compile] assigned them. *)
Definition print_statistics (st : Statistics) : list Printed :=
  [StatLine "totalWords" (totalWords st);
   StatLine "totalLongWords" (totalLongWords st);
   StatLine "totalSentences" (totalSentences st);
   StatLine "totalCharacters" (totalCharacters st);
   StatLine "totalSyllables" (totalSyllables st);
   StatLine "nbPolysyllables" (nbPolysyllables st)].

Definition message_compile_first : string :=
  "finish r.compile() first".
Definition message_not_compiled : string :=
  "You need to apply the .compile() function before in order to view this text|corpus' statistics".

(** [Readability.stats]: the lines printed, when the call returns. *)
Definition stats (self : Readability) : Res (list Printed) :=
  match statistics self with
  | Some st =>
      (* hasattr(self, "statistics") *)
      Ret (print_statistics st)
  | None =>
      match corpus_statistics self with
      | Some corpus_stats =>
          (* hasattr(self, "corpus_statistics") *)
          levels <- getattr (classes self) ;;
          for_each
            (fun out level =>
               sts <- lookup_key corpus_stats level ;;
               Ret (fold_left (fun out st => out ++ print_statistics st) sts out))
            levels [Message message_compile_first]
      | None => Ret [Message message_not_compiled]
      end
  end.

(** A string none of whose characters satisfies [p]. *)
Fixpoint no_char (p : ascii -> bool) (s : string) : bool :=
  match s with
  | EmptyString => true
  | String c s' => negb (p c) && no_char p s'
  end.

(** A plain token: not empty, and without whitespace or punctuation
    characters. *)
Definition plain_token (w : string) : bool :=
  negb (String.eqb w EmptyString)
  && no_char is_space w && no_char is_punctuation w.

(** The document the inline conversion builds from a nested list: each
    sentence's tokens joined by single spaces, each sentence led by a
    space. *)
Fixpoint flattened (t : Text) : string :=
  match t with
  | [] => EmptyString
  | s :: t' => (" " ++ join_strings " " s ++ flattened t')%string
  end.

(* ================================================================== *)
(** * Corpus information (Readability.corpus_info) *)
(* ================================================================== *)

Module Info.

(** The outcome of a computation of [corpus_info], whose divisions can
    raise ZeroDivisionError besides the exceptions met so far. *)
Inductive Outcome (A : Type) : Type :=
| Returns (a : A)
| Raises (e : Exn)
| RaisesZeroDivisionError.

Arguments Returns {A} a.
Arguments Raises {A} e.
Arguments RaisesZeroDivisionError {A}.

Definition obind {A B : Type} (m : Outcome A) (k : A -> Outcome B)
  : Outcome B :=
  match m with
  | Returns a => k a
  | Raises e => Raises e
  | RaisesZeroDivisionError => RaisesZeroDivisionError
  end.

Definition lift {A : Type} (m : Res A) : Outcome A :=
  match m with
  | Ret a => Returns a
  | Raise e => Raises e
  end.

Notation "x <~ m ;; k" := (obind m (fun x => k))
  (at level 61, m at next level, right associativity).

(** A [for] loop in this monad. *)
Fixpoint ofor_each {A S : Type} (body : S -> A -> Outcome S) (xs : list A)
  (s : S) : Outcome S :=
  match xs with
  | [] => Returns s
  | x :: xs' => s' <~ body s x ;; ofor_each body xs' s'
  end.

(** [x / d] with an integer divisor. *)
Definition div (x : R) (d : Z) : Outcome R :=
  if d =? 0 then RaisesZeroDivisionError else Returns (x / IZR d)%R.

(** ** Sets of tokens

    A [set] object is a list without repetition, in insertion order; the
    sets of tokens live in a heap, since [corpus_info] appends one and the
    same set to a list several times and goes on adding to it. *)

(** Equality of hashable values. *)
Definition atom_eqb (x y : Val) : bool :=
  match x, y with
  | PNone, PNone => true
  | PInt a, PInt b => Z.eqb a b
  | PStr a, PStr b => String.eqb a b
  | _, _ => false
  end.

(** Lists and dicts are not hashable. *)
Definition hashable (v : Val) : Res Val :=
  match v with
  | PList _ | PDict _ => Raise TypeError
  | _ => Ret v
  end.

(** [s.add(x)] for a hashable [x]. *)
Definition set_add (x : Val) (s : list Val) : list Val :=
  if existsb (atom_eqb x) s then s else s ++ [x].

(** [heap[a].add(x)]. *)
Fixpoint heap_add (heap : list (list Val)) (a : nat) (x : Val)
  : list (list Val) :=
  match heap, a with
  | [], _ => []
  | s :: heap', O => set_add x s :: heap'
  | s :: heap', S a' => s :: heap_add heap' a' x
  end.

(** The set at address [a]. *)
Definition deref (heap : list (list Val)) (a : nat) : list Val :=
  nth a heap [].

(** The state of the vocabulary pass: the set objects allocated so far, and
    [vocab], which maps a class to a list of references to sets. *)
Record Vocab : Type := {
  heap : list (list Val);
  vocab : list (string * list nat)
}.

(** The body of [for sent in text:] in the vocabulary pass: every token is
    added to the set [unique] at address [a], then [unique] itself is
    appended to [vocab[level]]. *)
Definition vocab_sentence (level : string) (a : nat) (st : Vocab) (sent : Val)
  : Res Vocab :=
  toks <- iter sent ;;
  heap' <- for_each
             (fun h token => x <- hashable token ;; Ret (heap_add h a x))
             toks (heap st) ;;
  vocab' <- dict_append (vocab st) level a ;;
  Ret {| heap := heap'; vocab := vocab' |}.

(** The body of [for text in corpus[level]:]: [unique = set()] allocates a
    new set. *)
Definition vocab_text (level : string) (st : Vocab) (text : Val) : Res Vocab :=
  let a := List.length (heap st) in
  let st := {| heap := heap st ++ [[]]; vocab := vocab st |} in
  sents <- iter text ;;
  for_each (vocab_sentence level a) sents st.

(** The body of [for level in levels:] in the vocabulary pass. *)
Definition vocab_level (corpus : Val) (st : Vocab) (level : string)
  : Res Vocab :=
  let st := {| heap := heap st; vocab := dict_set (vocab st) level [] |} in
  texts <- getitem corpus level ;;
  texts <- iter texts ;;
  for_each (vocab_text level) texts st.

(** ** Counts per class *)

(** The counters of one class: [nbr_ph], [nbr_ph_moy], [nbr_tokens],
    [nbr_tokens_moy], [len_phr], [len_phr_moy]. *)
Record Counts : Type := {
  nbr_ph : Z;
  nbr_ph_moy : R;
  nbr_tokens : Z;
  nbr_tokens_moy : R;
  len_phr : Z;
  len_phr_moy : R
}.

(** The body of [for sent in text:] in the counting pass. *)
Definition count_sent (nb_txt : Z) (acc : Counts) (sent : Val)
  : Outcome Counts :=
  m <~ lift (len sent) ;;
  q <~ div (IZR m) nb_txt ;;
  Returns {| nbr_ph := nbr_ph acc; nbr_ph_moy := nbr_ph_moy acc;
             nbr_tokens := nbr_tokens acc + m;
             nbr_tokens_moy := (nbr_tokens_moy acc + q)%R;
             len_phr := len_phr acc + m;
             len_phr_moy := len_phr_moy acc |}.

(** The body of [for text in corpus[level]:] in the counting pass. *)
Definition count_text (nb_txt : Z) (acc : Counts) (text : Val)
  : Outcome Counts :=
  temp_nbr_ph <~ lift (len text) ;;
  q <~ div (IZR temp_nbr_ph) nb_txt ;;
  sents <~ lift (iter text) ;;
  acc <~ ofor_each (count_sent nb_txt) sents
           {| nbr_ph := nbr_ph acc + temp_nbr_ph;
              nbr_ph_moy := (nbr_ph_moy acc + q)%R;
              nbr_tokens := nbr_tokens acc;
              nbr_tokens_moy := nbr_tokens_moy acc;
              len_phr := len_phr acc; len_phr_moy := len_phr_moy acc |} ;;
  r <~ div (IZR (len_phr acc)) temp_nbr_ph ;;
  Returns {| nbr_ph := nbr_ph acc; nbr_ph_moy := nbr_ph_moy acc;
             nbr_tokens := nbr_tokens acc;
             nbr_tokens_moy := nbr_tokens_moy acc;
             len_phr := 0;
             len_phr_moy := (len_phr_moy acc + r)%R |}.

(** The six lists the counting pass fills, one entry per class. *)
Record Rows : Type := {
  nb_files : list Z;
  nb_ph : list Z;
  nb_ph_moy : list R;
  len_ph_moy : list R;
  nb_tokens : list Z;
  nb_tokens_moy : list R
}.

(** The body of [for level in levels:] in the counting pass. *)
Definition count_level (corpus : Val) (rows : Rows) (level : string)
  : Outcome Rows :=
  texts <~ lift (getitem corpus level) ;;
  nb_txt <~ lift (len texts) ;;
  texts <~ lift (iter texts) ;;
  acc <~ ofor_each (count_text nb_txt) texts
           {| nbr_ph := 0; nbr_ph_moy := 0; nbr_tokens := 0;
              nbr_tokens_moy := 0; len_phr := 0; len_phr_moy := 0 |} ;;
  mean <~ div (len_phr_moy acc) nb_txt ;;
  Returns {| nb_files := nb_files rows ++ [nb_txt];
             nb_ph := nb_ph rows ++ [nbr_ph acc];
             nb_ph_moy := nb_ph_moy rows ++ [nbr_ph_moy acc];
             len_ph_moy := len_ph_moy rows ++ [mean];
             nb_tokens := nb_tokens rows ++ [nbr_tokens acc];
             nb_tokens_moy := nb_tokens_moy rows ++ [nbr_tokens_moy acc] |}.

(** [sum(xs)] over floats. *)
Definition rsum (xs : list R) : R := fold_left Rplus xs 0%R.

(** ** Vocabulary sizes *)

(** The body of [for level in levels:] of "Vocabulary size per class": the
    state is [all_vocab] and the list [taille_vocab]. *)
Definition size_level (v : Vocab) (st : list Val * list Z) (level : string)
  : Res (list Val * list Z) :=
  refs <- lookup_key (vocab v) level ;;
  let '(all_vocab, vocab_level) :=
    fold_left
      (fun sets a =>
         fold_left
           (fun sets token =>
              (set_add token (fst sets), set_add token (snd sets)))
           (deref (heap v) a) sets)
      refs (fst st, []) in
  Ret (all_vocab, snd st ++ [Z.of_nat (List.length vocab_level)]).

(** The body of [for level in levels:] of "Mean size of vocabulary": the
    state is [taille_moy_total] and the list [taille_vocab_moy]. *)
Definition mean_level (v : Vocab) (nb_files_tot : Z) (st : R * list R)
  (level : string) : Outcome (R * list R) :=
  refs <~ lift (lookup_key (vocab v) level) ;;
  acc <~ ofor_each
           (fun acc a =>
              let size := IZR (Z.of_nat (List.length (deref (heap v) a))) in
              q <~ div size nb_files_tot ;;
              r <~ div size (Z.of_nat (List.length refs)) ;;
              Returns ((fst acc + q)%R, (snd acc + r)%R))
           refs (fst st, 0%R) ;;
  Returns (fst acc, snd st ++ [snd acc]).

(** The columns and the eight rows handed to [pd.DataFrame], in the order
    of the frame's index.  [round(df, 0)] then rounds every entry to a whole
    number, which leaves the integer rows as they are. *)
Record Frame : Type := {
  cols : list string;
  files : list Z;              (* Nombre de fichiers *)
  sentences : list Z;          (* Nombre de phrases total *)
  sentences_mean : list R;     (* Nombre de phrases moyen *)
  sentence_length_mean : list R; (* Longueur moyenne de phrase *)
  tokens_total : list Z;       (* Nombre de tokens *)
  tokens_mean : list R;        (* Nombre de token moyen *)
  vocabulary : list Z;         (* Taille du vocabulaire *)
  vocabulary_mean : list R     (* Taille moyenne du vocabulaire *)
}.

(** What [corpus_info] returns: the integer 0, or the frame. *)
Inductive Result : Type :=
| Zero
| Table (f : Frame).

(** [Readability.corpus_info]. *)
Definition corpus_info (self : Readability) : Outcome Result :=
  ct <~ lift (getattr (content_type self)) ;;
  if negb (String.eqb ct "corpus") then Returns Zero
  else
    corpus <~ lift (getattr (content self)) ;;
    levels <~ lift (getattr (classes self)) ;;
    (* Build vocabulary *)
    v <~ lift (for_each (vocab_level corpus) levels
                 {| heap := []; vocab := [] |}) ;;
    (* Number of texts, sentences, and tokens per level *)
    rows <~ ofor_each (count_level corpus) levels
              {| nb_files := []; nb_ph := []; nb_ph_moy := [];
                 len_ph_moy := []; nb_tokens := []; nb_tokens_moy := [] |} ;;
    let nb_files_tot := sum (nb_files rows) in
    let nb_ph_tot := sum (nb_ph rows) in
    let nb_tokens_tot := sum (nb_tokens rows) in
    nb_tokens_moy_tot <~ div (IZR nb_tokens_tot) nb_files_tot ;;
    nb_ph_moy_tot <~ div (IZR nb_ph_tot) nb_files_tot ;;
    len_ph_moy_tot <~ div (rsum (len_ph_moy rows))
                          (Z.of_nat (List.length levels)) ;;
    (* Vocabulary size per class *)
    sizes <~ lift (for_each (size_level v) levels ([], [])) ;;
    (* Mean size of vocabulary *)
    means <~ ofor_each (mean_level v nb_files_tot) levels (0%R, []) ;;
    Returns
      (Table
         {| cols := levels ++ ["total"];
            files := nb_files rows ++ [nb_files_tot];
            sentences := nb_ph rows ++ [nb_ph_tot];
            sentences_mean := nb_ph_moy rows ++ [nb_ph_moy_tot];
            sentence_length_mean := len_ph_moy rows ++ [len_ph_moy_tot];
            tokens_total := nb_tokens rows ++ [nb_tokens_tot];
            tokens_mean := nb_tokens_moy rows ++ [nb_tokens_moy_tot];
            vocabulary := snd sizes ++ [Z.of_nat (List.length (fst sizes))];
            vocabulary_mean := snd means ++ [fst means] |}).

End Info.

(** ** Quantities of a canonical corpus, for the statements on
    [corpus_info] *)

(** The set of tokens of a canonical text, as the vocabulary pass builds
    it: the tokens in order of first occurrence. *)
Definition token_set (t : Text) : list Val :=
  fold_left (fun s w => Info.set_add (PStr w) s) (concat t) [].

(** The references the vocabulary pass stores for texts allocated from
    address [base] on: each text's address, once per sentence. *)
Fixpoint refs_from (base : nat) (texts : list Text) : list nat :=
  match texts with
  | [] => []
  | t :: texts' => repeat base (List.length t) ++ refs_from (S base) texts'
  end.

Fixpoint vocab_from (base : nat) (c : list (string * list Text))
  : list (string * list nat) :=
  match c with
  | [] => []
  | (k, texts) :: c' =>
      (k, refs_from base texts) :: vocab_from (base + List.length texts) c'
  end.

(** Sentences and tokens of a list of texts. *)
Definition sentence_count (texts : list Text) : Z :=
  zsum (map (fun t => Z.of_nat (List.length t)) texts).

Definition token_count (texts : list Text) : Z :=
  zsum (map word_count texts).

(** The sum of a list of reals. *)
Definition rtotal (xs : list R) : R := fold_right Rplus 0%R xs.

(** Every class has a text and every text has a sentence. *)
Definition populated (c : list (string * list Text)) : bool :=
  forallb (fun kv =>
             negb (Nat.eqb (List.length (snd kv)) 0)
             && forallb (fun t => negb (Nat.eqb (List.length t) 0)) (snd kv))
          c.

(** The three means of one class in the counting pass: sentences per text,
    tokens per text, and the mean over the texts of each text's tokens per
    sentence. *)
Definition mean_sentences (texts : list Text) : R :=
  (IZR (sentence_count texts) / IZR (Z.of_nat (List.length texts)))%R.

Definition mean_tokens (texts : list Text) : R :=
  (IZR (token_count texts) / IZR (Z.of_nat (List.length texts)))%R.

Definition mean_sentence_length (texts : list Text) : R :=
  (rtotal (map (fun t => IZR (word_count t) / IZR (Z.of_nat (List.length t)))
               texts)
   / IZR (Z.of_nat (List.length texts)))%R.

Definition class_populated (texts : list Text) : bool :=
  negb (Nat.eqb (List.length texts) 0)
  && forallb (fun t => negb (Nat.eqb (List.length t) 0)) texts.

(** The rows of the counting pass for a canonical corpus. *)
Definition counted_rows (c : list (string * list Text)) : Info.Rows :=
  {| Info.nb_files := map (fun kv => Z.of_nat (List.length (snd kv))) c;
     Info.nb_ph := map (fun kv => sentence_count (snd kv)) c;
     Info.nb_ph_moy := map (fun kv => mean_sentences (snd kv)) c;
     Info.len_ph_moy := map (fun kv => mean_sentence_length (snd kv)) c;
     Info.nb_tokens := map (fun kv => token_count (snd kv)) c;
     Info.nb_tokens_moy := map (fun kv => mean_tokens (snd kv)) c |}.

(** Sets of strings, as lists without repetition in insertion order. *)
Definition sadd (w : string) (s : list string) : list string :=
  if existsb (String.eqb w) s then s else s ++ [w].

Definition collect (ws : list string) (s : list string) : list string :=
  fold_left (fun s w => sadd w s) ws s.

(** All tokens of a class and of a corpus. *)
Definition class_tokens (texts : list Text) : list string :=
  concat (concat texts).

Definition corpus_tokens (c : list (string * list Text)) : list string :=
  concat (map (fun kv => class_tokens (snd kv)) c).

(** The vocabulary size of a text, and the sizes summed over the texts of a
    class with each text counted once per sentence. *)
Definition text_vocabulary (t : Text) : Z :=
  Z.of_nat (count_distinct (concat t)).

Definition weighted_vocabulary (texts : list Text) : Z :=
  zsum (map (fun t => Z.of_nat (List.length t) * text_vocabulary t) texts).

(** The tokens the size pass reads for a class: each text's set of tokens,
    once per sentence of the text. *)
Definition class_listing (texts : list Text) : list string :=
  concat (concat (map (fun t => repeat (collect (concat t) [])
                                       (List.length t))
                      texts)).

Definition class_vocabulary (texts : list Text) : Z :=
  Z.of_nat (count_distinct (class_tokens texts)).

(** The entry of a class in the row "Taille moyenne du vocabulaire": the
    texts' vocabulary sizes averaged with each text counted once per
    sentence. *)
Definition class_vocabulary_mean (texts : list Text) : R :=
  (IZR (weighted_vocabulary texts) / IZR (sentence_count texts))%R.

(** The frame of a canonical corpus all of whose classes have a text and
    all of whose texts have a sentence: per class and, in the last column,
    for the whole corpus. *)
Definition file_total (c : list (string * list Text)) : Z :=
  zsum (map (fun kv => Z.of_nat (List.length (snd kv))) c).

Definition sentence_total (c : list (string * list Text)) : Z :=
  zsum (map (fun kv => sentence_count (snd kv)) c).

Definition token_total (c : list (string * list Text)) : Z :=
  zsum (map (fun kv => token_count (snd kv)) c).

Definition corpus_frame (c : list (string * list Text)) : Info.Frame :=
  {| Info.cols := map fst c ++ ["total"];
     Info.files :=
       map (fun kv => Z.of_nat (List.length (snd kv))) c ++ [file_total c];
     Info.sentences :=
       map (fun kv => sentence_count (snd kv)) c ++ [sentence_total c];
     Info.sentences_mean :=
       map (fun kv => mean_sentences (snd kv)) c
       ++ [(IZR (sentence_total c) / IZR (file_total c))%R];
     Info.sentence_length_mean :=
       map (fun kv => mean_sentence_length (snd kv)) c
       ++ [(rtotal (map (fun kv => mean_sentence_length (snd kv)) c)
            / IZR (Z.of_nat (List.length c)))%R];
     Info.tokens_total :=
       map (fun kv => token_count (snd kv)) c ++ [token_total c];
     Info.tokens_mean :=
       map (fun kv => mean_tokens (snd kv)) c
       ++ [(IZR (token_total c) / IZR (file_total c))%R];
     Info.vocabulary :=
       map (fun kv => class_vocabulary (snd kv)) c
       ++ [Z.of_nat (count_distinct (corpus_tokens c))];
     Info.vocabulary_mean :=
       map (fun kv => class_vocabulary_mean (snd kv)) c
       ++ [(IZR (zsum (map (fun kv => weighted_vocabulary (snd kv)) c))
            / IZR (file_total c))%R] |}.

(** The session of a canonical corpus, whatever else it holds. *)
Definition holds_corpus (self : Readability) (c : list (string * list Text))
  : Prop :=
  content_type self = Some "corpus"
  /\ content self = Some (corpus_val c)
  /\ classes self = Some (map fst c)
  /\ NoDup (map fst c).

(* ================================================================== *)
(** * Lemmas on the Python layer *)
(* ================================================================== *)

Lemma bind_ret {A B : Type} (a : A) (k : A -> Res B) :
  bind (Ret a) k = k a.
Proof. reflexivity. Qed.

Lemma bind_inv {A B : Type} (m : Res A) (k : A -> Res B) (b : B) :
  bind m k = Ret b -> exists a, m = Ret a /\ k a = Ret b.
Proof.
  destruct m as [a|e]; simpl; intros H.
  - exists a; split; [reflexivity | exact H].
  - discriminate H.
Qed.

Lemma fold_add_shift (xs : list Z) (a : Z) :
  fold_left Z.add xs a = a + zsum xs.
Proof.
  revert a; induction xs as [|x xs IH]; intros a; simpl.
  - lia.
  - rewrite IH. lia.
Qed.

Lemma sum_zsum (xs : list Z) : sum xs = zsum xs.
Proof. unfold sum. rewrite fold_add_shift. lia. Qed.

Lemma zsum_cons (x : Z) (xs : list Z) : zsum (x :: xs) = x + zsum xs.
Proof. reflexivity. Qed.

Lemma zsum_app (xs ys : list Z) : zsum (xs ++ ys) = zsum xs + zsum ys.
Proof.
  induction xs as [|x xs IH]; simpl; [reflexivity | rewrite IH; lia].
Qed.

Lemma zsum_ones {A : Type} (xs : list A) :
  zsum (map (fun _ => 1) xs) = Z.of_nat (List.length xs).
Proof.
  induction xs as [|x xs IH]; [reflexivity|].
  cbn [map zsum fold_right List.length]. fold (zsum (map (fun _ : A => 1) xs)).
  rewrite IH. lia.
Qed.

Lemma mapM_len_tokens (s : list string) :
  mapM len (map PStr s) = Ret (map char_length s).
Proof.
  induction s as [|w s IH]; simpl; [reflexivity|].
  rewrite IH. reflexivity.
Qed.

Lemma filter_map_comm {A B : Type} (f : A -> B) (p : B -> bool) (xs : list A) :
  filter p (map f xs) = map f (filter (fun x => p (f x)) xs).
Proof.
  induction xs as [|x xs IH]; simpl; [reflexivity|].
  destruct (p (f x)); simpl; rewrite IH; reflexivity.
Qed.

Lemma lookup_dict_set_same {A : Type} (d : list (string * A)) k v :
  lookup (dict_set d k v) k = Some v.
Proof.
  induction d as [|[k' v'] d IH]; simpl.
  - rewrite String.eqb_refl. reflexivity.
  - destruct (String.eqb k k') eqn:E; simpl; rewrite E; [reflexivity | exact IH].
Qed.

Lemma dict_set_twice {A : Type} (d : list (string * A)) k v v' :
  dict_set (dict_set d k v) k v' = dict_set d k v'.
Proof.
  induction d as [|[k' w] d IH]; simpl.
  - rewrite String.eqb_refl. reflexivity.
  - destruct (String.eqb k k') eqn:E; simpl; rewrite E; [reflexivity|].
    rewrite IH. reflexivity.
Qed.

Lemma dict_set_fresh {A : Type} (d : list (string * A)) k v :
  ~ In k (map fst d) -> dict_set d k v = d ++ [(k, v)].
Proof.
  induction d as [|[k' w] d IH]; simpl; intros Hk; [reflexivity|].
  destruct (String.eqb k k') eqn:E.
  - apply String.eqb_eq in E. exfalso. apply Hk. left. symmetry. exact E.
  - rewrite IH; [reflexivity|]. intros Hin. apply Hk. right. exact Hin.
Qed.

Lemma lookup_In {A : Type} (d : list (string * A)) k v :
  NoDup (map fst d) -> In (k, v) d -> lookup d k = Some v.
Proof.
  induction d as [|[k' w] d IH]; simpl; intros Hnd Hin; [contradiction|].
  inversion Hnd as [|? ? Hnotin Hnd']; subst.
  destruct Hin as [Heq | Hin].
  - inversion Heq; subst. rewrite String.eqb_refl. reflexivity.
  - destruct (String.eqb k k') eqn:E.
    + apply String.eqb_eq in E. subst k'. exfalso. apply Hnotin.
      change k with (fst (k, v)). apply in_map. exact Hin.
    + apply IH; assumption.
Qed.

(* ================================================================== *)
(** * compile on canonical content *)
(* ================================================================== *)

Section CompileFacts.

Variable syllablesplit : string -> Z.

Lemma mapM_syllablesplit_tokens (s : list string) :
  mapM (call_syllablesplit syllablesplit) (map PStr s)
  = Ret (map syllablesplit s).
Proof.
  induction s as [|w s IH]; simpl; [reflexivity|].
  rewrite IH. reflexivity.
Qed.

(** One turn of the loop on a sentence of token strings. *)
Lemma count_sentence_canonical (acc : Statistics) (s : list string) :
  count_sentence syllablesplit acc (sentence_val s)
  = Ret {| totalWords := totalWords acc + Z.of_nat (List.length s);
           totalLongWords :=
             totalLongWords acc
             + Z.of_nat (List.length (filter (fun w => 6 <? char_length w) s));
           totalSentences := totalSentences acc;
           totalCharacters := totalCharacters acc + zsum (map char_length s);
           totalSyllables := totalSyllables acc + zsum (map syllablesplit s);
           nbPolysyllables :=
             nbPolysyllables acc
             + Z.of_nat (List.length
                           (filter (fun w => 3 <=? syllablesplit w) s)) |}.
Proof.
  unfold count_sentence, sentence_val. cbn [len iter bind].
  rewrite mapM_len_tokens. cbn [bind].
  rewrite mapM_syllablesplit_tokens. cbn [bind].
  rewrite !sum_zsum, zsum_ones.
  rewrite !filter_map_comm, !length_map.
  reflexivity.
Qed.

(** The whole loop, from any starting counters. *)
Lemma count_sentences_canonical (t : Text) (acc : Statistics) :
  for_each (count_sentence syllablesplit) (map sentence_val t) acc
  = Ret {| totalWords := totalWords acc + totalWords (aggregate syllablesplit t);
           totalLongWords :=
             totalLongWords acc + totalLongWords (aggregate syllablesplit t);
           totalSentences := totalSentences acc;
           totalCharacters :=
             totalCharacters acc + totalCharacters (aggregate syllablesplit t);
           totalSyllables :=
             totalSyllables acc + totalSyllables (aggregate syllablesplit t);
           nbPolysyllables :=
             nbPolysyllables acc + nbPolysyllables (aggregate syllablesplit t) |}.
Proof.
  revert acc. induction t as [|s t IH]; intros acc.
  - destruct acc; simpl. f_equal. f_equal; lia.
  - cbn [map for_each]. rewrite count_sentence_canonical. cbn [bind].
    rewrite IH. cbn [aggregate totalWords totalLongWords totalSentences
                      totalCharacters totalSyllables nbPolysyllables
                      concat map].
    rewrite zsum_cons, !filter_app, !map_app, !length_app, !zsum_app.
    f_equal. f_equal; lia.
Qed.

Lemma text_statistics_canonical (t : Text) :
  text_statistics syllablesplit (text_val t) = Ret (aggregate syllablesplit t).
Proof.
  unfold text_statistics, text_val. cbn [len iter bind].
  rewrite count_sentences_canonical. rewrite length_map.
  cbn [totalWords totalLongWords totalSentences totalCharacters
       totalSyllables nbPolysyllables].
  destruct (aggregate syllablesplit t) eqn:E.
  cbn [totalWords totalLongWords totalSentences totalCharacters
       totalSyllables nbPolysyllables].
  assert (Hs : totalSentences0 = Z.of_nat (List.length t)).
  { change totalSentences0 with
      (totalSentences {| totalWords := totalWords0;
                         totalLongWords := totalLongWords0;
                         totalSentences := totalSentences0;
                         totalCharacters := totalCharacters0;
                         totalSyllables := totalSyllables0;
                         nbPolysyllables := nbPolysyllables0 |}).
    rewrite <- E. reflexivity. }
  rewrite Hs. reflexivity.
Qed.

End CompileFacts.

Lemma dict_set_lookup_id {A : Type} (d : list (string * A)) k v :
  lookup d k = Some v -> dict_set d k v = d.
Proof.
  induction d as [|[k' w] d IH]; simpl; [discriminate|].
  destruct (String.eqb k k') eqn:E; intros H.
  - inversion H; subst. reflexivity.
  - rewrite IH; [reflexivity | exact H].
Qed.

Lemma lookup_map_values {A B : Type} (g : A -> B) (d : list (string * A)) k :
  lookup (map (fun kv => (fst kv, g (snd kv))) d) k = option_map g (lookup d k).
Proof.
  induction d as [|[k' w] d IH]; simpl; [reflexivity|].
  destruct (String.eqb k k'); [reflexivity | exact IH].
Qed.

Lemma mapM_map {A B C : Type} (h : A -> B) (f : B -> Res C) (g : A -> C)
  (xs : list A) :
  (forall x, In x xs -> f (h x) = Ret (g x)) ->
  mapM f (map h xs) = Ret (map g xs).
Proof.
  induction xs as [|x xs IH]; intros H; cbn [mapM map]; [reflexivity|].
  rewrite (H x) by (left; reflexivity). cbn [bind].
  rewrite IH by (intros y Hy; apply H; right; exact Hy). reflexivity.
Qed.

(** A loop that appends one computed value per element to the list stored
    under [k]. *)
Lemma for_each_append {A B : Type} (f : A -> Res B) (k : string)
  (xs : list A) :
  forall (ys : list B) (d : list (string * list B)) (acc : list B),
    mapM f xs = Ret ys ->
    lookup d k = Some acc ->
    for_each (fun d x => y <- f x ;; dict_append d k y) xs d
    = Ret (dict_set d k (acc ++ ys)).
Proof.
  induction xs as [|x xs IH]; intros ys d acc Hys Hacc.
  - inversion Hys; subst. cbn [for_each]. rewrite app_nil_r.
    rewrite dict_set_lookup_id by exact Hacc. reflexivity.
  - cbn [mapM] in Hys.
    apply bind_inv in Hys. destruct Hys as (y & Hy & Hys).
    apply bind_inv in Hys. destruct Hys as (ys' & Hys' & Hys).
    inversion Hys; subst. cbn [for_each]. rewrite Hy. cbn [bind].
    unfold dict_append at 1. rewrite Hacc. cbn [bind].
    rewrite (IH ys' _ (acc ++ [y]) Hys' (lookup_dict_set_same d k _)).
    rewrite dict_set_twice, <- app_assoc. reflexivity.
Qed.

(** A loop over the keys of [c], in order, whose body stores under each key
    a value computed from what [c] holds there. *)
Lemma for_each_class {V W : Type}
  (body : list (string * W) -> string -> Res (list (string * W)))
  (g : V -> W) (c : list (string * V)) :
  NoDup (map fst c) ->
  (forall d k v, In (k, v) c -> body d k = Ret (dict_set d k (g v))) ->
  for_each body (map fst c) [] = Ret (map (fun kv => (fst kv, g (snd kv))) c).
Proof.
  intros Hnd Hbody.
  assert (Hgen : forall done todo : list (string * V),
             c = done ++ todo ->
             for_each body (map fst todo)
                      (map (fun kv => (fst kv, g (snd kv))) done)
             = Ret (map (fun kv => (fst kv, g (snd kv))) c)).
  { intros done todo. revert done.
    induction todo as [|[k v] todo IH]; intros done Hc.
    - rewrite app_nil_r in Hc. subst done. reflexivity.
    - cbn [map fst for_each].
      rewrite (Hbody _ k v)
        by (rewrite Hc; apply in_or_app; right; left; reflexivity).
      cbn [bind].
      rewrite dict_set_fresh.
      + specialize (IH (done ++ [(k, v)])).
        rewrite map_app in IH. cbn [map fst snd] in IH. apply IH.
        rewrite <- app_assoc. exact Hc.
      + rewrite map_map. cbn [fst].
        rewrite Hc, map_app in Hnd. cbn [map fst] in Hnd.
        apply NoDup_remove_2 in Hnd.
        intros Hk. apply Hnd. apply in_or_app. left. exact Hk. }
  exact (Hgen [] c eq_refl).
Qed.

Section CompileCorpusFacts.

Variable syllablesplit : string -> Z.

Lemma compile_level_canonical (self : Readability)
  (c : list (string * list Text)) (level : string)
  (texts : list Text) (stats : list (string * list Statistics)) :
  content self = Some (corpus_val c) ->
  lookup c level = Some texts ->
  compile_level syllablesplit self stats level
  = Ret (dict_set stats level (map (aggregate syllablesplit) texts)).
Proof.
  intros Hc Hl. unfold compile_level. rewrite Hc. cbn [getattr bind].
  unfold corpus_val, getitem.
  rewrite (lookup_map_values (fun ts => PList (map text_val ts))), Hl.
  cbn [option_map bind iter].
  rewrite (for_each_append (text_statistics syllablesplit) level
             (map text_val texts) (map (aggregate syllablesplit) texts)
             _ []).
  - rewrite dict_set_twice. reflexivity.
  - apply mapM_map. intros t _. apply text_statistics_canonical.
  - apply lookup_dict_set_same.
Qed.

(** The outer loop of the corpus branch of [compile]. *)
Lemma compile_levels_canonical (self : Readability)
  (c : list (string * list Text)) :
  content self = Some (corpus_val c) ->
  NoDup (map fst c) ->
  for_each (compile_level syllablesplit self) (map fst c) []
  = Ret (aggregate_corpus syllablesplit c).
Proof.
  intros Hc Hnd. unfold aggregate_corpus.
  apply (for_each_class (compile_level syllablesplit self)
           (map (aggregate syllablesplit)) c Hnd).
  intros d k texts Hin.
  apply (compile_level_canonical self c k texts d Hc).
  apply lookup_In; assumption.
Qed.

End CompileCorpusFacts.

(* ================================================================== *)
(** * The statistics snapshot (claims C1 and C5) *)
(* ================================================================== *)

Lemma zsum_lengths_nonneg {A : Type} (t : list (list A)) :
  0 <= zsum (map (fun s => Z.of_nat (List.length s)) t).
Proof.
  induction t as [|s t IH]; cbn [map]; [simpl; lia|].
  rewrite zsum_cons. lia.
Qed.

Lemma compile_text_canonical (syllablesplit : string -> Z)
  (self : Readability) (t : Text) :
  content_type self = Some "text" ->
  content self = Some (text_val t) ->
  compile syllablesplit self
  = Ret (set_statistics self (aggregate syllablesplit t), RSelf).
Proof.
  intros Hct Hc. unfold compile. rewrite Hct, Hc. cbn [getattr bind].
  change (String.eqb "text" "text") with true. cbv iota.
  rewrite text_statistics_canonical. reflexivity.
Qed.

Lemma compile_corpus_canonical (syllablesplit : string -> Z)
  (self : Readability) (c : list (string * list Text)) :
  content_type self = Some "corpus" ->
  content self = Some (corpus_val c) ->
  classes self = Some (map fst c) ->
  NoDup (map fst c) ->
  compile syllablesplit self
  = Ret (set_corpus_statistics self (aggregate_corpus syllablesplit c), RSelf).
Proof.
  intros Hct Hc Hk Hnd. unfold compile. rewrite Hct, Hk.
  cbn [getattr bind].
  change (String.eqb "corpus" "text") with false.
  change (String.eqb "corpus" "corpus") with true. cbv iota.
  rewrite (compile_levels_canonical syllablesplit self c Hc Hnd).
  reflexivity.
Qed.

(** C1.  For a session holding a canonical text [t], compile() stores a
    snapshot whose totalWords is the sum of the per-sentence token counts,
    totalLongWords the number of tokens of more than 6 characters,
    totalSentences the number of sentences, totalCharacters the sum of the
    token lengths, totalSyllables the sum of the syllable counter's
    estimates and nbPolysyllables the number of tokens whose estimate is at
    least 3; totalWords is never negative.  For a session holding a
    canonical corpus [c], compile() stores, for every class in the order of
    the classes, the list of these snapshots of the class's texts in the
    order of the texts. *)
Theorem C1_compile_statistics :
  forall (syllablesplit : string -> Z)
         (self : Readability) (t : Text)
         (corpus : Readability) (c : list (string * list Text)),
    content_type self = Some "text" ->
    content self = Some (text_val t) ->
    content_type corpus = Some "corpus" ->
    content corpus = Some (corpus_val c) ->
    classes corpus = Some (map fst c) ->
    NoDup (map fst c) ->
    (exists st : Statistics,
        compile syllablesplit self = Ret (set_statistics self st, RSelf)
        /\ totalWords st = zsum (map (fun s => Z.of_nat (List.length s)) t)
        /\ totalLongWords st
           = Z.of_nat (List.length
                         (filter (fun w => 6 <? char_length w) (concat t)))
        /\ totalSentences st = Z.of_nat (List.length t)
        /\ totalCharacters st = zsum (map char_length (concat t))
        /\ totalSyllables st = zsum (map syllablesplit (concat t))
        /\ nbPolysyllables st
           = Z.of_nat (List.length
                         (filter (fun w => 3 <=? syllablesplit w) (concat t)))
        /\ 0 <= totalWords st)
    /\ compile syllablesplit corpus
       = Ret (set_corpus_statistics corpus
                (map (fun kv => (fst kv, map (aggregate syllablesplit) (snd kv)))
                     c),
              RSelf).
Proof.
  intros syl self t corpus c Hct Hc Hct' Hc' Hk Hnd. split.
  - exists (aggregate syl t). split.
    + apply compile_text_canonical; assumption.
    + cbn [aggregate totalWords totalLongWords totalSentences totalCharacters
           totalSyllables nbPolysyllables].
      repeat split. apply zsum_lengths_nonneg.
  - apply compile_corpus_canonical; assumption.
Qed.

Lemma example_corpus_keys_distinct : NoDup (map fst example_corpus).
Proof.
  cbn [example_corpus map fst].
  constructor.
  - cbn [In]. intros [H | []]. discriminate H.
  - constructor; [cbn [In]; intros [] | constructor].
Defined.

Lemma C1_compile_statistics_witness :
  (exists st : Statistics,
      compile count_vowels (text_session None example_text)
      = Ret (set_statistics (text_session None example_text) st, RSelf)
      /\ totalWords st
         = zsum (map (fun s => Z.of_nat (List.length s)) example_text)
      /\ totalLongWords st
         = Z.of_nat (List.length
                       (filter (fun w => 6 <? char_length w)
                               (concat example_text)))
      /\ totalSentences st = Z.of_nat (List.length example_text)
      /\ totalCharacters st = zsum (map char_length (concat example_text))
      /\ totalSyllables st = zsum (map count_vowels (concat example_text))
      /\ nbPolysyllables st
         = Z.of_nat (List.length
                       (filter (fun w => 3 <=? count_vowels w)
                               (concat example_text)))
      /\ 0 <= totalWords st)
  /\ compile count_vowels (corpus_session None example_corpus)
     = Ret (set_corpus_statistics (corpus_session None example_corpus)
              (map (fun kv => (fst kv, map (aggregate count_vowels) (snd kv)))
                   example_corpus),
            RSelf).
Proof.
  apply (C1_compile_statistics count_vowels
           (text_session None example_text) example_text
           (corpus_session None example_corpus) example_corpus).
  - reflexivity.
  - reflexivity.
  - reflexivity.
  - reflexivity.
  - reflexivity.
  - exact example_corpus_keys_distinct.
Defined.

(** The four counters of the worked example, whatever the syllable
    counter. *)
Lemma example_text_counters (syllablesplit : string -> Z) :
  totalWords (aggregate syllablesplit example_text) = 6
  /\ totalSentences (aggregate syllablesplit example_text) = 2
  /\ totalCharacters (aggregate syllablesplit example_text) = 23
  /\ totalLongWords (aggregate syllablesplit example_text) = 1.
Proof. repeat split. Qed.

(** C5, as amended.  For the text [["Le","chat","mange"],
    ["Il","est","content"]] the constructor stores the text unchanged, and
    the snapshot compile() produces has totalWords = 6, totalSentences = 2,
    totalCharacters = 23 and totalLongWords = 1: "content" has seven
    characters. *)
Theorem C5_example_snapshot :
  forall (engine : Nlp) (syllablesplit : string -> Z)
         (lang nlp_name perplexity_processor : string),
  exists (self : Readability) (st : Statistics),
    __init__ engine (text_val example_text) lang nlp_name perplexity_processor
    = Ret (self, [])
    /\ content self = Some (text_val example_text)
    /\ compile syllablesplit self = Ret (set_statistics self st, RSelf)
    /\ totalWords st = 6
    /\ totalSentences st = 2
    /\ totalCharacters st = 23
    /\ totalLongWords st = 1.
Proof.
  intros engine syl lang nlp_name pp.
  eexists. exists (aggregate syl example_text).
  split; [reflexivity|]. split; [reflexivity|].
  split; [apply compile_text_canonical; reflexivity|].
  apply example_text_counters.
Qed.

(** C5 as the specification states it fails: no session holding the
    example text, and no syllable counter, gives a snapshot with
    totalCharacters = 24 and totalLongWords = 0. *)
Lemma C5_example_snapshot_counterexample :
  ~ (exists (syllablesplit : string -> Z) (self : Readability)
            (st : Statistics),
        content_type self = Some "text"
        /\ content self = Some (text_val example_text)
        /\ compile syllablesplit self = Ret (set_statistics self st, RSelf)
        /\ totalWords st = 6
        /\ totalSentences st = 2
        /\ totalCharacters st = 24
        /\ totalLongWords st = 0).
Proof.
  intros (syl & self & st & Hct & Hc & Hcompile & _ & _ & Hchars & _).
  rewrite (compile_text_canonical syl self example_text Hct Hc) in Hcompile.
  assert (Hst : statistics (set_statistics self (aggregate syl example_text))
                = statistics (set_statistics self st)).
  { congruence. }
  cbn [statistics set_statistics] in Hst.
  assert (Heq : aggregate syl example_text = st) by congruence.
  rewrite <- Heq in Hchars.
  destruct (example_text_counters syl) as (_ & _ & H23 & _).
  rewrite H23 in Hchars. discriminate Hchars.
Qed.

(* ================================================================== *)
(** * The constructor (claims C2, C6 and C7) *)
(* ================================================================== *)

(** The mapping branch of the constructor has no [else]: a mapping whose
    first value is not a list, or whose first text or first sentence is not
    a list, leaves every content attribute unassigned. *)
Lemma init_mapping_fallthrough (engine : Nlp) (k : string) (v : Val)
  (rest : list (string * Val)) (lang nlp_name perplexity_processor : string) :
  isinstance_list v = false
  \/ (exists x xs, v = PList (x :: xs) /\ isinstance_list x = false)
  \/ (exists y ys xs,
         v = PList (PList (y :: ys) :: xs) /\ isinstance_list y = false) ->
  exists self : Readability,
    __init__ engine (PDict ((k, v) :: rest)) lang nlp_name perplexity_processor
    = Ret (self, [])
    /\ content self = None
    /\ content_type self = None
    /\ classes self = None.
Proof.
  intros H. unfold __init__.
  cbn [iter bind map fst isinstance_list type_is_dict dict_keys first_key
       getitem lookup].
  assert (Hnokeys :
            existsb isinstance_list
              (PStr k :: map (fun kv : string * Val => PStr (fst kv)) rest)
            = false).
  { cbn [existsb isinstance_list orb].
    induction rest as [|kv rest IH]; [reflexivity | exact IH]. }
  rewrite Hnokeys, String.eqb_refl. cbn [bind].
  destruct H as [Hv | [(x & xs & -> & Hx) | (y & ys & xs & -> & Hy)]].
  - rewrite Hv. eexists. repeat split.
  - cbn [isinstance_list index0 bind]. rewrite Hx. eexists. repeat split.
  - cbn [isinstance_list index0 bind]. rewrite Hy. eexists. repeat split.
Qed.

(** C2 fails on the code.  A mapping whose first value is a string, and a
    mapping nested one level short of class, text, sentence, token, match
    none of the accepted shapes; yet the constructor returns normally, prints
    no warning, and leaves content, content_type and classes unset. *)
Theorem C2_unrecognized_mapping_left_unset :
  forall (engine : Nlp) (lang nlp_name perplexity_processor : string),
    (exists self : Readability,
        __init__ engine (PDict [("A", PStr "hello")])
                 lang nlp_name perplexity_processor = Ret (self, [])
        /\ content self = None
        /\ content_type self = None
        /\ classes self = None)
    /\ (exists self : Readability,
           __init__ engine (PDict [("A", PList [PList [PStr "a"; PStr "b"]])])
                    lang nlp_name perplexity_processor = Ret (self, [])
           /\ content self = None
           /\ content_type self = None
           /\ classes self = None).
Proof.
  intros engine lang nlp_name pp. split; eexists; repeat split.
Qed.

Lemma mapM_as_str_tokens (toks : list string) :
  mapM as_str (map PStr toks) = Ret toks.
Proof.
  induction toks as [|w toks IH]; simpl; [reflexivity|].
  rewrite IH. reflexivity.
Qed.

Lemma no_list_among_tokens (toks : list string) :
  existsb isinstance_list (map PStr toks) = false.
Proof.
  induction toks as [|w toks IH]; simpl; [reflexivity | exact IH].
Qed.

Lemma join_tokens (sep : string) (toks : list string) :
  join sep (PList (map PStr toks)) = Ret (join_strings sep toks).
Proof.
  unfold join. cbn [iter bind]. rewrite mapM_as_str_tokens. reflexivity.
Qed.

(** What the string path accumulates in [nb_words]. *)
Lemma string_path_nb_words (t : Text) (a : Z) :
  fold_left (fun n sentence => n + Z.of_nat (List.length sentence)) t a
  = a + word_count t.
Proof.
  unfold word_count. revert a.
  induction t as [|s t IH]; intros a; cbn [fold_left map].
  - simpl. lia.
  - rewrite IH, zsum_cons. lia.
Qed.

Lemma add_per_token {A : Type} (k : Z) (sentence : list A) (n : Z) :
  fold_left (fun m _ => m + k) sentence n
  = n + Z.of_nat (List.length sentence) * k.
Proof.
  revert n. induction sentence as [|x sentence IH]; intros n.
  - simpl. lia.
  - cbn [fold_left]. rewrite IH. cbn [List.length]. lia.
Qed.

(** What the token-list path accumulates in [nb_words]: every token adds
    the length of its sentence. *)
Lemma token_path_nb_words (t : Text) (a : Z) :
  fold_left
    (fun n sentence =>
       fold_left (fun m _ => m + Z.of_nat (List.length sentence)) sentence n)
    t a
  = a + zsum (map (fun s => Z.of_nat (List.length s) * Z.of_nat (List.length s)) t).
Proof.
  revert a. induction t as [|s t IH]; intros a; cbn [fold_left map].
  - simpl. lia.
  - rewrite IH, add_per_token, zsum_cons. lia.
Qed.

(** C6 fails on the code, in both paths.  A string that the engine
    tokenises into exactly 100 words still gets the warning (the test is
    [nb_words < 101]); and a flat token list that the engine re-tokenises
    into one sentence of 11 words gets none, because the token path adds the
    sentence length once per token (121 here). *)
Theorem C6_warning_threshold :
  forall (engine : Nlp) (perplexity_processor doc : string)
         (toks sentence : list string),
    word_count (sents engine doc) = 100 ->
    sents engine (join_strings " " toks) = [sentence] ->
    List.length sentence = 11%nat ->
    (exists self : Readability,
        __init__ engine (PStr doc) "fr" "spacy_sm" perplexity_processor
        = Ret (self, [warning_string_path])
        /\ content self = Some (text_val (sents engine doc)))
    /\ (exists self : Readability,
           __init__ engine (PList (map PStr toks)) "fr" "spacy_sm"
                    perplexity_processor
           = Ret (self, [])
           /\ content self = Some (text_val [sentence])
           /\ word_count [sentence] = 11).
Proof.
  intros engine pp doc toks sentence H100 Hsents Hlen. split.
  - eexists. unfold __init__. cbn [nlp nlp_sents bind andb String.eqb Ascii.eqb Bool.eqb].
    rewrite string_path_nb_words, H100. cbn. split; reflexivity.
  - eexists. unfold __init__.
    destruct (map PStr toks) eqn:Etoks.
    + cbn [iter bind existsb isinstance_list].
      rewrite <- Etoks, join_tokens. cbn [bind].
      cbn [nlp nlp_sents bind andb String.eqb Ascii.eqb Bool.eqb].
      rewrite Hsents, token_path_nb_words.
      unfold word_count. cbn [map]. rewrite !zsum_cons, Hlen. cbn.
      repeat split.
    + rewrite <- Etoks. cbn [iter bind]. rewrite no_list_among_tokens.
      cbn [isinstance_list]. rewrite join_tokens. cbn [bind].
      cbn [nlp nlp_sents bind andb String.eqb Ascii.eqb Bool.eqb].
      rewrite Hsents, token_path_nb_words.
      unfold word_count. cbn [map]. rewrite !zsum_cons, Hlen. cbn.
      repeat split.
Qed.

Lemma C6_warning_threshold_witness :
  (exists self : Readability,
      __init__ whitespace_nlp (PStr (repeated_words "mot" 100))
               "fr" "spacy_sm" "gpt2"
      = Ret (self, [warning_string_path])
      /\ content self
         = Some (text_val (sents whitespace_nlp (repeated_words "mot" 100))))
  /\ (exists self : Readability,
         __init__ whitespace_nlp (PList (map PStr (repeat "mot" 11)))
                  "fr" "spacy_sm" "gpt2"
         = Ret (self, [])
         /\ content self = Some (text_val [repeat "mot" 11])
         /\ word_count [repeat "mot" 11] = 11).
Proof.
  apply (C6_warning_threshold whitespace_nlp "gpt2"
           (repeated_words "mot" 100) (repeat "mot" 11) (repeat "mot" 11)).
  - vm_compute. reflexivity.
  - vm_compute. reflexivity.
  - reflexivity.
Defined.






(* ================================================================== *)
(** * Scoring (claims C3 and C4) *)
(* ================================================================== *)

Section CorpusScoring.

Variable common_scores : Formula -> Val -> option Statistics -> Res R.

(** [gfi] is [score] at the name "gfi". *)
Lemma gfi_as_score (self : Readability) :
  gfi common_scores self = score common_scores self "gfi".
Proof. reflexivity. Qed.

(** The corpus branch of [score] and [gfi] on an uncompiled canonical
    corpus: one list of scores per class, in the order of the texts. *)
Lemma score_corpus_uncompiled (self : Readability)
  (c : list (string * list Text)) (f : Formula) (sc : Text -> R) :
  content self = Some (corpus_val c) ->
  classes self = Some (map fst c) ->
  NoDup (map fst c) ->
  corpus_statistics self = None ->
  (forall k texts t,
      In (k, texts) c -> In t texts ->
      common_scores f (text_val t) None = Ret (sc t)) ->
  score_corpus common_scores self (Some f)
  = Ret (PerClass (map (fun kv => (fst kv, map sc (snd kv))) c)).
Proof.
  intros Hc Hk Hnd Hcs Hsc. unfold score_corpus. rewrite Hk.
  cbn [getattr bind].
  rewrite (for_each_class (score_level common_scores self (Some f))
             (map sc) c Hnd); [reflexivity|].
  intros d k texts Hin. unfold score_level. rewrite Hcs, Hc.
  cbn [getattr bind bound]. unfold corpus_val, getitem.
  rewrite (lookup_map_values (fun ts => PList (map text_val ts))).
  rewrite (lookup_In c k texts Hnd Hin). cbn [option_map bind iter].
  rewrite (for_each_append (fun text => common_scores f text None) k
             (map text_val texts) (map sc texts) _ []).
  - rewrite dict_set_twice. reflexivity.
  - apply mapM_map. intros t Ht. apply (Hsc k texts t Hin Ht).
  - apply lookup_dict_set_same.
Qed.

(** The same branch once the corpus is compiled: the scores are computed
    from the stored snapshots, class by class. *)
Lemma score_corpus_compiled (self : Readability)
  (stats : list (string * list Statistics)) (f : Formula)
  (sc : Statistics -> R) :
  classes self = Some (map fst stats) ->
  NoDup (map fst stats) ->
  corpus_statistics self = Some stats ->
  (forall k sts st,
      In (k, sts) stats -> In st sts ->
      common_scores f PNone (Some st) = Ret (sc st)) ->
  score_corpus common_scores self (Some f)
  = Ret (PerClass (map (fun kv => (fst kv, map sc (snd kv))) stats)).
Proof.
  intros Hk Hnd Hcs Hsc. unfold score_corpus. rewrite Hk.
  cbn [getattr bind].
  rewrite (for_each_class (score_level common_scores self (Some f))
             (map sc) stats Hnd); [reflexivity|].
  intros d k sts Hin. unfold score_level. rewrite Hcs.
  unfold lookup_key. rewrite (lookup_In stats k sts Hnd Hin).
  cbn [bind bound].
  rewrite (for_each_append (fun st => common_scores f PNone (Some st)) k
             sts (map sc sts) _ []).
  - rewrite dict_set_twice. reflexivity.
  - rewrite <- (map_id sts) at 1. apply mapM_map.
    intros st Hst. apply (Hsc k sts st Hin Hst).
  - apply lookup_dict_set_same.
Qed.

End CorpusScoring.

(** C3 fails on the code for five of the six dedicated accessors.  On every
    session whose content is a corpus, ari(), fre(), fkgl(), smog() and
    rel() return the integer -1, whatever the score functions compute:
    neither a mapping from class to scores, as score(name) and gfi() build
    in their corpus branch, nor a score. *)
Theorem C3_dedicated_accessors_on_corpus :
  forall (common_scores : Formula -> Val -> option Statistics -> Res R)
         (self : Readability),
    content_type self = Some "corpus" ->
    ari common_scores self = Ret (IntValue (-1))
    /\ fre common_scores self = Ret (IntValue (-1))
    /\ fkgl common_scores self = Ret (IntValue (-1))
    /\ smog common_scores self = Ret (IntValue (-1))
    /\ rel common_scores self = Ret (IntValue (-1)).
Proof.
  intros cs self Hct.
  unfold ari, fre, fkgl, smog, rel, text_only_accessor.
  rewrite Hct. repeat split.
Qed.

Lemma C3_dedicated_accessors_on_corpus_witness :
  ari (fun _ _ _ => Ret 0%R) (corpus_session None example_corpus)
  = Ret (IntValue (-1))
  /\ fre (fun _ _ _ => Ret 0%R) (corpus_session None example_corpus)
     = Ret (IntValue (-1))
  /\ fkgl (fun _ _ _ => Ret 0%R) (corpus_session None example_corpus)
     = Ret (IntValue (-1))
  /\ smog (fun _ _ _ => Ret 0%R) (corpus_session None example_corpus)
     = Ret (IntValue (-1))
  /\ rel (fun _ _ _ => Ret 0%R) (corpus_session None example_corpus)
     = Ret (IntValue (-1)).
Proof.
  apply (C3_dedicated_accessors_on_corpus
           (fun _ _ _ => Ret 0%R) (corpus_session None example_corpus)).
  reflexivity.
Defined.




Section ScoringFacts.

Variable syllablesplit : string -> Z.
Variables rel_base rel_sentence rel_syllable : R.

Let common_scores : Formula -> Val -> option Statistics -> Res R :=
  spec_common_scores syllablesplit rel_base rel_sentence rel_syllable.


End ScoringFacts.



(* ================================================================== *)
(** * The frame of compile (claim C10) *)
(* ================================================================== *)

Ltac invert_run H :=
  repeat match type of H with
    | bind ?m _ = Ret _ =>
        let E := fresh "E" in
        destruct m eqn:E; cbn [bind] in H; [|discriminate H]
    | (if ?b then _ else _) = Ret _ =>
        let E := fresh "E" in destruct b eqn:E
    | Raise _ = Ret _ => discriminate H
    end.

(** What the constructor leaves behind: no content type at all, or a text,
    or a corpus whose classes are the keys of the content. *)
Lemma init_content_type (engine : Nlp) (input : Val)
  (lang nlp_name perplexity_processor : string)
  (self : Readability) (out : list string) :
  __init__ engine input lang nlp_name perplexity_processor = Ret (self, out) ->
  content_type self = None
  \/ content_type self = Some "text"
  \/ (content_type self = Some "corpus"
      /\ exists c, content self = Some c /\ classes self = Some (dict_keys c)).
Proof.
  unfold __init__. intros H.
  destruct input; cbn [iter isinstance_list type_is_dict] in H;
    invert_run H; inversion H; subst; cbn [content_type set_text set_corpus content classes];
    auto.
  right. right. split; [reflexivity|]. eexists. split; reflexivity.
Qed.

Section CompileFrame.

Variable syllablesplit : string -> Z.




End CompileFrame.




(* ================================================================== *)
(** * The diversity ratios (claims C8 and C9) *)
(* ================================================================== *)

Lemma count_distinct_le (xs : list string) :
  (count_distinct xs <= List.length xs)%nat.
Proof.
  unfold count_distinct. apply NoDup_incl_length.
  - apply NoDup_nodup.
  - intros x Hx. apply nodup_In in Hx. exact Hx.
Qed.

Lemma count_distinct_pos (xs : list string) :
  xs <> [] -> (1 <= count_distinct xs)%nat.
Proof.
  unfold count_distinct. destruct xs as [|x xs]; [congruence|]. intros _.
  assert (Hin : In x (nodup string_dec (x :: xs))).
  { apply nodup_In. left. reflexivity. }
  destruct (nodup string_dec (x :: xs)); [contradiction | simpl; lia].
Qed.

Lemma sqrt_le_self (x : R) : (1 <= x)%R -> (sqrt x <= x)%R.
Proof.
  intros Hx.
  assert (H1 : (1 <= sqrt x)%R).
  { rewrite <- sqrt_1. apply sqrt_le_1_alt. exact Hx. }
  assert (Hsq : (sqrt x * sqrt x = x)%R) by (apply sqrt_sqrt; lra).
  nra.
Qed.

Lemma sqrt_pos_of_ge_1 (x : R) : (1 <= x)%R -> (0 < sqrt x)%R.
Proof. intros Hx. apply sqrt_lt_R0. lra. Qed.


Section RatioFacts.

Variable convert_text_to_string : Val -> Res string.

(** Both copies of [type_token_ratio] on a text with at least one token. *)
Lemma type_token_ratio_nonempty (text : Val) (doc : string)
  (nlp : option Nlp) (mode : option string) :
  convert_text_to_string text = Ret doc ->
  split (strip_punctuation doc) <> [] ->
  StatsDiversity.type_token_ratio convert_text_to_string text nlp mode
  = Ret (ratio_for_mode mode
           (Z.of_nat (count_distinct (split (strip_punctuation doc))))
           (Z.of_nat (List.length (split (strip_punctuation doc)))), [])
  /\ ReadabilityStatsDiversity.type_token_ratio convert_text_to_string
       text nlp mode
     = Ret (ratio_for_mode mode
              (Z.of_nat (count_distinct (split (strip_punctuation doc))))
              (Z.of_nat (List.length (split (strip_punctuation doc)))), []).
Proof.
  intros Hdoc Hne.
  unfold StatsDiversity.type_token_ratio,
    ReadabilityStatsDiversity.type_token_ratio.
  rewrite Hdoc. cbn [bind].
  destruct (split (strip_punctuation doc)) as [|w ws] eqn:E; [congruence|].
  cbn [List.length]. split; reflexivity.
Qed.


End RatioFacts.

(** C8.  For every text whose punctuation-stripped whitespace split yields
    n >= 1 tokens with u distinct tokens, both copies of type_token_ratio
    return u/n in default mode, u/sqrt(n) in "root" mode and u/sqrt(2*n) in
    "corrected" mode, with no warning; the default-mode value lies in
    (0, 1]; and for n > 1 the "root"-mode value is at least the default-mode
    value. *)
Theorem C8_type_token_ratio :
  forall (convert_text_to_string : Val -> Res string) (text : Val)
         (doc : string) (nlp : option Nlp) (n u : Z),
    convert_text_to_string text = Ret doc ->
    n = Z.of_nat (List.length (split (strip_punctuation doc))) ->
    u = Z.of_nat (count_distinct (split (strip_punctuation doc))) ->
    1 <= n ->
    (StatsDiversity.type_token_ratio convert_text_to_string text nlp None
     = Ret ((IZR u / IZR n)%R, [])
     /\ StatsDiversity.type_token_ratio convert_text_to_string text nlp
          (Some "root")
        = Ret ((IZR u / sqrt (IZR n))%R, [])
     /\ StatsDiversity.type_token_ratio convert_text_to_string text nlp
          (Some "corrected")
        = Ret ((IZR u / sqrt (IZR (2 * n)))%R, []))
    /\ (ReadabilityStatsDiversity.type_token_ratio convert_text_to_string
          text nlp None
        = Ret ((IZR u / IZR n)%R, [])
        /\ ReadabilityStatsDiversity.type_token_ratio convert_text_to_string
             text nlp (Some "root")
           = Ret ((IZR u / sqrt (IZR n))%R, [])
        /\ ReadabilityStatsDiversity.type_token_ratio convert_text_to_string
             text nlp (Some "corrected")
           = Ret ((IZR u / sqrt (IZR (2 * n)))%R, []))
    /\ (0 < IZR u / IZR n <= 1)%R
    /\ (1 < n -> (IZR u / IZR n <= IZR u / sqrt (IZR n))%R).
Proof.
  intros convert text doc nlp n u Hdoc Hn Hu Hn1.
  assert (Hne : split (strip_punctuation doc) <> []).
  { intros E. rewrite E in Hn. simpl in Hn. lia. }
  pose proof (count_distinct_le (split (strip_punctuation doc))) as Hle.
  pose proof (count_distinct_pos _ Hne) as Hpos.
  assert (Hu1 : 1 <= u) by lia.
  assert (Hun : u <= n) by lia.
  assert (HuR : (1 <= IZR u)%R) by (apply IZR_le; exact Hu1).
  assert (HnR : (1 <= IZR n)%R) by (apply IZR_le; exact Hn1).
  assert (HunR : (IZR u <= IZR n)%R) by (apply IZR_le; exact Hun).
  split; [|split; [|split]].
  - repeat split;
      rewrite (proj1 (type_token_ratio_nonempty convert text doc nlp _ Hdoc Hne));
      rewrite <- Hn, <- Hu; reflexivity.
  - repeat split;
      rewrite (proj2 (type_token_ratio_nonempty convert text doc nlp _ Hdoc Hne));
      rewrite <- Hn, <- Hu; reflexivity.
  - split.
    + apply Rdiv_lt_0_compat; lra.
    + apply (Rmult_le_reg_r (IZR n)); [lra|].
      unfold Rdiv. rewrite Rmult_assoc, Rinv_l by lra. lra.
  - intros _.
    unfold Rdiv. apply Rmult_le_compat_l; [lra|].
    apply Rinv_le_contravar.
    + apply sqrt_pos_of_ge_1. exact HnR.
    + apply sqrt_le_self. exact HnR.
Qed.

Lemma C8_type_token_ratio_witness :
  (StatsDiversity.type_token_ratio utils_convert_text_to_string
     (text_val example_text) None None
   = Ret ((IZR 6 / IZR 6)%R, [])
   /\ StatsDiversity.type_token_ratio utils_convert_text_to_string
        (text_val example_text) None (Some "root")
      = Ret ((IZR 6 / sqrt (IZR 6))%R, [])
   /\ StatsDiversity.type_token_ratio utils_convert_text_to_string
        (text_val example_text) None (Some "corrected")
      = Ret ((IZR 6 / sqrt (IZR (2 * 6)))%R, []))
  /\ (ReadabilityStatsDiversity.type_token_ratio utils_convert_text_to_string
        (text_val example_text) None None
      = Ret ((IZR 6 / IZR 6)%R, [])
      /\ ReadabilityStatsDiversity.type_token_ratio
           utils_convert_text_to_string (text_val example_text) None
           (Some "root")
         = Ret ((IZR 6 / sqrt (IZR 6))%R, [])
      /\ ReadabilityStatsDiversity.type_token_ratio
           utils_convert_text_to_string (text_val example_text) None
           (Some "corrected")
         = Ret ((IZR 6 / sqrt (IZR (2 * 6)))%R, []))
  /\ (0 < IZR 6 / IZR 6 <= 1)%R
  /\ (1 < 6 -> (IZR 6 / IZR 6 <= IZR 6 / sqrt (IZR 6))%R).
Proof.
  apply (C8_type_token_ratio utils_convert_text_to_string
           (text_val example_text) " Le chat mange Il est content" None 6 6).
  - reflexivity.
  - reflexivity.
  - reflexivity.
  - lia.
Defined.






(* ================================================================== *)
(** * Further properties of the constructor *)
(* ================================================================== *)

Lemma any_list_among_sentences (t : Text) :
  t <> [] -> existsb isinstance_list (map sentence_val t) = true.
Proof. destruct t as [|s t]; [congruence | reflexivity]. Qed.

Lemma no_list_among_keys (d : list (string * Val)) :
  existsb isinstance_list (map (fun kv : string * Val => PStr (fst kv)) d)
  = false.
Proof. induction d as [|kv d IH]; [reflexivity | exact IH]. Qed.

(** X1.  Unless lang is "fr" and nlp_name is "spacy_sm", the session holds
    no engine ([self.nlp = None]): a string and a flat token list then make
    the constructor raise TypeError (calling None), while a list with a list
    among its elements is still accepted, stored unchanged and without a
    warning. *)
Theorem X1_init_without_engine :
  forall (engine : Nlp) (lang nlp_name perplexity_processor doc : string)
         (toks : list string) (l : list Val),
    String.eqb lang "fr" && String.eqb nlp_name "spacy_sm" = false ->
    existsb isinstance_list l = true ->
    __init__ engine (PStr doc) lang nlp_name perplexity_processor
    = Raise TypeError
    /\ __init__ engine (PList (map PStr toks)) lang nlp_name
                perplexity_processor
       = Raise TypeError
    /\ exists self : Readability,
         __init__ engine (PList l) lang nlp_name perplexity_processor
         = Ret (self, [])
         /\ nlp self = None
         /\ content_type self = Some "text"
         /\ content self = Some (PList l).
Proof.
  intros engine lang nlp_name pp doc toks l Hoff Hany. unfold __init__.
  repeat split.
  - cbn [nlp]. rewrite Hoff. reflexivity.
  - cbn [iter bind isinstance_list nlp]. rewrite no_list_among_tokens.
    rewrite join_tokens, Hoff. reflexivity.
  - cbn [iter bind]. rewrite Hany. eexists. split; [reflexivity|].
    cbn [nlp set_text content_type content]. rewrite Hoff. repeat split.
Qed.

Lemma X1_init_without_engine_witness :
  __init__ whitespace_nlp (PStr "Le chat mange") "en" "spacy_sm" "gpt2"
  = Raise TypeError
  /\ __init__ whitespace_nlp (PList (map PStr ["Le"; "chat"])) "en" "spacy_sm"
              "gpt2"
     = Raise TypeError
  /\ exists self : Readability,
       __init__ whitespace_nlp (PList (map sentence_val example_text)) "en"
                "spacy_sm" "gpt2"
       = Ret (self, [])
       /\ nlp self = None
       /\ content_type self = Some "text"
       /\ content self = Some (PList (map sentence_val example_text)).
Proof.
  apply (X1_init_without_engine whitespace_nlp "en" "spacy_sm" "gpt2"
           "Le chat mange" ["Le"; "chat"] (map sentence_val example_text)).
  - reflexivity.
  - reflexivity.
Defined.

(** X2.  A mapping without keys, a mapping whose first class has no text,
    and a mapping whose first text has no sentence make the constructor
    raise IndexError: the corpus detection indexes [0] at each level. *)
Theorem X2_init_empty_mapping_levels :
  forall (engine : Nlp) (lang nlp_name perplexity_processor k : string)
         (texts : list Val) (rest : list (string * Val)),
    __init__ engine (PDict []) lang nlp_name perplexity_processor
    = Raise IndexError
    /\ __init__ engine (PDict ((k, PList []) :: rest)) lang nlp_name
                perplexity_processor
       = Raise IndexError
    /\ __init__ engine (PDict ((k, PList (PList [] :: texts)) :: rest)) lang
                nlp_name perplexity_processor
       = Raise IndexError.
Proof.
  intros engine lang nlp_name pp k texts rest.
  assert (Hnokeys :
            existsb isinstance_list
              (PStr k :: map (fun kv : string * Val => PStr (fst kv)) rest)
            = false).
  { cbn [existsb isinstance_list orb].
    induction rest as [|kv rest IH]; [reflexivity | exact IH]. }
  repeat split; unfold __init__;
    cbn [iter bind map fst isinstance_list type_is_dict dict_keys first_key
         getitem lookup];
    try rewrite Hnokeys; try rewrite String.eqb_refl; reflexivity.
Qed.

(** X3.  The corpus detection looks at the first class only: whenever the
    first sentence of the first text of the first class is a list, the
    mapping is accepted as a corpus whatever the other texts and classes
    hold; the content is the mapping itself, the classes are its keys in
    order, no warning is printed and no statistics are stored. *)
Theorem X3_init_corpus_detection :
  forall (engine : Nlp) (lang nlp_name perplexity_processor k : string)
         (tokens : list Val) (sentences texts : list Val)
         (rest : list (string * Val)),
  exists self : Readability,
    __init__ engine
      (PDict ((k, PList (PList (PList tokens :: sentences) :: texts)) :: rest))
      lang nlp_name perplexity_processor
    = Ret (self, [])
    /\ content_type self = Some "corpus"
    /\ content self
       = Some (PDict ((k, PList (PList (PList tokens :: sentences) :: texts))
                        :: rest))
    /\ classes self = Some (k :: map fst rest)
    /\ statistics self = None
    /\ corpus_statistics self = None.
Proof.
  intros engine lang nlp_name pp k tokens sentences texts rest.
  assert (Hnokeys :
            existsb isinstance_list
              (PStr k :: map (fun kv : string * Val => PStr (fst kv)) rest)
            = false).
  { cbn [existsb isinstance_list orb].
    induction rest as [|kv rest IH]; [reflexivity | exact IH]. }
  unfold __init__.
  cbn [iter bind map fst isinstance_list type_is_dict dict_keys first_key
       getitem lookup].
  rewrite Hnokeys, String.eqb_refl. cbn [bind isinstance_list index0].
  eexists. repeat split.
Qed.

Lemma ltb_101_leb_100 (n : Z) : (n <? 101) = (n <=? 100).
Proof.
  destruct (n <? 101) eqn:E1, (n <=? 100) eqn:E2; try reflexivity;
    rewrite ?Z.ltb_lt, ?Z.ltb_ge, ?Z.leb_le, ?Z.leb_gt in *; lia.
Qed.

(** X4.  With the engine loaded, the string path prints its warning exactly
    when the normalised text has at most 100 words, and the token-list path
    prints its warning exactly when the squared sentence lengths of the
    normalised text sum to at most 100; in both, the content is the engine's
    tokenisation, tagged as a text. *)
Theorem X4_init_warning_conditions :
  forall (engine : Nlp) (perplexity_processor doc : string)
         (toks : list string),
    (exists self : Readability,
        __init__ engine (PStr doc) "fr" "spacy_sm" perplexity_processor
        = Ret (self,
               if word_count (sents engine doc) <=? 100
               then [warning_string_path] else [])
        /\ content_type self = Some "text"
        /\ content self = Some (text_val (sents engine doc)))
    /\ (exists self : Readability,
           __init__ engine (PList (map PStr toks)) "fr" "spacy_sm"
                    perplexity_processor
           = Ret (self,
                  if zsum (map (fun s => Z.of_nat (List.length s)
                                         * Z.of_nat (List.length s))
                               (sents engine (join_strings " " toks)))
                     <=? 100
                  then [warning_token_path] else [])
           /\ content_type self = Some "text"
           /\ content self
              = Some (text_val (sents engine (join_strings " " toks)))).
Proof.
  intros engine pp doc toks. split.
  - eexists. unfold __init__.
    cbn [nlp nlp_sents bind andb String.eqb Ascii.eqb Bool.eqb].
    rewrite string_path_nb_words, ltb_101_leb_100. cbn [Z.add].
    repeat split.
  - eexists. unfold __init__.
    destruct (map PStr toks) eqn:Etoks; rewrite <- Etoks;
      cbn [iter bind]; rewrite ?no_list_among_tokens;
      cbn [existsb isinstance_list]; rewrite join_tokens; cbn [bind];
      cbn [nlp nlp_sents bind andb String.eqb Ascii.eqb Bool.eqb];
      rewrite token_path_nb_words, ltb_101_leb_100; cbn [Z.add];
      repeat split.
Qed.

(** X5.  Normalisation does not depend on the shape of the input: a string
    whose tokenisation is not empty gives the same session as that
    tokenisation handed over as a nested list, and a flat token list gives
    the same session as the string of its tokens joined by single spaces
    (only the warnings printed may differ). *)
Theorem X5_init_shape_invariance :
  forall (engine : Nlp) (lang nlp_name perplexity_processor doc : string)
         (toks : list string),
    String.eqb lang "fr" && String.eqb nlp_name "spacy_sm" = true ->
    sents engine doc <> [] ->
    (exists (self : Readability) (out : list string),
        __init__ engine (PStr doc) lang nlp_name perplexity_processor
        = Ret (self, out)
        /\ __init__ engine (text_val (sents engine doc)) lang nlp_name
                    perplexity_processor
           = Ret (self, []))
    /\ (exists (self : Readability) (out out' : list string),
           __init__ engine (PList (map PStr toks)) lang nlp_name
                    perplexity_processor
           = Ret (self, out)
           /\ __init__ engine (PStr (join_strings " " toks)) lang nlp_name
                       perplexity_processor
              = Ret (self, out')).
Proof.
  intros engine lang nlp_name pp doc toks Hon Hne. split.
  - eexists. eexists. unfold __init__, text_val.
    cbn [iter bind nlp]. rewrite Hon. cbn [nlp_sents bind].
    rewrite (any_list_among_sentences _ Hne). split; reflexivity.
  - eexists. eexists. eexists. unfold __init__.
    destruct (map PStr toks) eqn:Etoks; rewrite <- Etoks;
      cbn [iter bind]; rewrite ?no_list_among_tokens;
      cbn [existsb isinstance_list]; rewrite join_tokens; cbn [bind nlp];
      rewrite Hon; cbn [nlp_sents bind]; split; reflexivity.
Qed.

Lemma X5_init_shape_invariance_witness :
  (exists (self : Readability) (out : list string),
      __init__ whitespace_nlp (PStr "Le chat mange") "fr" "spacy_sm" "gpt2"
      = Ret (self, out)
      /\ __init__ whitespace_nlp
           (text_val (sents whitespace_nlp "Le chat mange")) "fr" "spacy_sm"
           "gpt2"
         = Ret (self, []))
  /\ (exists (self : Readability) (out out' : list string),
         __init__ whitespace_nlp (PList (map PStr ["Le"; "chat"])) "fr"
                  "spacy_sm" "gpt2"
         = Ret (self, out)
         /\ __init__ whitespace_nlp (PStr (join_strings " " ["Le"; "chat"]))
                     "fr" "spacy_sm" "gpt2"
            = Ret (self, out')).
Proof.
  apply (X5_init_shape_invariance whitespace_nlp "fr" "spacy_sm" "gpt2"
           "Le chat mange" ["Le"; "chat"]).
  - reflexivity.
  - vm_compute. discriminate.
Defined.



(* ================================================================== *)
(** * Further properties of compile *)
(* ================================================================== *)

Lemma zsum_lengths_concat {A : Type} (t : list (list A)) :
  zsum (map (fun s => Z.of_nat (List.length s)) t)
  = Z.of_nat (List.length (concat t)).
Proof.
  induction t as [|s t IH]; [reflexivity|].
  cbn [map concat]. rewrite zsum_cons, IH, length_app. lia.
Qed.

Lemma filter_length_le_Z {A : Type} (p : A -> bool) (xs : list A) :
  0 <= Z.of_nat (List.length (filter p xs)) <= Z.of_nat (List.length xs).
Proof. pose proof (filter_length_le p xs). lia. Qed.

Lemma long_words_weigh_seven (ws : list string) :
  7 * Z.of_nat (List.length (filter (fun w => 6 <? char_length w) ws))
  <= zsum (map char_length ws).
Proof.
  induction ws as [|w ws IH]; [simpl; lia|].
  cbn [filter map]. rewrite zsum_cons.
  assert (Hw : 0 <= char_length w) by (unfold char_length; lia).
  destruct (6 <? char_length w) eqn:E.
  - apply Z.ltb_lt in E. cbn [List.length]. lia.
  - lia.
Qed.

(** X7.  The snapshot compile() stores for a canonical text keeps its
    counters consistent: long words and polysyllabic words are each between
    0 and the number of words, the characters are at least seven per long
    word, and a text without sentences has no words. *)
Theorem X7_compile_counter_bounds :
  forall (syllablesplit : string -> Z) (self : Readability) (t : Text),
    content_type self = Some "text" ->
    content self = Some (text_val t) ->
    exists st : Statistics,
      compile syllablesplit self = Ret (set_statistics self st, RSelf)
      /\ 0 <= totalLongWords st <= totalWords st
      /\ 0 <= nbPolysyllables st <= totalWords st
      /\ 7 * totalLongWords st <= totalCharacters st
      /\ 0 <= totalSentences st
      /\ (totalSentences st = 0 -> totalWords st = 0).
Proof.
  intros syl self t Hct Hc. exists (aggregate syl t).
  split; [apply compile_text_canonical; assumption|].
  cbn [aggregate totalWords totalLongWords totalSentences totalCharacters
       totalSyllables nbPolysyllables].
  rewrite zsum_lengths_concat.
  split; [apply filter_length_le_Z|].
  split; [apply filter_length_le_Z|].
  split; [apply long_words_weigh_seven|].
  split; [lia|].
  intros H0. destruct t; [reflexivity | simpl in H0; lia].
Qed.

Lemma X7_compile_counter_bounds_witness :
  exists st : Statistics,
    compile count_vowels (text_session None example_text)
    = Ret (set_statistics (text_session None example_text) st, RSelf)
    /\ 0 <= totalLongWords st <= totalWords st
    /\ 0 <= nbPolysyllables st <= totalWords st
    /\ 7 * totalLongWords st <= totalCharacters st
    /\ 0 <= totalSentences st
    /\ (totalSentences st = 0 -> totalWords st = 0).
Proof.
  apply (X7_compile_counter_bounds count_vowels
           (text_session None example_text) example_text).
  - reflexivity.
  - reflexivity.
Defined.

(** X8.  Compilation is additive: the snapshot of two canonical texts put
    one after the other is, counter by counter, the sum of the snapshots of
    the two texts. *)
Theorem X8_compile_additive :
  forall (syllablesplit : string -> Z) (self1 self2 self12 : Readability)
         (t1 t2 : Text),
    content_type self1 = Some "text" -> content self1 = Some (text_val t1) ->
    content_type self2 = Some "text" -> content self2 = Some (text_val t2) ->
    content_type self12 = Some "text" ->
    content self12 = Some (text_val (t1 ++ t2)) ->
    exists st1 st2 st12 : Statistics,
      compile syllablesplit self1 = Ret (set_statistics self1 st1, RSelf)
      /\ compile syllablesplit self2 = Ret (set_statistics self2 st2, RSelf)
      /\ compile syllablesplit self12 = Ret (set_statistics self12 st12, RSelf)
      /\ totalWords st12 = totalWords st1 + totalWords st2
      /\ totalLongWords st12 = totalLongWords st1 + totalLongWords st2
      /\ totalSentences st12 = totalSentences st1 + totalSentences st2
      /\ totalCharacters st12 = totalCharacters st1 + totalCharacters st2
      /\ totalSyllables st12 = totalSyllables st1 + totalSyllables st2
      /\ nbPolysyllables st12 = nbPolysyllables st1 + nbPolysyllables st2.
Proof.
  intros syl self1 self2 self12 t1 t2 Hct1 Hc1 Hct2 Hc2 Hct12 Hc12.
  exists (aggregate syl t1), (aggregate syl t2), (aggregate syl (t1 ++ t2)).
  split; [apply compile_text_canonical; assumption|].
  split; [apply compile_text_canonical; assumption|].
  split; [apply compile_text_canonical; assumption|].
  cbn [aggregate totalWords totalLongWords totalSentences totalCharacters
       totalSyllables nbPolysyllables].
  rewrite concat_app, !filter_app, !map_app, !length_app, !zsum_app.
  repeat split; lia.
Qed.

Lemma X8_compile_additive_witness :
  exists st1 st2 st12 : Statistics,
    compile count_vowels (text_session None example_text)
    = Ret (set_statistics (text_session None example_text) st1, RSelf)
    /\ compile count_vowels (text_session None [["Oui"]])
       = Ret (set_statistics (text_session None [["Oui"]]) st2, RSelf)
    /\ compile count_vowels (text_session None (example_text ++ [["Oui"]]))
       = Ret (set_statistics (text_session None (example_text ++ [["Oui"]]))
                             st12, RSelf)
    /\ totalWords st12 = totalWords st1 + totalWords st2
    /\ totalLongWords st12 = totalLongWords st1 + totalLongWords st2
    /\ totalSentences st12 = totalSentences st1 + totalSentences st2
    /\ totalCharacters st12 = totalCharacters st1 + totalCharacters st2
    /\ totalSyllables st12 = totalSyllables st1 + totalSyllables st2
    /\ nbPolysyllables st12 = nbPolysyllables st1 + nbPolysyllables st2.
Proof.
  apply (X8_compile_additive count_vowels
           (text_session None example_text) (text_session None [["Oui"]])
           (text_session None (example_text ++ [["Oui"]]))
           example_text [["Oui"]]); reflexivity.
Defined.





Lemma for_each_app {A S : Type} (body : S -> A -> Res S) (xs ys : list A)
  (s : S) :
  for_each body (xs ++ ys) s
  = (s' <- for_each body xs s ;; for_each body ys s').
Proof.
  revert s. induction xs as [|x xs IH]; intros s; cbn [app for_each bind].
  - reflexivity.
  - destruct (body s x) as [s'|e]; cbn [bind]; [apply IH | reflexivity].
Qed.

Lemma lookup_app_found {A : Type} (d e : list (string * A)) k v :
  lookup d k = Some v -> lookup (d ++ e) k = Some v.
Proof.
  induction d as [|[k' w] d IH]; cbn [app lookup]; [discriminate|].
  destruct (String.eqb k k'); [trivial | exact IH].
Qed.

Lemma lookup_app_fresh {A : Type} (d e : list (string * A)) k :
  ~ In k (map fst d) -> lookup (d ++ e) k = lookup e k.
Proof.
  induction d as [|[k' w] d IH]; cbn [app lookup map fst In]; intros H;
    [reflexivity|].
  destruct (String.eqb k k') eqn:E.
  - apply String.eqb_eq in E. exfalso. apply H. left. symmetry. exact E.
  - apply IH. intros Hin. apply H. right. exact Hin.
Qed.

(** One class of a corpus whose value, in the stored mapping, is a list of
    canonical texts. *)
Lemma compile_level_lookup (syllablesplit : string -> Z) (self : Readability)
  (d : list (string * Val)) (level : string) (texts : list Text)
  (stats : list (string * list Statistics)) :
  content self = Some (PDict d) ->
  lookup d level = Some (PList (map text_val texts)) ->
  compile_level syllablesplit self stats level
  = Ret (dict_set stats level (map (aggregate syllablesplit) texts)).
Proof.
  intros Hc Hl. unfold compile_level. rewrite Hc. cbn [getattr bind getitem].
  rewrite Hl. cbn [bind iter].
  rewrite (for_each_append (text_statistics syllablesplit) level
             (map text_val texts) (map (aggregate syllablesplit) texts)
             _ []).
  - rewrite dict_set_twice. reflexivity.
  - apply mapM_map. intros t _. apply text_statistics_canonical.
  - apply lookup_dict_set_same.
Qed.

(** The constructor on a mapping whose first sentence of the first text of
    the first class is a list. *)
Lemma init_corpus_accepted (engine : Nlp)
  (lang0 nlp_name perplexity_processor0 k : string)
  (tokens sentences texts : list Val) (rest : list (string * Val)) :
  __init__ engine
    (PDict ((k, PList (PList (PList tokens :: sentences) :: texts)) :: rest))
    lang0 nlp_name perplexity_processor0
  = Ret (set_corpus
           {| lang := lang0; perplexity_processor := perplexity_processor0;
              nlp := if String.eqb lang0 "fr" && String.eqb nlp_name "spacy_sm"
                     then Some engine else None;
              content_type := None; content := None; classes := None;
              statistics := None; corpus_statistics := None |}
           (PDict ((k, PList (PList (PList tokens :: sentences) :: texts))
                     :: rest))
           (k :: map fst rest),
         []).
Proof.
  unfold __init__.
  cbn [iter bind isinstance_list type_is_dict dict_keys first_key getitem
       lookup].
  rewrite no_list_among_keys. cbn [map fst first_key bind lookup].
  rewrite String.eqb_refl. reflexivity.
Qed.

(** X10.  Since the constructor inspects the first class only, it accepts a
    mapping in which a later class holds None or an integer instead of a
    list of texts; compile() on that session raises TypeError when it
    reaches the class, and stores no statistics. *)
Theorem X10_compile_malformed_class :
  forall (engine : Nlp) (syllablesplit : string -> Z)
         (lang nlp_name perplexity_processor : string)
         (k0 : string) (s0 : list string) (t0 : Text) (ts0 : list Text)
         (c : list (string * list Text)) (k : string) (v : Val)
         (rest : list (string * Val)),
    NoDup (k0 :: map fst c) ->
    ~ In k (k0 :: map fst c) ->
    v = PNone \/ (exists z, v = PInt z) ->
    exists self : Readability,
      __init__ engine
        (PDict (map (fun kv => (fst kv, PList (map text_val (snd kv))))
                    ((k0, (s0 :: t0) :: ts0) :: c)
                ++ (k, v) :: rest))
        lang nlp_name perplexity_processor
      = Ret (self, [])
      /\ content_type self = Some "corpus"
      /\ compile syllablesplit self = Raise TypeError.
Proof.
  intros engine syl lang nlp_name pp k0 s0 t0 ts0 c k v rest Hnd Hfresh Hv.
  set (full := @pair string (list Text) k0 ((s0 :: t0) :: ts0) :: c).
  set (items := map (fun kv : string * list Text =>
                       (fst kv, PList (map text_val (snd kv)))) full).
  pose proof (init_corpus_accepted engine lang nlp_name pp k0
                (map PStr s0) (map sentence_val t0) (map text_val ts0)
                (map (fun kv : string * list Text =>
                        (fst kv, PList (map text_val (snd kv)))) c
                 ++ (k, v) :: rest)) as Hinit.
  eexists. split; [exact Hinit|]. split; [reflexivity|].
  unfold compile.
  cbn [content_type classes content set_corpus getattr bind].
  change (String.eqb "corpus" "text") with false.
  change (String.eqb "corpus" "corpus") with true. cbv iota.
  match goal with
  | |- context [for_each (compile_level syl ?s) _ _] => set (self := s)
  end.
  assert (Hc : content self = Some (PDict (items ++ (k, v) :: rest)))
    by reflexivity.
  assert (Hkeys : k0 :: map fst
                          (map (fun kv : string * list Text =>
                                  (fst kv, PList (map text_val (snd kv)))) c
                           ++ (k, v) :: rest)
                  = map fst full ++ k :: map fst rest).
  { unfold full. cbn [map fst app]. rewrite map_app, map_map. reflexivity. }
  rewrite Hkeys, for_each_app.
  rewrite (for_each_class (compile_level syl self)
             (map (aggregate syl)) full Hnd).
  - cbn [bind for_each]. unfold compile_level at 1.
    rewrite Hc. cbn [getattr bind getitem].
    rewrite lookup_app_fresh.
    + cbn [lookup]. rewrite String.eqb_refl.
      destruct Hv as [-> | [z ->]]; reflexivity.
    + unfold items. rewrite map_map. exact Hfresh.
  - intros d k' texts Hin.
    apply (compile_level_lookup syl self (items ++ (k, v) :: rest)
             k' texts d Hc).
    apply lookup_app_found. unfold items.
    rewrite (lookup_map_values (fun ts => PList (map text_val ts))).
    rewrite (lookup_In full k' texts Hnd Hin). reflexivity.
Qed.

Lemma X10_compile_malformed_class_witness :
  exists self : Readability,
    __init__ whitespace_nlp
      (PDict (map (fun kv => (fst kv, PList (map text_val (snd kv))))
                  [("A", [["Le"; "chat"]] :: [])]
              ++ [("B", PInt 5)]))
      "fr" "spacy_sm" "gpt2"
    = Ret (self, [])
    /\ content_type self = Some "corpus"
    /\ compile count_vowels self = Raise TypeError.
Proof.
  apply (X10_compile_malformed_class whitespace_nlp count_vowels
           "fr" "spacy_sm" "gpt2" "A" ["Le"; "chat"] [] [] [] "B" (PInt 5) []).
  - constructor; [intros [] | constructor].
  - cbn [map In]. intros [H | []]. discriminate H.
  - right. exists 5. reflexivity.
Defined.

(* ================================================================== *)
(** * Further properties of the scoring accessors *)
(* ================================================================== *)

(** X11.  The dedicated accessors duplicate score(name): gfi() behaves as
    score("gfi") on every session, and ari(), fre(), fkgl(), smog() and
    rel() behave as score of their name on every session whose content is
    not a corpus (results and exceptions alike). *)
Theorem X11_accessors_agree_with_score :
  forall (common_scores : Formula -> Val -> option Statistics -> Res R)
         (self : Readability),
    gfi common_scores self = score common_scores self "gfi"
    /\ (content_type self <> Some "corpus" ->
        ari common_scores self = score common_scores self "ari"
        /\ fre common_scores self = score common_scores self "fre"
        /\ fkgl common_scores self = score common_scores self "fkgl"
        /\ smog common_scores self = score common_scores self "smog"
        /\ rel common_scores self = score common_scores self "rel").
Proof.
  intros cs self. split; [reflexivity|].
  intros Hnc.
  unfold ari, fre, fkgl, smog, rel, text_only_accessor, score.
  destruct (content_type self) as [ct|]; cbn [getattr bind];
    [|repeat split].
  destruct (String.eqb ct "text"); [repeat split|].
  destruct (String.eqb ct "corpus") eqn:E; [|repeat split].
  apply String.eqb_eq in E. subst ct. exfalso. apply Hnc. reflexivity.
Qed.

Lemma X11_accessors_agree_with_score_witness :
  gfi (fun _ _ _ => Ret 0%R) (text_session None example_text)
  = score (fun _ _ _ => Ret 0%R) (text_session None example_text) "gfi"
  /\ (content_type (text_session None example_text) <> Some "corpus" ->
      ari (fun _ _ _ => Ret 0%R) (text_session None example_text)
      = score (fun _ _ _ => Ret 0%R) (text_session None example_text) "ari"
      /\ fre (fun _ _ _ => Ret 0%R) (text_session None example_text)
         = score (fun _ _ _ => Ret 0%R) (text_session None example_text) "fre"
      /\ fkgl (fun _ _ _ => Ret 0%R) (text_session None example_text)
         = score (fun _ _ _ => Ret 0%R) (text_session None example_text) "fkgl"
      /\ smog (fun _ _ _ => Ret 0%R) (text_session None example_text)
         = score (fun _ _ _ => Ret 0%R) (text_session None example_text) "smog"
      /\ rel (fun _ _ _ => Ret 0%R) (text_session None example_text)
         = score (fun _ _ _ => Ret 0%R) (text_session None example_text) "rel").
Proof.
  exact (X11_accessors_agree_with_score (fun _ _ _ => Ret 0%R)
           (text_session None example_text)).
Defined.

Lemma score_on_corpus
  (common_scores : Formula -> Val -> option Statistics -> Res R)
  (self : Readability) (name : string) :
  content_type self = Some "corpus" ->
  score common_scores self name
  = score_corpus common_scores self (func_of_name name).
Proof.
  intros Hct. unfold score. rewrite Hct. reflexivity.
Qed.

(** X12.  On an uncompiled session holding a canonical corpus, score(name)
    for a known name returns a mapping with exactly the classes, in their
    order, each with the scores of its texts in the order of the texts,
    provided the score function returns on every text of the corpus (it is
    called on the text alone, without a snapshot). *)
Theorem X12_score_corpus_uncompiled :
  forall (common_scores : Formula -> Val -> option Statistics -> Res R)
         (self : Readability) (c : list (string * list Text))
         (name : string) (f : Formula) (sc : Text -> R),
    func_of_name name = Some f ->
    content_type self = Some "corpus" ->
    content self = Some (corpus_val c) ->
    classes self = Some (map fst c) ->
    NoDup (map fst c) ->
    corpus_statistics self = None ->
    (forall k texts t,
        In (k, texts) c -> In t texts ->
        common_scores f (text_val t) None = Ret (sc t)) ->
    score common_scores self name
    = Ret (PerClass (map (fun kv => (fst kv, map sc (snd kv))) c)).
Proof.
  intros cs self c name f sc Hf Hct Hc Hk Hnd Hcs Hsc.
  rewrite (score_on_corpus cs self name Hct), Hf.
  apply score_corpus_uncompiled; assumption.
Qed.

Lemma X12_score_corpus_uncompiled_witness :
  score (fun _ _ _ => Ret 0%R) (corpus_session None example_corpus) "fre"
  = Ret (PerClass (map (fun kv => (fst kv, map (fun _ => 0%R) (snd kv)))
                       example_corpus)).
Proof.
  apply (X12_score_corpus_uncompiled (fun _ _ _ => Ret 0%R)
           (corpus_session None example_corpus) example_corpus "fre"
           FRE_score (fun _ => 0%R)).
  - reflexivity.
  - reflexivity.
  - reflexivity.
  - reflexivity.
  - exact example_corpus_keys_distinct.
  - reflexivity.
  - intros k texts t _ _. reflexivity.
Defined.

(** X13.  Compiling a corpus does not change its scores when the score
    function honours its two calling modes: if, on every text of a canonical
    corpus, the function given the text alone and the function given the
    text's snapshot alone return the same score, then score(name) after
    compile() returns the mapping it returns before. *)
Theorem X13_score_corpus_compiled_agrees :
  forall (syllablesplit : string -> Z)
         (common_scores : Formula -> Val -> option Statistics -> Res R)
         (self : Readability) (c : list (string * list Text))
         (name : string) (f : Formula) (sc : Text -> R),
    func_of_name name = Some f ->
    content_type self = Some "corpus" ->
    content self = Some (corpus_val c) ->
    classes self = Some (map fst c) ->
    NoDup (map fst c) ->
    corpus_statistics self = None ->
    (forall k texts t,
        In (k, texts) c -> In t texts ->
        common_scores f (text_val t) None = Ret (sc t)
        /\ common_scores f PNone (Some (aggregate syllablesplit t))
           = Ret (sc t)) ->
    exists compiled : Readability,
      compile syllablesplit self = Ret (compiled, RSelf)
      /\ score common_scores compiled name = score common_scores self name
      /\ score common_scores self name
         = Ret (PerClass (map (fun kv => (fst kv, map sc (snd kv))) c)).
Proof.
  intros syl cs self c name f sc Hf Hct Hc Hk Hnd Hcs Hsc.
  exists (set_corpus_statistics self (aggregate_corpus syl c)).
  split; [apply compile_corpus_canonical; assumption|].
  assert (Hbefore :
            score cs self name
            = Ret (PerClass (map (fun kv => (fst kv, map sc (snd kv))) c))).
  { rewrite (score_on_corpus cs self name Hct), Hf.
    apply score_corpus_uncompiled; try assumption.
    intros k texts t Hin Ht. apply (Hsc k texts t Hin Ht). }
  split; [|exact Hbefore]. rewrite Hbefore.
  rewrite score_on_corpus by exact Hct. rewrite Hf.
  (* the snapshots, scored class by class *)
  unfold score_corpus.
  cbn [classes set_corpus_statistics]. rewrite Hk. cbn [getattr bind].
  rewrite (for_each_class
             (score_level cs
                (set_corpus_statistics self (aggregate_corpus syl c))
                (Some f))
             (map sc) c Hnd); [reflexivity|].
  intros d k texts Hin. unfold score_level.
  cbn [corpus_statistics set_corpus_statistics].
  unfold lookup_key, aggregate_corpus.
  rewrite (lookup_map_values (map (aggregate syl))).
  rewrite (lookup_In c k texts Hnd Hin). cbn [option_map bind bound].
  rewrite (for_each_append (fun st => cs f PNone (Some st)) k
             (map (aggregate syl) texts) (map sc texts) _ []).
  - rewrite dict_set_twice. reflexivity.
  - apply mapM_map. intros t Ht. apply (Hsc k texts t Hin Ht).
  - apply lookup_dict_set_same.
Qed.

Lemma X13_score_corpus_compiled_agrees_witness :
  exists compiled : Readability,
    compile count_vowels (corpus_session None example_corpus)
    = Ret (compiled, RSelf)
    /\ score (fun _ _ _ => Ret 0%R) compiled "fre"
       = score (fun _ _ _ => Ret 0%R) (corpus_session None example_corpus)
               "fre"
    /\ score (fun _ _ _ => Ret 0%R) (corpus_session None example_corpus) "fre"
       = Ret (PerClass (map (fun kv => (fst kv, map (fun _ => 0%R) (snd kv)))
                            example_corpus)).
Proof.
  apply (X13_score_corpus_compiled_agrees count_vowels (fun _ _ _ => Ret 0%R)
           (corpus_session None example_corpus) example_corpus "fre"
           FRE_score (fun _ => 0%R)).
  - reflexivity.
  - reflexivity.
  - reflexivity.
  - reflexivity.
  - exact example_corpus_keys_distinct.
  - reflexivity.
  - intros k texts t _ _. split; reflexivity.
Defined.

(** The shape of a mapping the constructor recognises as a corpus. *)
Lemma init_corpus_shape (engine : Nlp) (input : Val)
  (lang0 nlp_name perplexity_processor0 : string)
  (self : Readability) (out : list string) :
  __init__ engine input lang0 nlp_name perplexity_processor0 = Ret (self, out) ->
  content_type self = Some "corpus" ->
  exists k tokens sentences texts rest,
    content self
    = Some (PDict ((k, PList (PList (PList tokens :: sentences) :: texts))
                     :: rest))
    /\ classes self = Some (k :: map fst rest)
    /\ statistics self = None
    /\ corpus_statistics self = None.
Proof.
  unfold __init__. intros H Hct.
  destruct input as [|z|doc|l|d];
    cbn [iter isinstance_list type_is_dict bind] in H; try discriminate H.
  - invert_run H. inversion H; subst. discriminate Hct.
  - destruct (existsb isinstance_list l).
    + inversion H; subst. discriminate Hct.
    + invert_run H. inversion H; subst. discriminate Hct.
  - rewrite no_list_among_keys in H.
    destruct d as [|[k v] rest]; [discriminate H|].
    cbn [dict_keys map fst first_key bind getitem lookup] in H.
    rewrite String.eqb_refl in H. cbn [bind] in H.
    destruct v as [|z|s|l|d'];
      try (cbn [isinstance_list] in H; inversion H; subst; discriminate Hct).
    cbn [isinstance_list] in H.
    destruct l as [|x texts]; [discriminate H|]. cbn [index0 bind] in H.
    destruct x as [|z|s|l|d'];
      try (cbn [isinstance_list] in H; inversion H; subst; discriminate Hct).
    cbn [isinstance_list] in H.
    destruct l as [|y sentences]; [discriminate H|]. cbn [index0 bind] in H.
    destruct y as [|z|s|tokens|d'];
      try (cbn [isinstance_list] in H; inversion H; subst; discriminate Hct).
    cbn [isinstance_list] in H. inversion H; subst.
    exists k, tokens, sentences, texts, rest. repeat split.
Qed.

(** X14.  score(name) with a name outside gfi, ari, fre, fkgl, smog, rel
    never binds its score function: on every session the constructor
    returned with a recognised content, text or corpus, the call raises
    UnboundLocalError. *)
Theorem X14_score_unknown_name :
  forall (engine : Nlp)
         (common_scores : Formula -> Val -> option Statistics -> Res R)
         (input : Val) (lang0 nlp_name perplexity_processor0 : string)
         (self : Readability) (out : list string) (name : string),
    __init__ engine input lang0 nlp_name perplexity_processor0
    = Ret (self, out) ->
    content_type self <> None ->
    func_of_name name = None ->
    score common_scores self name = Raise UnboundLocalError.
Proof.
  intros engine cs input lang0 nlp_name pp self out name Hinit Hsome Hname.
  destruct (init_content_type _ _ _ _ _ _ _ Hinit) as [Hct | [Hct | [Hct _]]].
  - contradiction.
  - unfold score. rewrite Hct, Hname. cbn [getattr bind].
    change (String.eqb "text" "text") with true. cbv iota.
    unfold score_text. destruct (statistics self); reflexivity.
  - destruct (init_corpus_shape _ _ _ _ _ _ _ Hinit Hct)
      as (k & tokens & sentences & texts & rest & Hc & Hk & _ & Hcs).
    rewrite (score_on_corpus cs self name Hct), Hname.
    unfold score_corpus. rewrite Hk. cbn [getattr bind for_each].
    unfold score_level at 1. rewrite Hcs, Hc.
    cbn [getattr bind getitem lookup]. rewrite String.eqb_refl.
    reflexivity.
Qed.

Lemma X14_score_unknown_name_witness :
  score (fun _ _ _ => Ret 0%R) (text_session None example_text) "lix"
  = Raise UnboundLocalError.
Proof.
  apply (X14_score_unknown_name whitespace_nlp (fun _ _ _ => Ret 0%R)
           (text_val example_text) "fr" "other" "gpt2"
           (text_session None example_text) [] "lix").
  - reflexivity.
  - discriminate.
  - reflexivity.
Defined.

(** X15.  Bulk scoring has no per-text failure record: on an uncompiled
    canonical corpus, if the score function raises on one text while it
    returns on all texts before it (earlier classes, and earlier texts of
    the same class), score(name) raises that exception and returns no
    mapping at all. *)
Theorem X15_score_corpus_failure_aborts :
  forall (common_scores : Formula -> Val -> option Statistics -> Res R)
         (self : Readability)
         (before : list (string * list Text)) (k : string)
         (earlier : list Text) (t : Text) (later : list Text)
         (after : list (string * list Text))
         (name : string) (f : Formula) (sc : Text -> R) (e : Exn),
    func_of_name name = Some f ->
    content_type self = Some "corpus" ->
    content self
    = Some (corpus_val (before ++ (k, earlier ++ t :: later) :: after)) ->
    classes self
    = Some (map fst (before ++ (k, earlier ++ t :: later) :: after)) ->
    NoDup (map fst (before ++ (k, earlier ++ t :: later) :: after)) ->
    corpus_statistics self = None ->
    (forall k' texts t',
        In (k', texts) before -> In t' texts ->
        common_scores f (text_val t') None = Ret (sc t')) ->
    (forall t', In t' earlier ->
                common_scores f (text_val t') None = Ret (sc t')) ->
    common_scores f (text_val t) None = Raise e ->
    score common_scores self name = Raise e.
Proof.
  intros cs self before k earlier t later after name f sc e
         Hf Hct Hc Hk Hnd Hcs Hbefore Hearlier Hfail.
  set (c := before ++ (k, earlier ++ t :: later) :: after) in *.
  rewrite (score_on_corpus cs self name Hct), Hf.
  unfold score_corpus. rewrite Hk. cbn [getattr bind].
  unfold c at 1. rewrite map_app. cbn [map fst]. rewrite for_each_app.
  assert (Hndb : NoDup (map fst before)).
  { unfold c in Hnd. rewrite map_app in Hnd.
    apply NoDup_app_remove_r in Hnd. exact Hnd. }
  assert (Hlevel : forall d k' texts,
             In (k', texts) c ->
             forall ts1 ts2 r,
               texts = ts1 ++ ts2 ->
               (forall t', In t' ts1 -> cs f (text_val t') None = Ret (sc t')) ->
               for_each
                 (fun scores text =>
                    f0 <- bound (Some f) ;;
                    x <- cs f0 text None ;; dict_append scores k' x)
                 (map text_val ts2) (dict_set (dict_set d k' []) k' (map sc ts1))
               = r ->
               score_level cs self (Some f) d k' = r).
  { intros d k' texts Hin ts1 ts2 r Htexts Hts1 Hr.
    unfold score_level. rewrite Hcs, Hc. cbn [getattr bind].
    unfold corpus_val, getitem.
    rewrite (lookup_map_values (fun ts => PList (map text_val ts))).
    rewrite (lookup_In c k' texts Hnd Hin). cbn [option_map bind iter].
    rewrite Htexts, map_app, for_each_app.
    cbn [bound bind].
    rewrite (for_each_append (fun text => cs f text None) k'
               (map text_val ts1) (map sc ts1) _ []).
    - cbn [bind app]. cbn [bound bind] in Hr. exact Hr.
    - apply mapM_map. exact Hts1.
    - apply lookup_dict_set_same. }
  rewrite (for_each_class (score_level cs self (Some f)) (map sc) before Hndb).
  - cbn [bind for_each].
    rewrite (Hlevel _ k (earlier ++ t :: later)
               (in_elt _ _ _) earlier (t :: later) (Raise e) eq_refl Hearlier).
    + reflexivity.
    + cbn [map for_each bound bind]. rewrite Hfail. reflexivity.
  - intros d k' texts Hin.
    assert (Hin' : In (k', texts) c).
    { unfold c. apply in_or_app. left. exact Hin. }
    rewrite (Hlevel d k' texts Hin' texts [] _ (eq_sym (app_nil_r texts))
               (fun t' Ht' => Hbefore k' texts t' Hin Ht') eq_refl).
    cbn [map for_each]. rewrite dict_set_twice. reflexivity.
Qed.

Lemma X15_score_corpus_failure_aborts_witness :
  score (fun _ text _ =>
           match text with
           | PList (_ :: _) => Ret 0%R
           | _ => Raise UndefinedFormula
           end)
        (corpus_session None ([] ++ ("A", [example_text] ++ [] :: []) :: []))
        "fre"
  = Raise UndefinedFormula.
Proof.
  apply (X15_score_corpus_failure_aborts
           (fun _ text _ =>
              match text with
              | PList (_ :: _) => Ret 0%R
              | _ => Raise UndefinedFormula
              end)
           (corpus_session None ([] ++ ("A", [example_text] ++ [] :: []) :: []))
           [] "A" [example_text] [] [] [] "fre" FRE_score (fun _ => 0%R)
           UndefinedFormula).
  - reflexivity.
  - reflexivity.
  - reflexivity.
  - reflexivity.
  - constructor; [intros [] | constructor].
  - reflexivity.
  - intros k' texts t' [].
  - intros t' [<- | []]. reflexivity.
  - reflexivity.
Defined.

(* ================================================================== *)
(** * The diagnostic accessor *)
(* ================================================================== *)

Lemma print_all_statistics (sts : list Statistics) (out : list Printed) :
  fold_left (fun out st => out ++ print_statistics st) sts out
  = out ++ concat (map print_statistics sts).
Proof.
  revert out. induction sts as [|st sts IH]; intros out; cbn [fold_left map concat].
  - rewrite app_nil_r. reflexivity.
  - rewrite IH, <- app_assoc. reflexivity.
Qed.

Lemma print_all_statistics_length (sts : list Statistics) :
  List.length (concat (map print_statistics sts)) = (6 * List.length sts)%nat.
Proof.
  induction sts as [|st sts IH]; [reflexivity|].
  cbn [map concat List.length]. rewrite length_app, IH.
  cbn [print_statistics List.length]. lia.
Qed.

(** The loop of [stats] over the classes of compiled corpus statistics. *)
Lemma stats_levels (corpus_stats : list (string * list Statistics)) :
  NoDup (map fst corpus_stats) ->
  forall (todo : list (string * list Statistics)) (out : list Printed),
    incl todo corpus_stats ->
    for_each
      (fun out level =>
         sts <- lookup_key corpus_stats level ;;
         Ret (fold_left (fun out st => out ++ print_statistics st) sts out))
      (map fst todo) out
    = Ret (out ++ concat (map (fun kv => concat (map print_statistics (snd kv)))
                              todo)).
Proof.
  intros Hnd todo. induction todo as [|[k sts] todo IH]; intros out Hincl.
  - cbn [map for_each concat]. rewrite app_nil_r. reflexivity.
  - cbn [map fst snd for_each concat]. unfold lookup_key at 1.
    rewrite (lookup_In corpus_stats k sts Hnd)
      by (apply Hincl; left; reflexivity).
    cbn [bind]. rewrite print_all_statistics.
    rewrite IH by (intros x Hx; apply Hincl; right; exact Hx).
    rewrite <- app_assoc. reflexivity.
Qed.

Lemma aggregate_corpus_keys (syllablesplit : string -> Z)
  (c : list (string * list Text)) :
  map fst (aggregate_corpus syllablesplit c) = map fst c.
Proof. unfold aggregate_corpus. rewrite map_map. reflexivity. Qed.

(** X16.  stats() reports what the session holds.  On a session as the
    constructor returns it, it prints only the advice to call compile().
    After compile() on a canonical text it prints the six counters of the
    snapshot, in the order totalWords, totalLongWords, totalSentences,
    totalCharacters, totalSyllables, nbPolysyllables.  After compile() on a
    canonical corpus whose session holds no text statistics it prints one
    header line and then six lines per text, class by class in the order of
    the classes and texts: 1 + 6 * (number of texts) lines. *)
Theorem X16_stats_output :
  forall (engine : Nlp) (syllablesplit : string -> Z) (input : Val)
         (lang0 nlp_name perplexity_processor0 : string)
         (fresh : Readability) (out : list string)
         (self : Readability) (t : Text)
         (corpus : Readability) (c : list (string * list Text)),
    __init__ engine input lang0 nlp_name perplexity_processor0
    = Ret (fresh, out) ->
    content_type self = Some "text" ->
    content self = Some (text_val t) ->
    content_type corpus = Some "corpus" ->
    content corpus = Some (corpus_val c) ->
    classes corpus = Some (map fst c) ->
    NoDup (map fst c) ->
    statistics corpus = None ->
    stats fresh = Ret [Message message_not_compiled]
    /\ (exists compiled : Readability,
           compile syllablesplit self = Ret (compiled, RSelf)
           /\ stats compiled
              = Ret [StatLine "totalWords"
                       (totalWords (aggregate syllablesplit t));
                     StatLine "totalLongWords"
                       (totalLongWords (aggregate syllablesplit t));
                     StatLine "totalSentences"
                       (totalSentences (aggregate syllablesplit t));
                     StatLine "totalCharacters"
                       (totalCharacters (aggregate syllablesplit t));
                     StatLine "totalSyllables"
                       (totalSyllables (aggregate syllablesplit t));
                     StatLine "nbPolysyllables"
                       (nbPolysyllables (aggregate syllablesplit t))])
    /\ (exists (compiled : Readability) (lines : list Printed),
           compile syllablesplit corpus = Ret (compiled, RSelf)
           /\ stats compiled = Ret (Message message_compile_first :: lines)
           /\ lines
              = concat
                  (map (fun kv =>
                          concat (map (fun t =>
                                         print_statistics
                                           (aggregate syllablesplit t))
                                      (snd kv)))
                       c)
           /\ List.length lines
              = (6 * List.length (concat (map snd c)))%nat).
Proof.
  intros engine syl input lang0 nlp_name pp fresh out self t corpus c
         Hinit Hct Hc Hct' Hc' Hk Hnd Hst.
  split; [|split].
  - unfold stats.
    assert (Hnone : statistics fresh = None /\ corpus_statistics fresh = None).
    { revert Hinit. unfold __init__. intros H.
      destruct input; cbn [iter isinstance_list type_is_dict bind] in H;
        invert_run H; inversion H; subst; split; reflexivity. }
    destruct Hnone as [-> ->]. reflexivity.
  - exists (set_statistics self (aggregate syl t)).
    split; [apply compile_text_canonical; assumption | reflexivity].
  - exists (set_corpus_statistics corpus (aggregate_corpus syl c)).
    eexists.
    split; [apply compile_corpus_canonical; assumption|].
    assert (Hlines :
              concat (map (fun kv => concat (map print_statistics (snd kv)))
                          (aggregate_corpus syl c))
              = concat
                  (map (fun kv : string * list Text =>
                          concat (map (fun t => print_statistics (aggregate syl t))
                                      (snd kv)))
                       c)).
    { unfold aggregate_corpus. rewrite map_map. f_equal.
      apply map_ext. intros [k texts]. cbn [fst snd].
      rewrite map_map. reflexivity. }
    split; [|split].
    + unfold stats.
      cbn [statistics corpus_statistics classes set_corpus_statistics].
      rewrite Hst, Hk. cbn [getattr bind].
      rewrite <- (aggregate_corpus_keys syl c).
      rewrite (stats_levels (aggregate_corpus syl c)).
      * cbn [app]. rewrite Hlines. reflexivity.
      * rewrite aggregate_corpus_keys. exact Hnd.
      * apply incl_refl.
    + reflexivity.
    + clear. induction c as [|[k texts] c IH]; [reflexivity|].
      cbn [map concat snd]. rewrite !length_app, IH.
      rewrite <- (map_map (aggregate syl) print_statistics).
      rewrite print_all_statistics_length, length_map. lia.
Qed.

Lemma X16_stats_output_witness :
  stats (text_session None example_text) = Ret [Message message_not_compiled]
  /\ (exists compiled : Readability,
         compile count_vowels (text_session None example_text)
         = Ret (compiled, RSelf)
         /\ stats compiled
            = Ret [StatLine "totalWords"
                     (totalWords (aggregate count_vowels example_text));
                   StatLine "totalLongWords"
                     (totalLongWords (aggregate count_vowels example_text));
                   StatLine "totalSentences"
                     (totalSentences (aggregate count_vowels example_text));
                   StatLine "totalCharacters"
                     (totalCharacters (aggregate count_vowels example_text));
                   StatLine "totalSyllables"
                     (totalSyllables (aggregate count_vowels example_text));
                   StatLine "nbPolysyllables"
                     (nbPolysyllables (aggregate count_vowels example_text))])
  /\ (exists (compiled : Readability) (lines : list Printed),
         compile count_vowels (corpus_session None example_corpus)
         = Ret (compiled, RSelf)
         /\ stats compiled = Ret (Message message_compile_first :: lines)
         /\ lines
            = concat
                (map (fun kv =>
                        concat (map (fun t =>
                                       print_statistics
                                         (aggregate count_vowels t))
                                    (snd kv)))
                     example_corpus)
         /\ List.length lines
            = (6 * List.length (concat (map snd example_corpus)))%nat).
Proof.
  apply (X16_stats_output whitespace_nlp count_vowels
           (text_val example_text) "fr" "other" "gpt2"
           (text_session None example_text) []
           (text_session None example_text) example_text
           (corpus_session None example_corpus) example_corpus).
  - reflexivity.
  - reflexivity.
  - reflexivity.
  - reflexivity.
  - reflexivity.
  - reflexivity.
  - exact example_corpus_keys_distinct.
  - reflexivity.
Defined.

(* ================================================================== *)
(** * Further properties of the diversity ratios *)
(* ================================================================== *)

Lemma unit_interval_ratio (u n : Z) :
  1 <= u <= n -> (0 < IZR u / IZR n <= 1)%R.
Proof.
  intros [Hu Hun].
  assert (HuR : (1 <= IZR u)%R) by (apply IZR_le; exact Hu).
  assert (HunR : (IZR u <= IZR n)%R) by (apply IZR_le; exact Hun).
  split.
  - apply Rdiv_lt_0_compat; lra.
  - apply (Rmult_le_reg_r (IZR n)); [lra|].
    unfold Rdiv. rewrite Rmult_assoc, Rinv_l by lra. lra.
Qed.

Lemma root_ratio_ge (u n : Z) :
  1 <= u -> 1 <= n -> (IZR u / IZR n <= IZR u / sqrt (IZR n))%R.
Proof.
  intros Hu Hn.
  assert (HuR : (1 <= IZR u)%R) by (apply IZR_le; exact Hu).
  assert (HnR : (1 <= IZR n)%R) by (apply IZR_le; exact Hn).
  unfold Rdiv. apply Rmult_le_compat_l; [lra|].
  apply Rinv_le_contravar.
  - apply sqrt_pos_of_ge_1. exact HnR.
  - apply sqrt_le_self. exact HnR.
Qed.

(** X17.  For every text in which the engine recognises n >= 1 common nouns
    (tokens that are not punctuation and are tagged "NOUN"), u of them
    distinct, both copies of noun_token_ratio return u/n in default mode,
    u/sqrt(n) in "root" mode and u/sqrt(2*n) in "corrected" mode, without a
    warning; the default value lies in (0, 1] and the "root" value is at
    least the default value. *)
Theorem X17_noun_token_ratio :
  forall (convert_text_to_string : Val -> Res string) (text : Val)
         (doc : string) (engine : Nlp) (nouns : list string) (n u : Z),
    inline_convert text = Ret doc ->
    convert_text_to_string text = Ret doc ->
    nouns_of (Some engine) doc = Ret nouns ->
    n = Z.of_nat (List.length nouns) ->
    u = Z.of_nat (count_distinct nouns) ->
    1 <= n ->
    (StatsDiversity.noun_token_ratio text (Some engine) None
     = Ret ((IZR u / IZR n)%R, [])
     /\ StatsDiversity.noun_token_ratio text (Some engine) (Some "root")
        = Ret ((IZR u / sqrt (IZR n))%R, [])
     /\ StatsDiversity.noun_token_ratio text (Some engine) (Some "corrected")
        = Ret ((IZR u / sqrt (IZR (2 * n)))%R, []))
    /\ (ReadabilityStatsDiversity.noun_token_ratio convert_text_to_string
          text (Some engine) None
        = Ret ((IZR u / IZR n)%R, [])
        /\ ReadabilityStatsDiversity.noun_token_ratio convert_text_to_string
             text (Some engine) (Some "root")
           = Ret ((IZR u / sqrt (IZR n))%R, [])
        /\ ReadabilityStatsDiversity.noun_token_ratio convert_text_to_string
             text (Some engine) (Some "corrected")
           = Ret ((IZR u / sqrt (IZR (2 * n)))%R, []))
    /\ (0 < IZR u / IZR n <= 1)%R
    /\ (IZR u / IZR n <= IZR u / sqrt (IZR n))%R.
Proof.
  intros convert text doc engine nouns n u Hdoc Hdoc' Hnouns Hn Hu Hn1.
  assert (Hne : nouns <> []).
  { intros E. rewrite E in Hn. simpl in Hn. lia. }
  pose proof (count_distinct_le nouns) as Hle.
  pose proof (count_distinct_pos nouns Hne) as Hpos.
  assert (Hz : (n =? 0) = false) by (apply Z.eqb_neq; lia).
  assert (HA : forall mode,
             StatsDiversity.noun_token_ratio text (Some engine) mode
             = Ret (ratio_for_mode mode u n, [])).
  { intros mode. unfold StatsDiversity.noun_token_ratio.
    rewrite Hdoc. cbn [bind]. rewrite Hnouns. cbn [bind].
    rewrite <- Hn, <- Hu, Hz. reflexivity. }
  assert (HB : forall mode,
             ReadabilityStatsDiversity.noun_token_ratio convert text
               (Some engine) mode
             = Ret (ratio_for_mode mode u n, [])).
  { intros mode. unfold ReadabilityStatsDiversity.noun_token_ratio.
    rewrite Hdoc'. cbn [bind]. rewrite Hnouns. cbn [bind].
    rewrite <- Hn, <- Hu, Hz. reflexivity. }
  split; [rewrite !HA; repeat split|].
  split; [rewrite !HB; repeat split|].
  split; [apply unit_interval_ratio; lia | apply root_ratio_ge; lia].
Qed.

Lemma X17_noun_token_ratio_witness :
  (StatsDiversity.noun_token_ratio (PStr "le chat et le chien")
     (Some whitespace_nlp) None
   = Ret ((IZR 4 / IZR 5)%R, [])
   /\ StatsDiversity.noun_token_ratio (PStr "le chat et le chien")
        (Some whitespace_nlp) (Some "root")
      = Ret ((IZR 4 / sqrt (IZR 5))%R, [])
   /\ StatsDiversity.noun_token_ratio (PStr "le chat et le chien")
        (Some whitespace_nlp) (Some "corrected")
      = Ret ((IZR 4 / sqrt (IZR (2 * 5)))%R, []))
  /\ (ReadabilityStatsDiversity.noun_token_ratio utils_convert_text_to_string
        (PStr "le chat et le chien") (Some whitespace_nlp) None
      = Ret ((IZR 4 / IZR 5)%R, [])
      /\ ReadabilityStatsDiversity.noun_token_ratio
           utils_convert_text_to_string (PStr "le chat et le chien")
           (Some whitespace_nlp) (Some "root")
         = Ret ((IZR 4 / sqrt (IZR 5))%R, [])
      /\ ReadabilityStatsDiversity.noun_token_ratio
           utils_convert_text_to_string (PStr "le chat et le chien")
           (Some whitespace_nlp) (Some "corrected")
         = Ret ((IZR 4 / sqrt (IZR (2 * 5)))%R, []))
  /\ (0 < IZR 4 / IZR 5 <= 1)%R
  /\ (IZR 4 / IZR 5 <= IZR 4 / sqrt (IZR 5))%R.
Proof.
  apply (X17_noun_token_ratio utils_convert_text_to_string
           (PStr "le chat et le chien") "le chat et le chien" whitespace_nlp
           ["le"; "chat"; "et"; "le"; "chien"] 5 4).
  - reflexivity.
  - reflexivity.
  - reflexivity.
  - reflexivity.
  - reflexivity.
  - lia.
Defined.

Lemma count_distinct_full (xs : list string) :
  count_distinct xs = List.length xs <-> NoDup xs.
Proof.
  unfold count_distinct. split.
  - induction xs as [|x xs IH]; intros H; [constructor|].
    cbn [nodup List.length] in H.
    destruct (in_dec string_dec x xs) as [Hin | Hnin].
    + pose proof (count_distinct_le xs) as Hle. unfold count_distinct in Hle.
      lia.
    + cbn [List.length] in H. constructor; [exact Hnin|].
      apply IH. lia.
  - intros H. rewrite nodup_fixed_point by exact H. reflexivity.
Qed.

(** X18.  On a text with at least one token, the default type-token ratio
    is exactly 1 if and only if no token occurs twice (in both copies of
    type_token_ratio). *)
Theorem X18_type_token_ratio_one_iff_distinct :
  forall (convert_text_to_string : Val -> Res string) (input : Val)
         (doc : string) (nlp : option Nlp),
    convert_text_to_string input = Ret doc ->
    split (strip_punctuation doc) <> [] ->
    (StatsDiversity.type_token_ratio convert_text_to_string input nlp None
     = Ret (1%R, [])
     <-> NoDup (split (strip_punctuation doc)))
    /\ (ReadabilityStatsDiversity.type_token_ratio convert_text_to_string
          input nlp None
        = Ret (1%R, [])
        <-> NoDup (split (strip_punctuation doc))).
Proof.
  intros convert input doc nlp Hdoc Hne.
  destruct (type_token_ratio_nonempty convert input doc nlp None Hdoc Hne)
    as [HA HB].
  rewrite HA, HB. cbn [ratio_for_mode].
  set (toks := split (strip_punctuation doc)) in *.
  pose proof (count_distinct_pos toks Hne) as Hpos.
  pose proof (count_distinct_le toks) as Hle.
  assert (Hn : (1 <= IZR (Z.of_nat (List.length toks)))%R)
    by (apply IZR_le; lia).
  assert (Hiff : (IZR (Z.of_nat (count_distinct toks))
                  / IZR (Z.of_nat (List.length toks)))%R = 1%R
                 <-> NoDup toks).
  { rewrite <- count_distinct_full. split.
    - intros H.
      assert (H' : IZR (Z.of_nat (count_distinct toks))
                   = IZR (Z.of_nat (List.length toks))).
      { apply (Rmult_eq_reg_r (/ IZR (Z.of_nat (List.length toks)))).
        - fold (IZR (Z.of_nat (count_distinct toks))
                / IZR (Z.of_nat (List.length toks)))%R.
          rewrite H, Rinv_r by lra. reflexivity.
        - apply Rinv_neq_0_compat. lra. }
      apply eq_IZR in H'. lia.
    - intros H. rewrite H. unfold Rdiv. apply Rinv_r. lra. }
  split; (split; [intros H; apply Hiff; congruence
                 | intros H; apply Hiff in H; rewrite H; reflexivity]).
Qed.

Lemma X18_type_token_ratio_one_iff_distinct_witness :
  (StatsDiversity.type_token_ratio utils_convert_text_to_string
     (PStr "le chat, le chien") None None
   = Ret (1%R, [])
   <-> NoDup (split (strip_punctuation "le chat, le chien")))
  /\ (ReadabilityStatsDiversity.type_token_ratio utils_convert_text_to_string
        (PStr "le chat, le chien") None None
      = Ret (1%R, [])
      <-> NoDup (split (strip_punctuation "le chat, le chien"))).
Proof.
  apply (X18_type_token_ratio_one_iff_distinct utils_convert_text_to_string
           (PStr "le chat, le chien") "le chat, le chien" None).
  - reflexivity.
  - vm_compute. discriminate.
Defined.



(** X20.  noun_token_ratio cannot run with its default arguments: with
    nlp=None every text that converts to a string makes both copies raise
    TypeError (calling None).  In the copy that converts the text itself, a
    mapping leaves the document unassigned and raises UnboundLocalError, and
    None or an integer as text raises TypeError, with or without an
    engine. *)
Theorem X20_noun_token_ratio_failures :
  forall (convert_text_to_string : Val -> Res string) (input : Val)
         (doc doc' : string) (nlp : option Nlp) (mode : option string)
         (d : list (string * Val)) (z : Z),
    inline_convert input = Ret doc ->
    convert_text_to_string input = Ret doc' ->
    StatsDiversity.noun_token_ratio input None mode = Raise TypeError
    /\ ReadabilityStatsDiversity.noun_token_ratio convert_text_to_string
         input None mode
       = Raise TypeError
    /\ StatsDiversity.noun_token_ratio (PDict d) nlp mode
       = Raise UnboundLocalError
    /\ StatsDiversity.noun_token_ratio PNone nlp mode = Raise TypeError
    /\ StatsDiversity.noun_token_ratio (PInt z) nlp mode = Raise TypeError.
Proof.
  intros convert input doc doc' nlp mode d z Hdoc Hdoc'.
  unfold StatsDiversity.noun_token_ratio,
    ReadabilityStatsDiversity.noun_token_ratio.
  rewrite Hdoc, Hdoc'. repeat split.
  unfold inline_convert. cbn [iter bind].
  rewrite no_list_among_keys. reflexivity.
Qed.

Lemma X20_noun_token_ratio_failures_witness :
  StatsDiversity.noun_token_ratio (text_val example_text) None None
  = Raise TypeError
  /\ ReadabilityStatsDiversity.noun_token_ratio utils_convert_text_to_string
       (text_val example_text) None None
     = Raise TypeError
  /\ StatsDiversity.noun_token_ratio (PDict []) (Some whitespace_nlp) None
     = Raise UnboundLocalError
  /\ StatsDiversity.noun_token_ratio PNone (Some whitespace_nlp) None
     = Raise TypeError
  /\ StatsDiversity.noun_token_ratio (PInt 0) (Some whitespace_nlp) None
     = Raise TypeError.
Proof.
  apply (X20_noun_token_ratio_failures utils_convert_text_to_string
           (text_val example_text) " Le chat mange Il est content"
           " Le chat mange Il est content" (Some whitespace_nlp) None [] 0).
  - reflexivity.
  - reflexivity.
Defined.

Lemma strip_punctuation_idempotent (s : string) :
  strip_punctuation (strip_punctuation s) = strip_punctuation s.
Proof.
  induction s as [|c s IH]; [reflexivity|].
  cbn [strip_punctuation]. destruct (is_punctuation c) eqn:E; [exact IH|].
  cbn [strip_punctuation]. rewrite E, IH. reflexivity.
Qed.

(** X21.  Punctuation does not count: when the conversion keeps a string
    as it is, the type-token ratio of a string, in every mode and in both
    copies, is that of the string with its punctuation characters removed,
    warning included. *)
Theorem X21_type_token_ratio_ignores_punctuation :
  forall (convert_text_to_string : Val -> Res string) (s : string)
         (nlp : option Nlp) (mode : option string),
    (forall doc, convert_text_to_string (PStr doc) = Ret doc) ->
    StatsDiversity.type_token_ratio convert_text_to_string (PStr s) nlp mode
    = StatsDiversity.type_token_ratio convert_text_to_string
        (PStr (strip_punctuation s)) nlp mode
    /\ ReadabilityStatsDiversity.type_token_ratio convert_text_to_string
         (PStr s) nlp mode
       = ReadabilityStatsDiversity.type_token_ratio convert_text_to_string
           (PStr (strip_punctuation s)) nlp mode.
Proof.
  intros convert s nlp mode Hid.
  unfold StatsDiversity.type_token_ratio,
    ReadabilityStatsDiversity.type_token_ratio.
  rewrite !Hid. cbn [bind]. rewrite strip_punctuation_idempotent.
  split; reflexivity.
Qed.

Lemma X21_type_token_ratio_ignores_punctuation_witness :
  StatsDiversity.type_token_ratio utils_convert_text_to_string
    (PStr "le chat, le chien !") None (Some "root")
  = StatsDiversity.type_token_ratio utils_convert_text_to_string
      (PStr (strip_punctuation "le chat, le chien !")) None (Some "root")
  /\ ReadabilityStatsDiversity.type_token_ratio utils_convert_text_to_string
       (PStr "le chat, le chien !") None (Some "root")
     = ReadabilityStatsDiversity.type_token_ratio utils_convert_text_to_string
         (PStr (strip_punctuation "le chat, le chien !")) None (Some "root").
Proof.
  apply (X21_type_token_ratio_ignores_punctuation
           utils_convert_text_to_string "le chat, le chien !" None
           (Some "root")).
  intros doc. reflexivity.
Defined.

(* ================================================================== *)
(** * Joining and splitting tokens *)
(* ================================================================== *)

Lemma string_app_assoc (a b c : string) :
  ((a ++ b) ++ c)%string = (a ++ (b ++ c))%string.
Proof. induction a as [|x a IH]; simpl; [reflexivity | rewrite IH; reflexivity]. Qed.

Lemma string_app_nil_r (a : string) : (a ++ EmptyString)%string = a.
Proof. induction a as [|x a IH]; simpl; [reflexivity | rewrite IH; reflexivity]. Qed.

Lemma strip_punctuation_app (a b : string) :
  strip_punctuation (a ++ b)
  = (strip_punctuation a ++ strip_punctuation b)%string.
Proof.
  induction a as [|x a IH]; [reflexivity|].
  cbn [append strip_punctuation]. destruct (is_punctuation x);
    [exact IH | cbn [append]; rewrite IH; reflexivity].
Qed.

Lemma strip_punctuation_plain (w : string) :
  no_char is_punctuation w = true -> strip_punctuation w = w.
Proof.
  induction w as [|x w IH]; [reflexivity|].
  cbn [no_char strip_punctuation]. intros H.
  apply andb_true_iff in H. destruct H as [Hx Hw].
  apply negb_true_iff in Hx. rewrite Hx, IH by exact Hw. reflexivity.
Qed.

Lemma plain_token_parts (w : string) :
  plain_token w = true ->
  w <> EmptyString
  /\ no_char is_space w = true /\ no_char is_punctuation w = true.
Proof.
  unfold plain_token. intros H.
  apply andb_true_iff in H. destruct H as [H Hp].
  apply andb_true_iff in H. destruct H as [Hne Hs].
  repeat split; try assumption.
  intros E. subst w. discriminate Hne.
Qed.

Lemma strip_punctuation_joined (toks : list string) :
  forallb plain_token toks = true ->
  strip_punctuation (join_strings " " toks) = join_strings " " toks.
Proof.
  induction toks as [|w toks IH]; [reflexivity|].
  cbn [forallb]. intros H. apply andb_true_iff in H. destruct H as [Hw Ht].
  destruct (plain_token_parts w Hw) as (_ & _ & Hp).
  destruct toks as [|w' toks'].
  - cbn [join_strings]. apply strip_punctuation_plain. exact Hp.
  - change (join_strings " " (w :: w' :: toks'))
      with (w ++ " " ++ join_strings " " (w' :: toks'))%string.
    rewrite !strip_punctuation_app, (strip_punctuation_plain w Hp), IH
      by exact Ht.
    reflexivity.
Qed.

Lemma strip_punctuation_flattened (t : Text) :
  forallb (forallb plain_token) t = true ->
  strip_punctuation (flattened t) = flattened t.
Proof.
  induction t as [|s t IH]; [reflexivity|].
  cbn [forallb flattened]. intros H.
  apply andb_true_iff in H. destruct H as [Hs Ht].
  rewrite !strip_punctuation_app, strip_punctuation_joined, IH by assumption.
  reflexivity.
Qed.

(** Reading a word without whitespace moves it to the pending word. *)
Lemma split_from_word (w rest acc : string) :
  no_char is_space w = true ->
  split_from (w ++ rest) acc = split_from rest (acc ++ w).
Proof.
  revert acc. induction w as [|x w IH]; intros acc H.
  - cbn [append]. rewrite string_app_nil_r. reflexivity.
  - cbn [no_char] in H. apply andb_true_iff in H. destruct H as [Hx Hw].
    apply negb_true_iff in Hx.
    cbn [append split_from]. rewrite Hx, IH by exact Hw.
    rewrite string_app_assoc. reflexivity.
Qed.

(** Words joined by single spaces and followed by nothing or by a space
    split back into themselves, then into what follows. *)
Lemma split_from_joined (toks : list string) (tail : string) :
  forallb plain_token toks = true ->
  tail = EmptyString \/ (exists tail', tail = String " " tail') ->
  split_from (join_strings " " toks ++ tail) EmptyString
  = toks ++ split_from tail EmptyString.
Proof.
  intros Hplain Htail.
  induction toks as [|w toks IH]; [reflexivity|].
  cbn [forallb] in Hplain.
  apply andb_true_iff in Hplain. destruct Hplain as [Hw Ht].
  destruct (plain_token_parts w Hw) as (Hne & Hs & _).
  destruct toks as [|w' toks'].
  - cbn [join_strings app]. rewrite split_from_word by exact Hs.
    cbn [append]. destruct w as [|x w]; [congruence|].
    destruct Htail as [-> | [tail' ->]]; reflexivity.
  - change (join_strings " " (w :: w' :: toks'))
      with (w ++ " " ++ join_strings " " (w' :: toks'))%string.
    rewrite !string_app_assoc, split_from_word by exact Hs.
    cbn [append]. destruct w as [|x w]; [congruence|].
    cbn [split_from]. change (is_space " ") with true. cbv iota.
    rewrite (IH Ht). reflexivity.
Qed.

Lemma split_joined (toks : list string) :
  forallb plain_token toks = true -> split (join_strings " " toks) = toks.
Proof.
  intros H. unfold split.
  rewrite <- (string_app_nil_r (join_strings " " toks)).
  rewrite split_from_joined by (try assumption; left; reflexivity).
  cbn [split_from]. apply app_nil_r.
Qed.

Lemma flattened_starts_with_space (t : Text) :
  flattened t = EmptyString \/ (exists tail', flattened t = String " " tail').
Proof. destruct t; [left | right; eexists]; reflexivity. Qed.

Lemma split_flattened (t : Text) :
  forallb (forallb plain_token) t = true -> split (flattened t) = concat t.
Proof.
  unfold split. induction t as [|s t IH]; [reflexivity|].
  cbn [forallb flattened concat]. intros H.
  apply andb_true_iff in H. destruct H as [Hs Ht].
  cbn [append split_from]. change (is_space " ") with true. cbv iota.
  rewrite split_from_joined
    by (try assumption; apply flattened_starts_with_space).
  rewrite IH by exact Ht. reflexivity.
Qed.

(** What the inline conversion makes of a flat token list and of a
    canonical text. *)
Lemma inline_convert_tokens (toks : list string) :
  inline_convert (PList (map PStr toks)) = Ret (join_strings " " toks).
Proof.
  unfold inline_convert. cbn [iter bind isinstance_list].
  rewrite no_list_among_tokens. apply join_tokens.
Qed.

Lemma flatten_sentences (t : Text) (doc : string) :
  for_each
    (fun doc sentence =>
       joined <- join " " sentence ;; Ret (doc ++ " " ++ joined)%string)
    (map sentence_val t) doc
  = Ret (doc ++ flattened t)%string.
Proof.
  revert doc. induction t as [|s t IH]; intros doc; cbn [map for_each flattened].
  - rewrite string_app_nil_r. reflexivity.
  - unfold sentence_val at 1. rewrite join_tokens. cbn [bind].
    rewrite IH, !string_app_assoc. reflexivity.
Qed.

Lemma inline_convert_text (t : Text) :
  inline_convert (text_val t) = Ret (flattened t).
Proof.
  unfold inline_convert, text_val. cbn [iter bind isinstance_list].
  destruct t as [|s t]; [reflexivity|].
  rewrite any_list_among_sentences by discriminate.
  rewrite flatten_sentences. reflexivity.
Qed.

(** X22.  Joining and splitting lose nothing on plain tokens (not empty, no
    whitespace, no punctuation): when the conversion flattens as the inline
    code does, both copies of type_token_ratio, on a flat list of plain
    tokens and on a canonical text of plain tokens, count exactly the tokens
    given.  The number of tokens is the text's total word count, as
    compile() stores it, and the number of types is the number of distinct
    tokens. *)
Theorem X22_type_token_ratio_plain_tokens :
  forall (convert_text_to_string : Val -> Res string)
         (toks : list string) (t : Text)
         (nlp : option Nlp) (mode : option string),
    convert_text_to_string (PList (map PStr toks))
    = inline_convert (PList (map PStr toks)) ->
    convert_text_to_string (text_val t) = inline_convert (text_val t) ->
    forallb plain_token toks = true ->
    toks <> [] ->
    forallb (forallb plain_token) t = true ->
    concat t <> [] ->
    (StatsDiversity.type_token_ratio convert_text_to_string
       (PList (map PStr toks)) nlp mode
     = Ret (ratio_for_mode mode (Z.of_nat (count_distinct toks))
                           (Z.of_nat (List.length toks)), [])
     /\ StatsDiversity.type_token_ratio convert_text_to_string
          (text_val t) nlp mode
        = Ret (ratio_for_mode mode (Z.of_nat (count_distinct (concat t)))
                              (word_count t), []))
    /\ (ReadabilityStatsDiversity.type_token_ratio convert_text_to_string
          (PList (map PStr toks)) nlp mode
        = Ret (ratio_for_mode mode (Z.of_nat (count_distinct toks))
                              (Z.of_nat (List.length toks)), [])
        /\ ReadabilityStatsDiversity.type_token_ratio convert_text_to_string
             (text_val t) nlp mode
           = Ret (ratio_for_mode mode (Z.of_nat (count_distinct (concat t)))
                                 (word_count t), [])).
Proof.
  intros convert toks t nlp mode Hflat Hnested Hplain Hne Hplain' Hne'.
  rewrite inline_convert_tokens in Hflat.
  rewrite inline_convert_text in Hnested.
  assert (Hsplit : split (strip_punctuation (join_strings " " toks)) = toks).
  { rewrite strip_punctuation_joined, split_joined by assumption.
    reflexivity. }
  assert (Hsplit' : split (strip_punctuation (flattened t)) = concat t).
  { rewrite strip_punctuation_flattened, split_flattened by assumption.
    reflexivity. }
  assert (H1 : split (strip_punctuation (join_strings " " toks)) <> [])
    by (rewrite Hsplit; exact Hne).
  assert (H2 : split (strip_punctuation (flattened t)) <> [])
    by (rewrite Hsplit'; exact Hne').
  destruct (type_token_ratio_nonempty convert _ _ nlp mode Hflat H1)
    as [HA HB].
  destruct (type_token_ratio_nonempty convert _ _ nlp mode Hnested H2)
    as [HA' HB'].
  rewrite Hsplit in HA, HB. rewrite Hsplit' in HA', HB'.
  unfold word_count. rewrite zsum_lengths_concat.
  repeat split; assumption.
Qed.

Lemma X22_type_token_ratio_plain_tokens_witness :
  (StatsDiversity.type_token_ratio utils_convert_text_to_string
     (PList (map PStr ["le"; "chat"; "le"])) None None
   = Ret (ratio_for_mode None
            (Z.of_nat (count_distinct ["le"; "chat"; "le"]))
            (Z.of_nat (List.length ["le"; "chat"; "le"])), [])
   /\ StatsDiversity.type_token_ratio utils_convert_text_to_string
        (text_val example_text) None None
      = Ret (ratio_for_mode None
               (Z.of_nat (count_distinct (concat example_text)))
               (word_count example_text), []))
  /\ (ReadabilityStatsDiversity.type_token_ratio utils_convert_text_to_string
        (PList (map PStr ["le"; "chat"; "le"])) None None
      = Ret (ratio_for_mode None
               (Z.of_nat (count_distinct ["le"; "chat"; "le"]))
               (Z.of_nat (List.length ["le"; "chat"; "le"])), [])
      /\ ReadabilityStatsDiversity.type_token_ratio
           utils_convert_text_to_string (text_val example_text) None None
         = Ret (ratio_for_mode None
                  (Z.of_nat (count_distinct (concat example_text)))
                  (word_count example_text), [])).
Proof.
  apply (X22_type_token_ratio_plain_tokens utils_convert_text_to_string
           ["le"; "chat"; "le"] example_text None None).
  - reflexivity.
  - reflexivity.
  - reflexivity.
  - discriminate.
  - reflexivity.
  - discriminate.
Defined.

(* ================================================================== *)
(** * corpus_info: the vocabulary pass *)
(* ================================================================== *)

Lemma heap_add_last (h : list (list Val)) (s : list Val) (x : Val) :
  Info.heap_add (h ++ [s]) (List.length h) x = h ++ [Info.set_add x s].
Proof.
  induction h as [|s' h IH]; [reflexivity|].
  cbn [app List.length Info.heap_add]. rewrite IH. reflexivity.
Qed.

(** Adding the tokens of a sentence to the set allocated last. *)
Lemma vocab_tokens_canonical (h : list (list Val)) (ws : list string) :
  forall s : list Val,
    for_each
      (fun h' token =>
         x <- Info.hashable token ;;
         Ret (Info.heap_add h' (List.length h) x))
      (map PStr ws) (h ++ [s])
    = Ret (h ++ [fold_left (fun s w => Info.set_add (PStr w) s) ws s]).
Proof.
  induction ws as [|w ws IH]; intros s; [reflexivity|].
  cbn [map for_each Info.hashable bind]. rewrite heap_add_last. apply IH.
Qed.

Lemma vocab_sentences_canonical (level : string) (h : list (list Val))
  (t : Text) :
  forall (s : list Val) (v : list (string * list nat)) (refs : list nat),
    lookup v level = Some refs ->
    for_each (Info.vocab_sentence level (List.length h)) (map sentence_val t)
             {| Info.heap := h ++ [s]; Info.vocab := v |}
    = Ret {| Info.heap :=
               h ++ [fold_left (fun s w => Info.set_add (PStr w) s)
                               (concat t) s];
             Info.vocab :=
               dict_set v level
                        (refs ++ repeat (List.length h) (List.length t)) |}.
Proof.
  induction t as [|ws t IH]; intros s v refs Hrefs.
  - cbn [map for_each concat fold_left List.length repeat].
    rewrite app_nil_r, dict_set_lookup_id by exact Hrefs. reflexivity.
  - cbn [map for_each]. unfold Info.vocab_sentence at 1.
    cbn [sentence_val iter bind Info.heap Info.vocab].
    rewrite vocab_tokens_canonical. cbn [bind].
    unfold dict_append. rewrite Hrefs. cbn [bind].
    rewrite (IH _ _ (refs ++ [List.length h]))
      by apply lookup_dict_set_same.
    rewrite dict_set_twice. cbn [concat List.length repeat].
    rewrite fold_left_app, <- app_assoc. reflexivity.
Qed.

Lemma vocab_text_canonical (level : string) (st : Info.Vocab) (t : Text)
  (refs : list nat) :
  lookup (Info.vocab st) level = Some refs ->
  Info.vocab_text level st (text_val t)
  = Ret {| Info.heap := Info.heap st ++ [token_set t];
           Info.vocab :=
             dict_set (Info.vocab st) level
                      (refs ++ repeat (List.length (Info.heap st))
                                      (List.length t)) |}.
Proof.
  intros Hrefs. unfold Info.vocab_text, text_val. cbn [iter bind].
  rewrite (vocab_sentences_canonical level (Info.heap st) t [] _ refs Hrefs).
  reflexivity.
Qed.

Lemma vocab_texts_canonical (level : string) (texts : list Text) :
  forall (st : Info.Vocab) (refs : list nat),
    lookup (Info.vocab st) level = Some refs ->
    for_each (Info.vocab_text level) (map text_val texts) st
    = Ret {| Info.heap := Info.heap st ++ map token_set texts;
             Info.vocab :=
               dict_set (Info.vocab st) level
                        (refs ++ refs_from (List.length (Info.heap st)) texts) |}.
Proof.
  induction texts as [|t texts IH]; intros st refs Hrefs.
  - cbn [map for_each refs_from]. rewrite !app_nil_r.
    rewrite dict_set_lookup_id by exact Hrefs. destruct st; reflexivity.
  - cbn [map for_each]. rewrite (vocab_text_canonical level st t refs Hrefs).
    cbn [bind].
    rewrite (IH _ (refs ++ repeat (List.length (Info.heap st)) (List.length t)))
      by (cbn [Info.vocab]; apply lookup_dict_set_same).
    cbn [Info.heap Info.vocab refs_from].
    rewrite dict_set_twice, <- !app_assoc, length_app.
    cbn [List.length app]. rewrite Nat.add_1_r. reflexivity.
Qed.

Lemma vocab_level_canonical (c : list (string * list Text)) (level : string)
  (texts : list Text) (st : Info.Vocab) :
  lookup c level = Some texts ->
  Info.vocab_level (corpus_val c) st level
  = Ret {| Info.heap := Info.heap st ++ map token_set texts;
           Info.vocab :=
             dict_set (Info.vocab st) level
                      (refs_from (List.length (Info.heap st)) texts) |}.
Proof.
  intros Hl. unfold Info.vocab_level, corpus_val, getitem.
  rewrite (lookup_map_values (fun ts => PList (map text_val ts))), Hl.
  cbn [option_map bind iter].
  rewrite (vocab_texts_canonical level texts _ [])
    by (cbn [Info.vocab]; apply lookup_dict_set_same).
  cbn [Info.heap Info.vocab app]. rewrite dict_set_twice. reflexivity.
Qed.

Lemma vocab_from_keys (base : nat) (c : list (string * list Text)) :
  map fst (vocab_from base c) = map fst c.
Proof.
  revert base. induction c as [|[k texts] c IH]; intros base; [reflexivity|].
  cbn [vocab_from map fst]. rewrite IH. reflexivity.
Qed.

Lemma vocab_from_app (base : nat) (c1 c2 : list (string * list Text)) :
  vocab_from base (c1 ++ c2)
  = vocab_from base c1
    ++ vocab_from (base + List.length (concat (map snd c1))) c2.
Proof.
  revert base. induction c1 as [|[k texts] c1 IH]; intros base.
  - cbn [app vocab_from map concat List.length]. rewrite Nat.add_0_r.
    reflexivity.
  - cbn [app vocab_from map snd concat]. rewrite IH, length_app.
    rewrite Nat.add_assoc. reflexivity.
Qed.

(** The whole vocabulary pass on a canonical corpus: one set per text, in
    the order of the corpus, and per class the references to them. *)
Lemma vocab_pass_canonical (c : list (string * list Text)) :
  NoDup (map fst c) ->
  for_each (Info.vocab_level (corpus_val c)) (map fst c)
           {| Info.heap := []; Info.vocab := [] |}
  = Ret {| Info.heap := map token_set (concat (map snd c));
           Info.vocab := vocab_from 0 c |}.
Proof.
  intros Hnd.
  assert (Hgen : forall done todo : list (string * list Text),
             c = done ++ todo ->
             for_each (Info.vocab_level (corpus_val c)) (map fst todo)
                      {| Info.heap := map token_set (concat (map snd done));
                         Info.vocab := vocab_from 0 done |}
             = Ret {| Info.heap := map token_set (concat (map snd c));
                      Info.vocab := vocab_from 0 c |}).
  { intros done todo. revert done.
    induction todo as [|[k texts] todo IH]; intros done Hc.
    - rewrite app_nil_r in Hc. subst done. reflexivity.
    - cbn [map fst for_each].
      rewrite (vocab_level_canonical c k texts)
        by (apply lookup_In; [exact Hnd|];
            rewrite Hc; apply in_or_app; right; left; reflexivity).
      cbn [bind Info.heap Info.vocab].
      rewrite dict_set_fresh.
      + specialize (IH (done ++ [(k, texts)])).
        rewrite map_app, concat_app, map_app, vocab_from_app in IH.
        cbn [map snd concat vocab_from app] in IH.
        rewrite app_nil_r in IH. rewrite length_map. cbn [Nat.add] in IH.
        apply IH. rewrite <- app_assoc. exact Hc.
      + rewrite vocab_from_keys.
        rewrite Hc, map_app in Hnd. cbn [map fst] in Hnd.
        apply NoDup_remove_2 in Hnd.
        intros Hk. apply Hnd. apply in_or_app. left. exact Hk. }
  exact (Hgen [] c eq_refl).
Qed.

(* ================================================================== *)
(** * corpus_info: the counting pass *)
(* ================================================================== *)

Lemma div_nonzero (x : R) (d : Z) :
  d <> 0 -> Info.div x d = Info.Returns (x / IZR d)%R.
Proof.
  intros Hd. unfold Info.div.
  destruct (d =? 0) eqn:E; [apply Z.eqb_eq in E; contradiction | reflexivity].
Qed.

Lemma counts_eq (a b : Info.Counts) :
  Info.nbr_ph a = Info.nbr_ph b ->
  Info.nbr_ph_moy a = Info.nbr_ph_moy b ->
  Info.nbr_tokens a = Info.nbr_tokens b ->
  Info.nbr_tokens_moy a = Info.nbr_tokens_moy b ->
  Info.len_phr a = Info.len_phr b ->
  Info.len_phr_moy a = Info.len_phr_moy b ->
  a = b.
Proof.
  destruct a, b. cbn. intros; subst. reflexivity.
Qed.

Lemma IZR_nonzero (d : Z) : d <> 0 -> IZR d <> 0%R.
Proof. intros Hd H. apply Hd. apply eq_IZR. exact H. Qed.

(** The sentences of one canonical text. *)
Lemma count_sents_canonical (n : Z) (t : Text) :
  n <> 0 ->
  forall acc : Info.Counts,
    Info.ofor_each (Info.count_sent n) (map sentence_val t) acc
    = Info.Returns
        {| Info.nbr_ph := Info.nbr_ph acc;
           Info.nbr_ph_moy := Info.nbr_ph_moy acc;
           Info.nbr_tokens := Info.nbr_tokens acc + word_count t;
           Info.nbr_tokens_moy :=
             (Info.nbr_tokens_moy acc + IZR (word_count t) / IZR n)%R;
           Info.len_phr := Info.len_phr acc + word_count t;
           Info.len_phr_moy := Info.len_phr_moy acc |}.
Proof.
  intros Hn. pose proof (IZR_nonzero n Hn) as HnR.
  induction t as [|s t IH]; intros acc.
  - cbn [map Info.ofor_each]. f_equal. unfold word_count. cbn [map zsum fold_right].
    apply counts_eq; cbn; try lia; try reflexivity. field. exact HnR.
  - cbn [map Info.ofor_each]. unfold Info.count_sent at 1.
    unfold sentence_val at 1. cbn [len Info.lift Info.obind].
    rewrite div_nonzero by exact Hn. cbn [Info.obind].
    rewrite IH. f_equal. unfold word_count. cbn [map]. rewrite zsum_cons.
    rewrite length_map.
    apply counts_eq; cbn; try lia; try reflexivity.
    rewrite !plus_IZR. field. exact HnR.
Qed.

(** One canonical text with a sentence; a text without sentence divides by
    zero. *)
Lemma count_text_canonical (n : Z) (t : Text) (acc : Info.Counts) :
  n <> 0 ->
  Info.len_phr acc = 0 ->
  Info.count_text n acc (text_val t)
  = match t with
    | [] => Info.RaisesZeroDivisionError
    | _ :: _ =>
        Info.Returns
          {| Info.nbr_ph := Info.nbr_ph acc + Z.of_nat (List.length t);
             Info.nbr_ph_moy :=
               (Info.nbr_ph_moy acc + IZR (Z.of_nat (List.length t)) / IZR n)%R;
             Info.nbr_tokens := Info.nbr_tokens acc + word_count t;
             Info.nbr_tokens_moy :=
               (Info.nbr_tokens_moy acc + IZR (word_count t) / IZR n)%R;
             Info.len_phr := 0;
             Info.len_phr_moy :=
               (Info.len_phr_moy acc
                + IZR (word_count t) / IZR (Z.of_nat (List.length t)))%R |}
    end.
Proof.
  intros Hn Hlen. unfold Info.count_text, text_val.
  cbn [len iter Info.lift Info.obind]. rewrite length_map.
  rewrite div_nonzero by exact Hn. cbn [Info.obind].
  rewrite count_sents_canonical by exact Hn.
  cbn [Info.obind Info.nbr_ph Info.nbr_ph_moy Info.nbr_tokens
       Info.nbr_tokens_moy Info.len_phr Info.len_phr_moy].
  destruct t as [|s t]; [reflexivity|].
  rewrite div_nonzero by (cbn [List.length]; lia).
  cbn [Info.obind]. rewrite Hlen. reflexivity.
Qed.

Lemma all_texts_populated_cons (t : Text) (texts : list Text) :
  forallb (fun t => negb (Nat.eqb (List.length t) 0)) (t :: texts) = true ->
  t <> [] /\ forallb (fun t => negb (Nat.eqb (List.length t) 0)) texts = true.
Proof.
  cbn [forallb]. intros H. apply andb_true_iff in H. destruct H as [Ht Hts].
  split; [|exact Hts]. intros E. subst t. discriminate Ht.
Qed.

(** The texts of one class, all with a sentence. *)
Lemma count_texts_canonical (n : Z) (texts : list Text) :
  n <> 0 ->
  forallb (fun t => negb (Nat.eqb (List.length t) 0)) texts = true ->
  forall acc : Info.Counts,
    Info.len_phr acc = 0 ->
    Info.ofor_each (Info.count_text n) (map text_val texts) acc
    = Info.Returns
        {| Info.nbr_ph := Info.nbr_ph acc + sentence_count texts;
           Info.nbr_ph_moy :=
             (Info.nbr_ph_moy acc + IZR (sentence_count texts) / IZR n)%R;
           Info.nbr_tokens := Info.nbr_tokens acc + token_count texts;
           Info.nbr_tokens_moy :=
             (Info.nbr_tokens_moy acc + IZR (token_count texts) / IZR n)%R;
           Info.len_phr := 0;
           Info.len_phr_moy :=
             (Info.len_phr_moy acc
              + rtotal (map (fun t => IZR (word_count t)
                                      / IZR (Z.of_nat (List.length t)))
                            texts))%R |}.
Proof.
  intros Hn. pose proof (IZR_nonzero n Hn) as HnR.
  induction texts as [|t texts IH]; intros Hpop acc Hlen.
  - cbn [map Info.ofor_each]. f_equal.
    unfold sentence_count, token_count, rtotal. cbn [map zsum fold_right].
    apply counts_eq; cbn; try lia; try reflexivity; try (field; exact HnR).
  - apply all_texts_populated_cons in Hpop. destruct Hpop as [Hne Hpop].
    cbn [map Info.ofor_each].
    rewrite count_text_canonical by assumption.
    destruct t as [|s t]; [congruence|]. cbn [Info.obind].
    rewrite (IH Hpop) by reflexivity. f_equal.
    unfold sentence_count, token_count, rtotal.
    cbn [map fold_right]. rewrite !zsum_cons.
    apply counts_eq;
      cbn [Info.nbr_ph Info.nbr_ph_moy Info.nbr_tokens Info.nbr_tokens_moy
           Info.len_phr Info.len_phr_moy];
      try lia; try reflexivity.
    + rewrite !plus_IZR. field. exact HnR.
    + rewrite !plus_IZR. field. exact HnR.
    + unfold rtotal. lra.
Qed.

Lemma count_texts_unpopulated (n : Z) (texts : list Text) :
  n <> 0 ->
  forallb (fun t => negb (Nat.eqb (List.length t) 0)) texts = false ->
  forall acc : Info.Counts,
    Info.len_phr acc = 0 ->
    Info.ofor_each (Info.count_text n) (map text_val texts) acc
    = Info.RaisesZeroDivisionError.
Proof.
  intros Hn. induction texts as [|t texts IH]; intros H acc Hlen;
    [discriminate H|].
  cbn [map Info.ofor_each]. rewrite count_text_canonical by assumption.
  destruct t as [|s t]; [reflexivity|]. cbn [Info.obind].
  apply IH; [exact H | reflexivity].
Qed.

(** One class of a canonical corpus in the counting pass. *)
Lemma count_level_canonical (c : list (string * list Text)) (level : string)
  (texts : list Text) (rows : Info.Rows) :
  lookup c level = Some texts ->
  Info.count_level (corpus_val c) rows level
  = if class_populated texts then
      Info.Returns
        {| Info.nb_files :=
             Info.nb_files rows ++ [Z.of_nat (List.length texts)];
           Info.nb_ph := Info.nb_ph rows ++ [sentence_count texts];
           Info.nb_ph_moy := Info.nb_ph_moy rows ++ [mean_sentences texts];
           Info.len_ph_moy :=
             Info.len_ph_moy rows ++ [mean_sentence_length texts];
           Info.nb_tokens := Info.nb_tokens rows ++ [token_count texts];
           Info.nb_tokens_moy := Info.nb_tokens_moy rows ++ [mean_tokens texts] |}
    else Info.RaisesZeroDivisionError.
Proof.
  intros Hl. unfold Info.count_level, corpus_val, getitem.
  rewrite (lookup_map_values (fun ts => PList (map text_val ts))), Hl.
  cbn [option_map Info.lift Info.obind len iter]. rewrite length_map.
  unfold class_populated.
  destruct texts as [|t texts]; [reflexivity|].
  assert (Hn : Z.of_nat (List.length (t :: texts)) <> 0)
    by (cbn [List.length]; lia).
  change (negb (Nat.eqb (List.length (t :: texts)) 0)) with true.
  cbn [andb].
  destruct (forallb (fun t0 => negb (Nat.eqb (List.length t0) 0)) (t :: texts))
    eqn:Hpop.
  - rewrite (count_texts_canonical _ (t :: texts) Hn Hpop) by reflexivity.
    cbn [Info.obind Info.nbr_ph Info.nbr_ph_moy Info.nbr_tokens
         Info.nbr_tokens_moy Info.len_phr Info.len_phr_moy].
    rewrite div_nonzero by exact Hn. cbn [Info.obind].
    unfold mean_sentences, mean_tokens, mean_sentence_length.
    rewrite !Rplus_0_l, !Z.add_0_l. reflexivity.
  - rewrite (count_texts_unpopulated _ (t :: texts) Hn Hpop) by reflexivity.
    reflexivity.
Qed.

Lemma populated_app (c1 c2 : list (string * list Text)) :
  populated (c1 ++ c2) = populated c1 && populated c2.
Proof. unfold populated. apply forallb_app. Qed.

Lemma counted_rows_snoc (c : list (string * list Text)) (k : string)
  (texts : list Text) :
  counted_rows (c ++ [(k, texts)])
  = {| Info.nb_files :=
         Info.nb_files (counted_rows c) ++ [Z.of_nat (List.length texts)];
       Info.nb_ph := Info.nb_ph (counted_rows c) ++ [sentence_count texts];
       Info.nb_ph_moy :=
         Info.nb_ph_moy (counted_rows c) ++ [mean_sentences texts];
       Info.len_ph_moy :=
         Info.len_ph_moy (counted_rows c) ++ [mean_sentence_length texts];
       Info.nb_tokens := Info.nb_tokens (counted_rows c) ++ [token_count texts];
       Info.nb_tokens_moy :=
         Info.nb_tokens_moy (counted_rows c) ++ [mean_tokens texts] |}.
Proof. unfold counted_rows. cbn. rewrite !map_app. reflexivity. Qed.

(** The whole counting pass: it returns exactly when every class has a
    text and every text has a sentence, and divides by zero otherwise. *)
Lemma count_pass_canonical (c : list (string * list Text)) :
  NoDup (map fst c) ->
  Info.ofor_each (Info.count_level (corpus_val c)) (map fst c)
                 (counted_rows [])
  = if populated c then Info.Returns (counted_rows c)
    else Info.RaisesZeroDivisionError.
Proof.
  intros Hnd.
  assert (Hgen : forall done todo : list (string * list Text),
             c = done ++ todo ->
             Info.ofor_each (Info.count_level (corpus_val c)) (map fst todo)
                            (counted_rows done)
             = if populated todo then Info.Returns (counted_rows c)
               else Info.RaisesZeroDivisionError).
  { intros done todo. revert done.
    induction todo as [|[k texts] todo IH]; intros done Hc.
    - rewrite app_nil_r in Hc. subst done. reflexivity.
    - cbn [map fst Info.ofor_each].
      rewrite (count_level_canonical c k texts)
        by (apply lookup_In; [exact Hnd|];
            rewrite Hc; apply in_or_app; right; left; reflexivity).
      change (populated ((k, texts) :: todo))
        with (class_populated texts && populated todo).
      destruct (class_populated texts); [|reflexivity].
      cbn [Info.obind andb]. rewrite <- (counted_rows_snoc done k texts).
      apply IH. rewrite <- app_assoc. exact Hc. }
  exact (Hgen [] c eq_refl).
Qed.

(* ================================================================== *)
(** * corpus_info: vocabulary sizes *)
(* ================================================================== *)

Lemma sadd_spec (w : string) (s : list string) :
  NoDup s ->
  NoDup (sadd w s) /\ (forall x, In x (sadd w s) <-> In x s \/ x = w).
Proof.
  intros Hnd. unfold sadd.
  destruct (existsb (String.eqb w) s) eqn:E.
  - split; [exact Hnd|]. intros x. split; [auto|].
    intros [H | ->]; [exact H|].
    apply existsb_exists in E. destruct E as (y & Hy & Heq).
    apply String.eqb_eq in Heq. subst y. exact Hy.
  - assert (Hnin : ~ In w s).
    { intros Hin.
      assert (Ht : existsb (String.eqb w) s = true).
      { apply existsb_exists. exists w. split; [exact Hin|].
        apply String.eqb_refl. }
      rewrite Ht in E. discriminate E. }
    split.
    + apply NoDup_app; [exact Hnd | constructor; [intros [] | constructor] |].
      intros x Hx [Hw | []]. subst x. contradiction.
    + intros x. rewrite in_app_iff. cbn [In]. intuition.
Qed.

Lemma collect_spec (ws : list string) :
  forall s : list string,
    NoDup s ->
    NoDup (collect ws s)
    /\ (forall x, In x (collect ws s) <-> In x s \/ In x ws).
Proof.
  unfold collect. induction ws as [|w ws IH]; intros s Hnd.
  - cbn [fold_left In]. split; [exact Hnd | intuition].
  - cbn [fold_left]. destruct (sadd_spec w s Hnd) as [Hnd' Hin'].
    destruct (IH _ Hnd') as [Hnd'' Hin''].
    split; [exact Hnd''|]. intros x. rewrite Hin'', Hin'. cbn [In].
    intuition.
Qed.

Lemma same_elements_same_length (xs ys : list string) :
  NoDup xs -> NoDup ys -> (forall x, In x xs <-> In x ys) ->
  List.length xs = List.length ys.
Proof.
  intros Hx Hy H. apply Nat.le_antisymm.
  - apply NoDup_incl_length; [exact Hx | intros x Hin; apply H; exact Hin].
  - apply NoDup_incl_length; [exact Hy | intros x Hin; apply H; exact Hin].
Qed.

(** A set collected from the empty set has as many elements as there are
    distinct elements collected. *)
Lemma collect_length (ws content : list string) :
  (forall x, In x ws <-> In x content) ->
  List.length (collect ws []) = count_distinct content.
Proof.
  intros H. unfold count_distinct.
  destruct (collect_spec ws [] (NoDup_nil _)) as [Hnd Hin].
  apply same_elements_same_length; [exact Hnd | apply NoDup_nodup |].
  intros x. rewrite Hin, nodup_In, H. cbn [In]. intuition.
Qed.

Lemma set_add_strings (w : string) (s : list string) :
  Info.set_add (PStr w) (map PStr s) = map PStr (sadd w s).
Proof.
  unfold Info.set_add, sadd.
  assert (He : existsb (Info.atom_eqb (PStr w)) (map PStr s)
               = existsb (String.eqb w) s).
  { induction s as [|y s IH]; [reflexivity|].
    cbn [map existsb Info.atom_eqb]. rewrite IH. reflexivity. }
  rewrite He. destruct (existsb (String.eqb w) s); [reflexivity|].
  rewrite map_app. reflexivity.
Qed.

Lemma fold_set_add_strings (ws s : list string) :
  fold_left (fun s x => Info.set_add x s) (map PStr ws) (map PStr s)
  = map PStr (collect ws s).
Proof.
  unfold collect. revert s. induction ws as [|w ws IH]; intros s;
    [reflexivity|].
  cbn [map fold_left]. rewrite set_add_strings. apply IH.
Qed.

Lemma token_set_strings (t : Text) :
  token_set t = map PStr (collect (concat t) []).
Proof.
  unfold token_set.
  change (@nil Val) with (map PStr []).
  rewrite <- fold_set_add_strings.
  generalize (map PStr []). induction (concat t) as [|w ws IH]; intros s;
    [reflexivity|].
  cbn [map fold_left]. apply IH.
Qed.

Lemma token_set_length (t : Text) :
  Z.of_nat (List.length (token_set t)) = text_vocabulary t.
Proof.
  rewrite token_set_strings, length_map. unfold text_vocabulary.
  rewrite (collect_length (concat t) (concat t)); [reflexivity|].
  intros x. reflexivity.
Qed.

(** Dereferencing the references of the texts of a class. *)
Lemma deref_refs_from (texts : list Text) :
  forall h0 h1 : list (list Val),
    map (Info.deref (h0 ++ map token_set texts ++ h1))
        (refs_from (List.length h0) texts)
    = concat (map (fun t => repeat (token_set t) (List.length t)) texts).
Proof.
  induction texts as [|t texts IH]; intros h0 h1; [reflexivity|].
  cbn [map refs_from concat]. rewrite map_app. f_equal.
  - rewrite map_repeat. f_equal. unfold Info.deref.
    rewrite app_nth2 by lia. rewrite Nat.sub_diag. reflexivity.
  - specialize (IH (h0 ++ [token_set t]) h1).
    rewrite length_app in IH. cbn [List.length] in IH.
    rewrite Nat.add_1_r, <- app_assoc in IH. exact IH.
Qed.

Lemma lookup_vocab_from (c1 c2 : list (string * list Text)) (k : string)
  (texts : list Text) (base : nat) :
  NoDup (map fst (c1 ++ (k, texts) :: c2)) ->
  lookup (vocab_from base (c1 ++ (k, texts) :: c2)) k
  = Some (refs_from (base + List.length (concat (map snd c1))) texts).
Proof.
  intros Hnd. rewrite vocab_from_app. cbn [vocab_from].
  rewrite lookup_app_fresh.
  - cbn [lookup]. rewrite String.eqb_refl. reflexivity.
  - rewrite vocab_from_keys. rewrite map_app in Hnd. cbn [map fst] in Hnd.
    apply NoDup_remove_2 in Hnd. intros Hin. apply Hnd.
    apply in_or_app. left. exact Hin.
Qed.

(** The sets the later passes read for one class: each text's set, once
    per sentence of the text. *)
Lemma class_sets (c1 c2 : list (string * list Text)) (k : string)
  (texts : list Text) :
  NoDup (map fst (c1 ++ (k, texts) :: c2)) ->
  exists refs : list nat,
    lookup (vocab_from 0 (c1 ++ (k, texts) :: c2)) k = Some refs
    /\ map (Info.deref
              (map token_set (concat (map snd (c1 ++ (k, texts) :: c2)))))
           refs
       = concat (map (fun t => repeat (token_set t) (List.length t)) texts)
    /\ List.length refs = Z.to_nat (sentence_count texts).
Proof.
  intros Hnd. eexists. split; [apply lookup_vocab_from; exact Hnd|].
  split.
  - rewrite map_app, concat_app, map_app. cbn [map snd concat Nat.add].
    rewrite map_app.
    rewrite <- (length_map token_set (concat (map snd c1))).
    apply deref_refs_from.
  - cbn [Nat.add]. generalize (List.length (concat (map snd c1))).
    unfold sentence_count. clear.
    induction texts as [|t texts IH]; intros base; [reflexivity|].
    cbn [refs_from map]. rewrite length_app, repeat_length, IH, zsum_cons.
    pose proof (zsum_lengths_nonneg texts) as Hpos.
    rewrite Z2Nat.inj_add by lia. rewrite Nat2Z.id. reflexivity.
Qed.

Lemma nested_fold {A B C : Type} (f : A -> B -> A) (g : C -> list B)
  (cs : list C) (acc : A) :
  fold_left (fun acc c => fold_left f (g c) acc) cs acc
  = fold_left f (concat (map g cs)) acc.
Proof.
  revert acc. induction cs as [|c cs IH]; intros acc; [reflexivity|].
  cbn [fold_left map concat]. rewrite fold_left_app. apply IH.
Qed.

Lemma pair_fold (l : list Val) (a b : list Val) :
  fold_left
    (fun sets token =>
       (Info.set_add token (fst sets), Info.set_add token (snd sets)))
    l (a, b)
  = (fold_left (fun s x => Info.set_add x s) l a,
     fold_left (fun s x => Info.set_add x s) l b).
Proof.
  revert a b. induction l as [|x l IH]; intros a b; [reflexivity|].
  cbn [fold_left fst snd]. apply IH.
Qed.

Lemma concat_map_strings (ll : list (list string)) :
  concat (map (map PStr) ll) = map PStr (concat ll).
Proof.
  induction ll as [|l ll IH]; [reflexivity|].
  cbn [map concat]. rewrite map_app, IH. reflexivity.
Qed.

Lemma class_sets_listing (texts : list Text) :
  concat (concat (map (fun t => repeat (token_set t) (List.length t)) texts))
  = map PStr (class_listing texts).
Proof.
  unfold class_listing. rewrite <- concat_map_strings. f_equal.
  induction texts as [|t texts IH]; [reflexivity|].
  cbn [map concat]. rewrite map_app, <- IH. f_equal.
  rewrite token_set_strings, map_repeat. reflexivity.
Qed.

Lemma in_concat_repeat {A : Type} (x : A) (l : list A) (n : nat) :
  In x (concat (repeat l n)) <-> (n <> 0)%nat /\ In x l.
Proof.
  induction n as [|n IH]; cbn [repeat concat].
  - split; [intros [] | intros [H _]; congruence].
  - rewrite in_app_iff, IH. split.
    + intros [H | [_ H]]; split; auto.
    + intros [_ H]. left. exact H.
Qed.

Lemma class_listing_elements (texts : list Text) (x : string) :
  In x (class_listing texts) <-> In x (class_tokens texts).
Proof.
  unfold class_listing, class_tokens.
  induction texts as [|t texts IH]; [reflexivity|].
  cbn [map concat]. rewrite !concat_app, !in_app_iff, IH.
  rewrite in_concat_repeat.
  destruct (collect_spec (concat t) [] (NoDup_nil _)) as [_ Hin].
  rewrite Hin. cbn [In].
  assert (Hsent : In x (concat t) -> List.length t <> 0%nat).
  { destruct t; [intros [] | discriminate]. }
  tauto.
Qed.

(** One class in the size pass. *)
Lemma size_level_canonical (c1 c2 : list (string * list Text)) (k : string)
  (texts : list Text) (seen : list string) (sizes : list Z) :
  NoDup (map fst (c1 ++ (k, texts) :: c2)) ->
  Info.size_level
    {| Info.heap := map token_set (concat (map snd (c1 ++ (k, texts) :: c2)));
       Info.vocab := vocab_from 0 (c1 ++ (k, texts) :: c2) |}
    (map PStr seen, sizes) k
  = Ret (map PStr (collect (class_listing texts) seen),
         sizes ++ [class_vocabulary texts]).
Proof.
  intros Hnd. destruct (class_sets c1 c2 k texts Hnd) as (refs & Hl & Hd & _).
  unfold Info.size_level, lookup_key. cbn [Info.vocab Info.heap fst snd].
  rewrite Hl. cbn [bind].
  rewrite (nested_fold
             (fun sets token =>
                (Info.set_add token (fst sets), Info.set_add token (snd sets)))
             (Info.deref
                (map token_set
                     (concat (map snd (c1 ++ (k, texts) :: c2)))))).
  rewrite Hd, class_sets_listing, pair_fold.
  change (@nil Val) with (map PStr []).
  rewrite !fold_set_add_strings, length_map.
  unfold class_vocabulary.
  rewrite (collect_length (class_listing texts) (class_tokens texts))
    by apply class_listing_elements.
  reflexivity.
Qed.

(** The whole size pass on a canonical corpus. *)
Lemma size_pass_canonical (c : list (string * list Text)) :
  NoDup (map fst c) ->
  exists seen : list string,
    for_each
      (Info.size_level
         {| Info.heap := map token_set (concat (map snd c));
            Info.vocab := vocab_from 0 c |})
      (map fst c) ([], [])
    = Ret (map PStr seen, map (fun kv => class_vocabulary (snd kv)) c)
    /\ List.length seen = count_distinct (corpus_tokens c).
Proof.
  intros Hnd.
  assert (Hgen : forall (todo done : list (string * list Text))
                        (seen : list string),
             c = done ++ todo ->
             NoDup seen ->
             (forall x, In x seen <-> In x (corpus_tokens done)) ->
             exists seen' : list string,
               for_each
                 (Info.size_level
                    {| Info.heap := map token_set (concat (map snd c));
                       Info.vocab := vocab_from 0 c |})
                 (map fst todo)
                 (map PStr seen, map (fun kv => class_vocabulary (snd kv)) done)
               = Ret (map PStr seen',
                      map (fun kv => class_vocabulary (snd kv)) c)
               /\ NoDup seen'
               /\ (forall x, In x seen' <-> In x (corpus_tokens c))).
  { induction todo as [|[k texts] todo IH]; intros done seen Hc Hs Hin.
    - rewrite app_nil_r in Hc. subst done. exists seen.
      split; [reflexivity | split; assumption].
    - cbn [map fst for_each].
      pose proof (size_level_canonical done todo k texts seen
                    (map (fun kv => class_vocabulary (snd kv)) done)) as Hstep.
      rewrite <- Hc in Hstep. rewrite (Hstep Hnd). clear Hstep.
      cbn [bind].
      destruct (collect_spec (class_listing texts) seen Hs) as [Hnd' Hin'].
      destruct (IH (done ++ [(k, texts)]) (collect (class_listing texts) seen))
        as (seen' & Hrun & Hnd'' & Hin'').
      + rewrite <- app_assoc. exact Hc.
      + exact Hnd'.
      + intros x. rewrite Hin', Hin, class_listing_elements.
        unfold corpus_tokens. rewrite map_app, concat_app, in_app_iff.
        cbn [map snd concat]. rewrite app_nil_r. reflexivity.
      + exists seen'. rewrite map_app in Hrun. cbn [map snd] in Hrun.
        split; [exact Hrun | split; assumption]. }
  destruct (Hgen c [] [] eq_refl (NoDup_nil _)) as (seen & Hrun & Hs & Hin).
  - intros x. reflexivity.
  - exists seen. split; [exact Hrun|].
    unfold count_distinct.
    apply same_elements_same_length; [exact Hs | apply NoDup_nodup |].
    intros x. rewrite nodup_In. apply Hin.
Qed.

(* ================================================================== *)
(** * corpus_info: mean vocabulary sizes *)
(* ================================================================== *)

(** The inner loop of the mean pass, over references whose sets have the
    sizes [sz]. *)
Lemma mean_loop (sz : nat -> Z) (n d : Z) (refs : list nat) :
  n <> 0 -> d <> 0 ->
  forall acc : R * R,
    Info.ofor_each
      (fun acc a =>
         Info.obind (Info.div (IZR (sz a)) n)
           (fun q =>
              Info.obind (Info.div (IZR (sz a)) d)
                (fun r => Info.Returns ((fst acc + q)%R, (snd acc + r)%R))))
      refs acc
    = Info.Returns
        ((fst acc + IZR (zsum (map sz refs)) / IZR n)%R,
         (snd acc + IZR (zsum (map sz refs)) / IZR d)%R).
Proof.
  intros Hn Hd.
  pose proof (IZR_nonzero n Hn) as HnR. pose proof (IZR_nonzero d Hd) as HdR.
  induction refs as [|a refs IH]; intros [x y].
  - cbn [Info.ofor_each map fst snd]. f_equal.
    change (zsum []) with 0. f_equal; field; assumption.
  - cbn [Info.ofor_each map]. rewrite !div_nonzero by assumption.
    cbn [Info.obind]. rewrite IH. cbn [fst snd]. rewrite zsum_cons, plus_IZR.
    f_equal. f_equal; field; assumption.
Qed.

Lemma sizes_of_class_sets (texts : list Text) :
  zsum (map (fun s : list Val => Z.of_nat (List.length s))
            (concat (map (fun t => repeat (token_set t) (List.length t)) texts)))
  = weighted_vocabulary texts.
Proof.
  unfold weighted_vocabulary.
  induction texts as [|t texts IH]; [reflexivity|].
  cbn [map concat]. rewrite map_app, zsum_app, IH, zsum_cons. f_equal.
  rewrite map_repeat, token_set_length.
  induction (List.length t) as [|n IHn]; [reflexivity|].
  cbn [repeat]. rewrite zsum_cons, IHn. lia.
Qed.

Lemma sentence_count_populated (texts : list Text) :
  class_populated texts = true -> 1 <= sentence_count texts.
Proof.
  unfold class_populated, sentence_count. intros H.
  apply andb_true_iff in H. destruct H as [Hne Hpop].
  destruct texts as [|t texts]; [discriminate Hne|].
  apply all_texts_populated_cons in Hpop. destruct Hpop as [Ht _].
  cbn [map]. rewrite zsum_cons.
  pose proof (zsum_lengths_nonneg texts).
  destruct t; [congruence | cbn [List.length]; lia].
Qed.

(** One populated class in the mean pass. *)
Lemma mean_level_canonical (c1 c2 : list (string * list Text)) (k : string)
  (texts : list Text) (n : Z) (total : R) (means : list R) :
  NoDup (map fst (c1 ++ (k, texts) :: c2)) ->
  n <> 0 ->
  class_populated texts = true ->
  Info.mean_level
    {| Info.heap := map token_set (concat (map snd (c1 ++ (k, texts) :: c2)));
       Info.vocab := vocab_from 0 (c1 ++ (k, texts) :: c2) |}
    n (total, means) k
  = Info.Returns
      ((total + IZR (weighted_vocabulary texts) / IZR n)%R,
       means ++ [class_vocabulary_mean texts]).
Proof.
  intros Hnd Hn Hpop.
  destruct (class_sets c1 c2 k texts Hnd) as (refs & Hl & Hd & Hlen).
  pose proof (sentence_count_populated texts Hpop) as Hs.
  assert (Hrefs : Z.of_nat (List.length refs) = sentence_count texts)
    by (rewrite Hlen; lia).
  unfold Info.mean_level, lookup_key. cbn [Info.vocab Info.heap fst snd].
  rewrite Hl. cbn [Info.lift Info.obind].
  rewrite (mean_loop
             (fun a =>
                Z.of_nat
                  (List.length
                     (Info.deref
                        (map token_set
                             (concat (map snd (c1 ++ (k, texts) :: c2))))
                        a)))
             n (Z.of_nat (List.length refs)) refs Hn)
    by (rewrite Hrefs; lia).
  cbn [Info.obind fst snd].
  rewrite <- (map_map
                (Info.deref
                   (map token_set (concat (map snd (c1 ++ (k, texts) :: c2)))))
                (fun s : list Val => Z.of_nat (List.length s))).
  rewrite Hd, sizes_of_class_sets, Hrefs, Rplus_0_l.
  reflexivity.
Qed.

Lemma weighted_total_app (c : list (string * list Text)) (k : string)
  (texts : list Text) (n : Z) :
  n <> 0 ->
  (IZR (zsum (map (fun kv => weighted_vocabulary (snd kv)) c)) / IZR n
   + IZR (weighted_vocabulary texts) / IZR n)%R
  = (IZR (zsum (map (fun kv => weighted_vocabulary (snd kv))
                    (c ++ [(k, texts)])))
     / IZR n)%R.
Proof.
  intros Hn. pose proof (IZR_nonzero n Hn) as HnR.
  rewrite map_app, zsum_app. cbn [map snd]. rewrite zsum_cons, !plus_IZR.
  change (zsum []) with 0. field. exact HnR.
Qed.

(** The whole mean pass on a populated canonical corpus. *)
Lemma mean_pass_canonical (c : list (string * list Text)) (n : Z) :
  NoDup (map fst c) ->
  n <> 0 ->
  populated c = true ->
  Info.ofor_each
    (Info.mean_level
       {| Info.heap := map token_set (concat (map snd c));
          Info.vocab := vocab_from 0 c |} n)
    (map fst c) (0%R, [])
  = Info.Returns
      ((IZR (zsum (map (fun kv => weighted_vocabulary (snd kv)) c)) / IZR n)%R,
       map (fun kv => class_vocabulary_mean (snd kv)) c).
Proof.
  intros Hnd Hn Hpop. pose proof (IZR_nonzero n Hn) as HnR.
  assert (Hgen : forall todo done : list (string * list Text),
             c = done ++ todo ->
             Info.ofor_each
               (Info.mean_level
                  {| Info.heap := map token_set (concat (map snd c));
                     Info.vocab := vocab_from 0 c |} n)
               (map fst todo)
               ((IZR (zsum (map (fun kv => weighted_vocabulary (snd kv)) done))
                 / IZR n)%R,
                map (fun kv => class_vocabulary_mean (snd kv)) done)
             = Info.Returns
                 ((IZR (zsum (map (fun kv => weighted_vocabulary (snd kv)) c))
                   / IZR n)%R,
                  map (fun kv => class_vocabulary_mean (snd kv)) c)).
  { induction todo as [|[k texts] todo IH]; intros done Hc.
    - rewrite app_nil_r in Hc. subst done. reflexivity.
    - cbn [map fst Info.ofor_each].
      assert (Hclass : class_populated texts = true).
      { rewrite Hc, populated_app in Hpop.
        apply andb_true_iff in Hpop. destruct Hpop as [_ Hpop].
        change (populated ((k, texts) :: todo))
          with (class_populated texts && populated todo) in Hpop.
        apply andb_true_iff in Hpop. apply Hpop. }
      pose proof (mean_level_canonical done todo k texts n
                    (IZR (zsum (map (fun kv => weighted_vocabulary (snd kv))
                                    done)) / IZR n)%R
                    (map (fun kv => class_vocabulary_mean (snd kv)) done))
        as Hstep.
      rewrite <- Hc in Hstep. rewrite (Hstep Hnd Hn Hclass). clear Hstep.
      cbn [Info.obind].
      rewrite (weighted_total_app done k texts n Hn).
      specialize (IH (done ++ [(k, texts)])).
      rewrite (map_app (fun kv => class_vocabulary_mean (snd kv))) in IH.
      cbn [map snd] in IH. apply IH. rewrite <- app_assoc. exact Hc. }
  specialize (Hgen c [] eq_refl). cbn [map] in Hgen.
  change (zsum []) with 0 in Hgen.
  replace (0 / IZR n)%R with 0%R in Hgen by (field; exact HnR).
  exact Hgen.
Qed.

(* ================================================================== *)
(** * corpus_info on a canonical corpus *)
(* ================================================================== *)

Lemma rsum_rtotal (xs : list R) : Info.rsum xs = rtotal xs.
Proof.
  unfold Info.rsum, rtotal.
  assert (H : forall a, fold_left Rplus xs a = (a + fold_right Rplus 0 xs)%R).
  { induction xs as [|x xs IH]; intros a; cbn [fold_left fold_right].
    - lra.
    - rewrite IH. lra. }
  rewrite H. lra.
Qed.

Lemma file_total_positive (c : list (string * list Text)) :
  c <> [] -> populated c = true -> 1 <= file_total c.
Proof.
  unfold file_total, populated. intros Hne Hpop.
  destruct c as [|[k texts] c]; [congruence|].
  cbn [forallb snd] in Hpop. apply andb_true_iff in Hpop.
  destruct Hpop as [Hclass _]. apply andb_true_iff in Hclass.
  destruct Hclass as [Htexts _].
  cbn [map snd]. rewrite zsum_cons.
  assert (Hrest : 0 <= zsum (map (fun kv : string * list Text =>
                                    Z.of_nat (List.length (snd kv))) c)).
  { clear. induction c as [|kv c IH]; [simpl; lia|].
    cbn [map]. rewrite zsum_cons. lia. }
  destruct texts; [discriminate Htexts | cbn [List.length]; lia].
Qed.

(** The frame [corpus_info] builds for a populated canonical corpus. *)
Lemma corpus_info_populated (self : Readability)
  (c : list (string * list Text)) :
  holds_corpus self c ->
  c <> [] ->
  populated c = true ->
  Info.corpus_info self = Info.Returns (Info.Table (corpus_frame c)).
Proof.
  intros (Hct & Hc & Hk & Hnd) Hne Hpop.
  pose proof (file_total_positive c Hne Hpop) as Hfiles.
  unfold Info.corpus_info. rewrite Hct, Hc, Hk.
  cbn [getattr Info.lift Info.obind].
  change (negb (String.eqb "corpus" "corpus")) with false. cbv iota.
  rewrite (vocab_pass_canonical c Hnd). cbn [Info.lift Info.obind].
  pose proof (count_pass_canonical c Hnd) as Hcount.
  rewrite Hpop in Hcount. unfold counted_rows at 1 in Hcount. cbn [map] in Hcount.
  rewrite Hcount. cbn [Info.obind]. clear Hcount.
  cbn [counted_rows Info.nb_files Info.nb_ph Info.nb_ph_moy Info.len_ph_moy
       Info.nb_tokens Info.nb_tokens_moy].
  rewrite !sum_zsum.
  fold (file_total c). fold (sentence_total c). fold (token_total c).
  rewrite !div_nonzero by lia. cbn [Info.obind].
  rewrite div_nonzero
    by (rewrite length_map; destruct c; [congruence | cbn [List.length]; lia]).
  cbn [Info.obind].
  destruct (size_pass_canonical c Hnd) as (seen & Hsize & Hseen).
  rewrite Hsize. cbn [Info.lift Info.obind fst snd].
  rewrite (mean_pass_canonical c (file_total c) Hnd) by (try assumption; lia).
  cbn [Info.obind fst snd].
  rewrite !length_map, Hseen, rsum_rtotal. reflexivity.
Qed.

Lemma corpus_info_unpopulated (self : Readability)
  (c : list (string * list Text)) :
  holds_corpus self c ->
  c = [] \/ populated c = false ->
  Info.corpus_info self = Info.RaisesZeroDivisionError.
Proof.
  intros (Hct & Hc & Hk & Hnd) Hbad.
  unfold Info.corpus_info. rewrite Hct, Hc, Hk.
  cbn [getattr Info.lift Info.obind].
  change (negb (String.eqb "corpus" "corpus")) with false. cbv iota.
  rewrite (vocab_pass_canonical c Hnd). cbn [Info.lift Info.obind].
  pose proof (count_pass_canonical c Hnd) as Hcount.
  unfold counted_rows at 1 in Hcount. cbn [map] in Hcount.
  rewrite Hcount. clear Hcount.
  destruct Hbad as [-> | Hpop]; [reflexivity|].
  rewrite Hpop. reflexivity.
Qed.

(** X23.  corpus_info needs a text in every class and a sentence in every
    text: on a session holding a canonical corpus it returns its frame when
    the corpus has a class and is so populated, and raises ZeroDivisionError
    otherwise, although compile() succeeds on every canonical corpus.  On a
    session whose content type is set but is not "corpus" it returns 0. *)
Theorem X23_corpus_info_outcomes :
  forall (syllablesplit : string -> Z) (self : Readability)
         (c : list (string * list Text)) (other : Readability) (ct : string),
    holds_corpus self c ->
    content_type other = Some ct ->
    String.eqb ct "corpus" = false ->
    (c <> [] /\ populated c = true ->
     exists f : Info.Frame,
       Info.corpus_info self = Info.Returns (Info.Table f)
       /\ Info.cols f = map fst c ++ ["total"])
    /\ (c = [] \/ populated c = false ->
        Info.corpus_info self = Info.RaisesZeroDivisionError)
    /\ (exists compiled : Readability,
           compile syllablesplit self = Ret (compiled, RSelf))
    /\ Info.corpus_info other = Info.Returns Info.Zero.
Proof.
  intros syl self c other ct Hholds Hct Hneq. split; [|split; [|split]].
  - intros [Hne Hpop]. exists (corpus_frame c).
    split; [apply corpus_info_populated; assumption | reflexivity].
  - apply corpus_info_unpopulated. exact Hholds.
  - destruct Hholds as (Hct' & Hc & Hk & Hnd). eexists.
    apply compile_corpus_canonical; eassumption.
  - unfold Info.corpus_info. rewrite Hct. cbn [getattr Info.lift Info.obind].
    rewrite Hneq. reflexivity.
Qed.

Lemma example_holds_corpus :
  holds_corpus (corpus_session None example_corpus) example_corpus.
Proof.
  repeat split. exact example_corpus_keys_distinct.
Defined.

Lemma X23_corpus_info_outcomes_witness :
  (example_corpus <> [] /\ populated example_corpus = true ->
   exists f : Info.Frame,
     Info.corpus_info (corpus_session None example_corpus)
     = Info.Returns (Info.Table f)
     /\ Info.cols f = map fst example_corpus ++ ["total"])
  /\ (example_corpus = [] \/ populated example_corpus = false ->
      Info.corpus_info (corpus_session None example_corpus)
      = Info.RaisesZeroDivisionError)
  /\ (exists compiled : Readability,
         compile count_vowels (corpus_session None example_corpus)
         = Ret (compiled, RSelf))
  /\ Info.corpus_info (text_session None example_text)
     = Info.Returns Info.Zero.
Proof.
  apply (X23_corpus_info_outcomes count_vowels
           (corpus_session None example_corpus) example_corpus
           (text_session None example_text) "text").
  - exact example_holds_corpus.
  - reflexivity.
  - reflexivity.
Defined.

Lemma snapshot_sentences (syllablesplit : string -> Z) (texts : list Text) :
  zsum (map totalSentences (map (aggregate syllablesplit) texts))
  = sentence_count texts.
Proof. unfold sentence_count. rewrite map_map. reflexivity. Qed.

Lemma snapshot_words (syllablesplit : string -> Z) (texts : list Text) :
  zsum (map totalWords (map (aggregate syllablesplit) texts))
  = token_count texts.
Proof. unfold token_count. rewrite map_map. reflexivity. Qed.

(** X24.  The counting rows of corpus_info agree with compile(): for a
    populated canonical corpus, the per-class entries of "Nombre de
    fichiers", "Nombre de phrases total" and "Nombre de tokens" are the
    number of snapshots compile() stores for the class, the sum of their
    totalSentences and the sum of their totalWords, and the last entry of
    each of the three rows, under "total", is the sum of the class
    entries. *)
Theorem X24_corpus_info_counts :
  forall (syllablesplit : string -> Z) (self : Readability)
         (c : list (string * list Text)),
    holds_corpus self c ->
    c <> [] ->
    populated c = true ->
    exists (f : Info.Frame) (stats : list (string * list Statistics)),
      Info.corpus_info self = Info.Returns (Info.Table f)
      /\ compile syllablesplit self
         = Ret (set_corpus_statistics self stats, RSelf)
      /\ Info.files f
         = map (fun kv => Z.of_nat (List.length (snd kv))) stats
           ++ [zsum (map (fun kv => Z.of_nat (List.length (snd kv))) stats)]
      /\ Info.sentences f
         = map (fun kv => zsum (map totalSentences (snd kv))) stats
           ++ [zsum (map (fun kv => zsum (map totalSentences (snd kv))) stats)]
      /\ Info.tokens_total f
         = map (fun kv => zsum (map totalWords (snd kv))) stats
           ++ [zsum (map (fun kv => zsum (map totalWords (snd kv))) stats)].
Proof.
  intros syl self c Hholds Hne Hpop.
  exists (corpus_frame c), (aggregate_corpus syl c).
  split; [apply corpus_info_populated; assumption|].
  destruct Hholds as (Hct & Hc & Hk & Hnd).
  split; [apply compile_corpus_canonical; assumption|].
  unfold aggregate_corpus, corpus_frame, file_total, sentence_total,
    token_total.
  cbn [Info.files Info.sentences Info.tokens_total].
  rewrite !map_map. cbn [snd].
  assert (H1 : map (fun x : string * list Text =>
                      Z.of_nat (List.length (map (aggregate syl) (snd x)))) c
               = map (fun kv => Z.of_nat (List.length (snd kv))) c).
  { apply map_ext. intros kv. rewrite length_map. reflexivity. }
  assert (H2 : map (fun x : string * list Text =>
                      zsum (map totalSentences (map (aggregate syl) (snd x)))) c
               = map (fun kv => sentence_count (snd kv)) c).
  { apply map_ext. intros kv. apply snapshot_sentences. }
  assert (H3 : map (fun x : string * list Text =>
                      zsum (map totalWords (map (aggregate syl) (snd x)))) c
               = map (fun kv => token_count (snd kv)) c).
  { apply map_ext. intros kv. apply snapshot_words. }
  rewrite H1, H2, H3. repeat split.
Qed.

Lemma X24_corpus_info_counts_witness :
  exists (f : Info.Frame) (stats : list (string * list Statistics)),
    Info.corpus_info (corpus_session None example_corpus)
    = Info.Returns (Info.Table f)
    /\ compile count_vowels (corpus_session None example_corpus)
       = Ret (set_corpus_statistics (corpus_session None example_corpus) stats,
              RSelf)
    /\ Info.files f
       = map (fun kv => Z.of_nat (List.length (snd kv))) stats
         ++ [zsum (map (fun kv => Z.of_nat (List.length (snd kv))) stats)]
    /\ Info.sentences f
       = map (fun kv => zsum (map totalSentences (snd kv))) stats
         ++ [zsum (map (fun kv => zsum (map totalSentences (snd kv))) stats)]
    /\ Info.tokens_total f
       = map (fun kv => zsum (map totalWords (snd kv))) stats
         ++ [zsum (map (fun kv => zsum (map totalWords (snd kv))) stats)].
Proof.
  apply (X24_corpus_info_counts count_vowels
           (corpus_session None example_corpus) example_corpus).
  - exact example_holds_corpus.
  - discriminate.
  - reflexivity.
Defined.

Lemma count_distinct_incl (xs ys : list string) :
  incl xs ys -> (count_distinct xs <= count_distinct ys)%nat.
Proof.
  intros H. unfold count_distinct. apply NoDup_incl_length.
  - apply NoDup_nodup.
  - intros x Hx. apply nodup_In. apply H. apply nodup_In in Hx. exact Hx.
Qed.

Lemma count_distinct_app_le (xs ys : list string) :
  (count_distinct (xs ++ ys) <= count_distinct xs + count_distinct ys)%nat.
Proof.
  unfold count_distinct. rewrite <- length_app. apply NoDup_incl_length.
  - apply NoDup_nodup.
  - intros x Hx. apply nodup_In in Hx. apply in_app_iff in Hx.
    apply in_app_iff. destruct Hx as [Hx | Hx]; [left | right];
      apply nodup_In; exact Hx.
Qed.

Lemma class_tokens_in_corpus (c : list (string * list Text)) (k : string)
  (texts : list Text) :
  In (k, texts) c -> incl (class_tokens texts) (corpus_tokens c).
Proof.
  intros Hin x Hx. unfold corpus_tokens. apply in_concat.
  exists (class_tokens texts). split; [|exact Hx].
  apply in_map_iff. exists (k, texts). split; [reflexivity | exact Hin].
Qed.

Lemma corpus_vocabulary_le_sum (c : list (string * list Text)) :
  Z.of_nat (count_distinct (corpus_tokens c))
  <= zsum (map (fun kv => class_vocabulary (snd kv)) c).
Proof.
  unfold corpus_tokens, class_vocabulary.
  induction c as [|[k texts] c IH]; [simpl; lia|].
  cbn [map concat snd]. rewrite zsum_cons.
  pose proof (count_distinct_app_le (class_tokens texts)
                (concat (map (fun kv : string * list Text =>
                                class_tokens (snd kv)) c))).
  lia.
Qed.

Lemma token_count_class_tokens (texts : list Text) :
  token_count texts = Z.of_nat (List.length (class_tokens texts)).
Proof.
  unfold token_count, class_tokens, word_count.
  induction texts as [|t texts IH]; [reflexivity|].
  cbn [map concat]. rewrite zsum_cons, IH, concat_app, length_app.
  rewrite zsum_lengths_concat. lia.
Qed.

(** X25.  The row "Taille du vocabulaire" of corpus_info counts distinct
    tokens: for a populated canonical corpus, the entry of a class is the
    number of distinct tokens in the texts of the class and the entry under
    "total" the number of distinct tokens of the corpus.  Hence a class
    entry is at most the class's number of tokens and at most the total,
    and the total is at most the sum of the class entries. *)
Theorem X25_corpus_info_vocabulary :
  forall (self : Readability) (c : list (string * list Text)),
    holds_corpus self c ->
    c <> [] ->
    populated c = true ->
    exists f : Info.Frame,
      Info.corpus_info self = Info.Returns (Info.Table f)
      /\ Info.vocabulary f
         = map (fun kv =>
                  Z.of_nat (count_distinct (concat (concat (snd kv))))) c
           ++ [Z.of_nat (count_distinct (corpus_tokens c))]
      /\ (forall k texts,
             In (k, texts) c ->
             Z.of_nat (count_distinct (concat (concat texts)))
             <= Z.of_nat (count_distinct (corpus_tokens c))
             /\ Z.of_nat (count_distinct (concat (concat texts)))
                <= token_count texts)
      /\ Z.of_nat (count_distinct (corpus_tokens c))
         <= zsum (map (fun kv =>
                         Z.of_nat (count_distinct (concat (concat (snd kv)))))
                      c).
Proof.
  intros self c Hholds Hne Hpop. exists (corpus_frame c).
  split; [apply corpus_info_populated; assumption|].
  split; [reflexivity|]. split.
  - intros k texts Hin. split.
    + pose proof (count_distinct_incl _ _ (class_tokens_in_corpus c k texts Hin)).
      unfold class_tokens in *. lia.
    + rewrite token_count_class_tokens.
      pose proof (count_distinct_le (class_tokens texts)).
      unfold class_tokens in *. lia.
  - apply corpus_vocabulary_le_sum.
Qed.

Lemma X25_corpus_info_vocabulary_witness :
  exists f : Info.Frame,
    Info.corpus_info (corpus_session None example_corpus)
    = Info.Returns (Info.Table f)
    /\ Info.vocabulary f
       = map (fun kv =>
                Z.of_nat (count_distinct (concat (concat (snd kv)))))
             example_corpus
         ++ [Z.of_nat (count_distinct (corpus_tokens example_corpus))]
    /\ (forall k texts,
           In (k, texts) example_corpus ->
           Z.of_nat (count_distinct (concat (concat texts)))
           <= Z.of_nat (count_distinct (corpus_tokens example_corpus))
           /\ Z.of_nat (count_distinct (concat (concat texts)))
              <= token_count texts)
    /\ Z.of_nat (count_distinct (corpus_tokens example_corpus))
       <= zsum (map (fun kv =>
                       Z.of_nat (count_distinct (concat (concat (snd kv)))))
                    example_corpus).
Proof.
  apply (X25_corpus_info_vocabulary (corpus_session None example_corpus)
           example_corpus).
  - exact example_holds_corpus.
  - discriminate.
  - reflexivity.
Defined.






